(** * Ceama: fan control over EtherCAT (app.py)

    A shallow embedding of [src/app.py]: the speed-to-voltage mapping
    ([calculate_voltage]), the EtherCAT bring-up
    ([initialize_ethercat_device_logic]), the cyclic write
    ([send_to_device]), the periodic supervisor ([check_ethercat_status]),
    the manual reconnection ([reconnect_ethercat_manual]) and the command
    callback ([handle_fan_control]) with its CSV log ([log_action]).

    Python floats are IEEE-754 binary64 values: they are modelled by Rocq's
    primitive [float], whose operations are specified by [SpecFloat].  The
    pysoem library is not part of the program: every call into it is
    recorded as an [Effect], and what it answers is read from an environment
    record given to each operation.  The globals [master], [adecua_slave]
    and [ethercat_status_message], the log file and the console are fields
    of a [World] threaded through the operations.  The lock
    [ethercat_lock] serialises the operations: each one is modelled as run
    to its end.  Of the console only the lines printed by the bring-up are
    kept, since they are how the program tells its failures apart; the
    progress lines of the other functions are left out.  The graph
    callback ([update_graph]) is modelled by the three series it plots,
    with Python's [float] on a string as a parameter.

    The two earlier versions of the program are embedded after it: the one
    that writes the voltage to a text file (module [FileApp]) and the
    desktop simulator (module [Simulazione]).

    Part I holds the definitions, Part II the facts proved about them. *)

From Stdlib Require Import ZArith Lia Bool List String Ascii Floats DecimalString.
From Stdlib.Strings Require Import Byte.
Import ListNotations.

Local Open Scope Z_scope.

(** * Part I: definitions *)

(** ** Binary64 arithmetic, as [SpecFloat] computes it *)

Module Binary64.

Abbreviation fexp64 := (fexp prec emax).
Abbreviation valid64 := (SpecFloat.valid_binary prec emax).

(** [locate N D] is the integer part of the fraction [N / D] together with
    the two bits [SpecFloat] keeps about the discarded part: whether it
    reaches one half, and whether it is neither nothing nor exactly one
    half. *)
Definition locate (N D : Z) : shr_record :=
  {| shr_m := N / D;
     shr_r := D <=? 2 * (N mod D);
     shr_s := negb (N mod D =? 0) && negb (2 * (N mod D) =? D) |}.

(** The fraction [N / D] rounded to the nearest integer, ties to even. *)
Definition RNE (N D : Z) : Z :=
  let q := N / D in
  let r := N mod D in
  if 2 * r <? D then q
  else if 2 * r =? D then (if Z.even q then q else q + 1)
  else q + 1.

(** What [binary_round_aux] returns once the mantissa [m] has been rounded
    at exponent [e]: a mantissa of 54 bits (2^53) is renormalised, an
    exponent above [emax - prec] overflows to infinity. *)
Definition finalize (s : bool) (m e : Z) : spec_float :=
  if m =? 9007199254740992 then
    if e + 1 <=? 971 then S754_finite s 4503599627370496 (e + 1)
    else S754_infinity s
  else
    match m with
    | Z0 => S754_zero s
    | Zpos p => if e <=? 971 then S754_finite s p e else S754_infinity s
    | Zneg _ => S754_nan
    end.

(** The float the positive number [N / D * 2 ^ e] rounds to. *)
Definition round_frac (N D e : Z) : spec_float :=
  let E := fexp64 (Zdigits2 (N / D) + e) in
  finalize false (RNE N (D * 2 ^ (E - e))) E.

(** Exponent at which [SFdiv] computes its integer quotient. *)
Definition div_exp (mx : positive) (ex : Z) (my : positive) (ey : Z) : Z :=
  Z.min (fexp64 (Zpos (digits2_pos mx) + ex - (Zpos (digits2_pos my) + ey))) (ex - ey).

(** [key] maps a valid float that is not NaN to an integer that orders
    like the float: exponent first, then mantissa, which is the order of
    the values because a valid mantissa is canonical. *)
Definition key (x : spec_float) : Z :=
  match x with
  | S754_zero _ => 0
  | S754_finite s m e => cond_Zopp s (Zpos m + (e + 1075) * 9007199254740992)
  | S754_infinity s => cond_Zopp s (2047 * 9007199254740992)
  | S754_nan => 0
  end.

Definition not_nan (x : spec_float) : bool :=
  match x with S754_nan => false | _ => true end.

Definition nonneg_fin (x : spec_float) : bool :=
  match x with
  | S754_zero _ | S754_finite false _ _ => true
  | _ => false
  end.

Definition pos_fin (x : spec_float) : bool :=
  match x with
  | S754_finite false _ _ => true
  | _ => false
  end.

Definition fkey (x : float) : Z := key (Prim2SF x).
Definition is_num (x : float) : bool := not_nan (Prim2SF x).

End Binary64.

(** ** Python values *)

(** The two exception classes the program tells apart: [pysoem.SOEMError]
    and every other [Exception]; each carries its message. *)
Inductive exn : Type :=
| SOEMError (msg : string)
| Exception (msg : string).

Definition exn_message (e : exn) : string :=
  match e with SOEMError msg | Exception msg => msg end.

(** A decimal numeral. *)
Definition decimal (n : Z) : string :=
  NilZero.string_of_uint (N.to_uint (Z.to_N n)).

(** [needle in hay] on Python strings. *)
Fixpoint str_in (needle hay : string) : bool :=
  if String.prefix needle hay then true
  else match hay with
       | EmptyString => false
       | String _ rest => str_in needle rest
       end.

Module PyFloat.

(** [min(a, b)]: the first argument unless the second is strictly
    smaller. *)
Definition pymin (a b : float) : float := if (b <? a)%float then b else a.

(** [max(a, b)]: the first argument unless the second is strictly
    greater. *)
Definition pymax (a b : float) : float := if (a <? b)%float then b else a.

(** Magnitude [m * 2 ^ e] of a finite float, truncated to an integer. *)
Definition trunc_mag (m : positive) (e : Z) : Z :=
  if 0 <=? e then Z.shiftl (Zpos m) e else Z.shiftr (Zpos m) (- e).

(** [int(x)]: truncation toward zero; NaN raises [ValueError] and an
    infinity [OverflowError]. *)
Definition int_of_float (x : float) : exn + Z :=
  match Prim2SF x with
  | S754_zero _ => inr 0
  | S754_finite s m e => inr (cond_Zopp s (trunc_mag m e))
  | S754_infinity _ => inl (Exception "cannot convert float infinity to integer")
  | S754_nan => inl (Exception "cannot convert float NaN to integer")
  end.

(** [round(x)]: the nearest integer, ties to even (used by the
    specification only; the program never calls it). *)
Definition round_of_float (x : float) : exn + Z :=
  match Prim2SF x with
  | S754_zero _ => inr 0
  | S754_finite s m e =>
      inr (cond_Zopp s (if 0 <=? e then Z.shiftl (Zpos m) e
                        else Binary64.RNE (Zpos m) (2 ^ (- e))))
  | S754_infinity _ => inl (Exception "cannot convert float infinity to integer")
  | S754_nan => inl (Exception "cannot convert float NaN to integer")
  end.

(** Hundredths of [m * 2 ^ e], correctly rounded (ties to even). *)
Definition hundredths (m : positive) (e : Z) : Z :=
  if 0 <=? e then Z.shiftl (Zpos m) e * 100
  else Binary64.RNE (Zpos m * 100) (2 ^ (- e)).

Definition two_digits (n : Z) : string :=
  ((if (n <? 10)%Z then "0" else "") ++ decimal n)%string.

Definition sign_text (s : bool) : string := if s then "-"%string else ""%string.

(** The format [{x:.2f}]. *)
Definition format_2f (x : float) : string :=
  match Prim2SF x with
  | S754_nan => "nan"%string
  | S754_infinity s => (sign_text s ++ "inf")%string
  | S754_zero s => (sign_text s ++ "0.00")%string
  | S754_finite s m e =>
      let c := hundredths m e in
      (sign_text s ++ decimal (c / 100)%Z ++ "." ++ two_digits (c mod 100)%Z)%string
  end.

End PyFloat.

Module PyInt.

Definition byte_of_Z (z : Z) : byte :=
  match Byte.of_N (Z.to_N z) with Some b => b | None => x00 end.

Definition Z_of_byte (b : byte) : Z := Z.of_N (Byte.to_N b).

Fixpoint little_endian (length : nat) (v : Z) : list byte :=
  match length with
  | O => []
  | S k => byte_of_Z (v mod 256) :: little_endian k (v / 256)
  end.

(** [n.to_bytes(length, byteorder='little', signed=True)]; [None] is the
    [OverflowError] of a value that does not fit. *)
Definition to_bytes_little_signed (n : Z) (length : nat) : option (list byte) :=
  let half := 2 ^ (8 * Z.of_nat length - 1) in
  if (- half <=? n) && (n <? half)
  then Some (little_endian length (n mod (2 * half)))
  else None.

(** [int.from_bytes(b, byteorder='little', signed=False)]. *)
Fixpoint from_bytes_little (b : list byte) : Z :=
  match b with
  | [] => 0
  | x :: rest => Z_of_byte x + 256 * from_bytes_little rest
  end.

End PyInt.

Import PyFloat PyInt.

(** ** Constants of app.py (lines 14-17 and 209-210) *)

Definition BECKHOFF_VENDOR_ID : Z := 0x00000002.
Definition BECKHOFF_AO_PRODUCT_CODE : Z := 0x017f017.
Definition AO1_OUTPUT_OFFSET : Z := 0.
Definition AO1_OUTPUT_SIZE : nat := 2.

Definition MAX_KMH : float := 10%float.
Definition MAX_VOLTAGE : float := 10%float.

(** ** VoltageMapper: [calculate_voltage] (lines 223-227) *)

(** Line 225: [max(0.0, min(kmh, MAX_KMH))]. *)
Definition clamp_kmh (kmh : float) : float :=
  pymax 0%float (pymin kmh MAX_KMH).

Definition calculate_voltage (kmh : float) : float :=
  let kmh := clamp_kmh kmh in
  let voltage := ((kmh / MAX_KMH) * MAX_VOLTAGE)%float in
  voltage.

(** Clamping in the words of the specification: below the interval the
    lower bound, above it the upper bound, inside it the value. *)
Definition clamp_spec (lo hi x : float) : float :=
  if (x <? lo)%float then lo else if (hi <? x)%float then hi else x.

(** ** pysoem, as the program sees it *)

(** States of the EtherCAT slave state machine ([pysoem.*_STATE]). *)
Inductive SlaveState : Type :=
| INIT_STATE
| PREOP_STATE
| SAFEOP_STATE
| OPERATIONAL_STATE
| ERROR_STATE.

Definition SlaveState_eqb (a b : SlaveState) : bool :=
  match a, b with
  | INIT_STATE, INIT_STATE
  | PREOP_STATE, PREOP_STATE
  | SAFEOP_STATE, SAFEOP_STATE
  | OPERATIONAL_STATE, OPERATIONAL_STATE
  | ERROR_STATE, ERROR_STATE => true
  | _, _ => false
  end.

(** The number pysoem prints for a state. *)
Definition state_code (s : SlaveState) : Z :=
  match s with
  | INIT_STATE => 1
  | PREOP_STATE => 2
  | SAFEOP_STATE => 4
  | OPERATIONAL_STATE => 8
  | ERROR_STATE => 16
  end.

(** [slave.desc]: the identity of a discovered device. *)
Record SlaveDesc : Type := { vendor_id : Z; product_code : Z }.

(** A [pysoem.Master] object, known by the interface it was opened on. *)
Record Master : Type := { master_iface : string }.

(** An element of [master.slaves]: the interface of its master, its
    position in the list and its identity. *)
Record Slave : Type :=
  { slave_iface : string; slave_position : nat; slave_desc : SlaveDesc }.

(** One entry per call the program makes into pysoem, and per pause. *)
Inductive Effect : Type :=
| MasterOpen (iface : string)
| ConfigInit (iface : string)
| ConfigDc (iface : string)
| ConfigMap (iface : string)
| StateCheck (iface : string) (st : SlaveState) (timeout : Z)
| ReadState (iface : string)
| SetSlaveState (iface : string) (position : nat) (st : SlaveState)
| SlaveStateCheck (iface : string) (position : nat)
| MasterClose (iface : string)
| IsState (iface : string) (st : SlaveState)
| SetOutput (iface : string) (position : nat) (start stop : Z) (data : list byte)
| SendProcessdata (iface : string)
| ReceiveProcessdata (iface : string) (timeout : Z)
| Sleep (milliseconds : Z).

(** Bus I/O: every call into pysoem that configures the bus, writes the
    output image, exchanges process data or closes the master.  The query
    of the master's state is how the master "reports" its state and is
    not counted, nor is a pause. *)
Definition is_bus_io (e : Effect) : bool :=
  match e with
  | SetOutput _ _ _ _ _ | SendProcessdata _ | ReceiveProcessdata _ _
  | MasterClose _ | MasterOpen _ | ConfigInit _ | ConfigDc _ | ConfigMap _
  | StateCheck _ _ _ | ReadState _ | SetSlaveState _ _ _ | SlaveStateCheck _ _ => true
  | IsState _ _ | Sleep _ => false
  end.

(** The lines [initialize_ethercat_device_logic] prints, by the line of
    app.py that prints them. *)
Inductive Diag : Type :=
| InitAttempt (have_master have_slave : bool)   (* 34-35 *)
| ClosingExisting                               (* 40 *)
| CloseExistingError (msg : string)             (* 43 *)
| SettleDelay                                   (* 50 *)
| NoInterfacesFound                             (* 58-59 *)
| InterfacesError (msg : string)                (* 62 *)
| TryingInterface (iface : string)              (* 67 *)
| MasterCreated (iface : string)                (* 72 *)
| NoSlaveOnInterface (iface : string)           (* 85-86 *)
| SlaveFound (iface : string)                   (* 90-91 *)
| GoingSafeOp                                   (* 95 *)
| InSafeOp                                      (* 101 *)
| DeviceOperational (iface : string)            (* 111-112 *)
| SoemErrorOn (iface : string) (msg : string)   (* 120 *)
| GenericErrorOn (iface : string) (msg : string) (* 131 *)
| NoWorkingInterfaceFound.                      (* 141 *)

(** ** The state of the program *)

(** Truth value of a global that holds an object or [None]. *)
Definition truthy {A : Type} (o : option A) : bool :=
  match o with Some _ => true | None => false end.

Record World : Type :=
  { master : option Master;
    adecua_slave : option Slave;
    ethercat_status_message : string;
    effects : list Effect;          (* oldest first *)
    console : list Diag;            (* oldest first *)
    log_file : list (list string)   (* rows of logs/controllo_log.csv *) }.

(** Lines 21-23. *)
Definition initial_world : World :=
  {| master := None;
     adecua_slave := None;
     ethercat_status_message := "EtherCAT: Inattivo (Attesa inizializzazione).";
     effects := [];
     console := [];
     log_file := [] |}.

Definition set_handles (m : option Master) (s : option Slave) (w : World) : World :=
  {| master := m;
     adecua_slave := s;
     ethercat_status_message := ethercat_status_message w;
     effects := effects w;
     console := console w;
     log_file := log_file w |}.

Definition set_message (msg : string) (w : World) : World :=
  {| master := master w;
     adecua_slave := adecua_slave w;
     ethercat_status_message := msg;
     effects := effects w;
     console := console w;
     log_file := log_file w |}.

Definition emit (e : Effect) (w : World) : World :=
  {| master := master w;
     adecua_slave := adecua_slave w;
     ethercat_status_message := ethercat_status_message w;
     effects := effects w ++ [e];
     console := console w;
     log_file := log_file w |}.

Definition print (d : Diag) (w : World) : World :=
  {| master := master w;
     adecua_slave := adecua_slave w;
     ethercat_status_message := ethercat_status_message w;
     effects := effects w;
     console := console w ++ [d];
     log_file := log_file w |}.

Definition write_row (row : list string) (w : World) : World :=
  {| master := master w;
     adecua_slave := adecua_slave w;
     ethercat_status_message := ethercat_status_message w;
     effects := effects w;
     console := console w;
     log_file := log_file w ++ [row] |}.

(** ** Code that may raise: a state and exception monad *)

Definition Try (S A : Type) : Type := S -> (exn + A) * S.

Definition ret {S A : Type} (a : A) : Try S A := fun s => (inr a, s).

Definition raise {S A : Type} (e : exn) : Try S A := fun s => (inl e, s).

Definition bind {S A B : Type} (m : Try S A) (k : A -> Try S B) : Try S B :=
  fun s =>
    match m s with
    | (inl e, s') => (inl e, s')
    | (inr a, s') => k a s'
    end.

Declare Scope try_scope.
Delimit Scope try_scope with try.
Notation "x <- m ;; k" := (bind m (fun x => k))
  (at level 61, m at next level, right associativity) : try_scope.
Notation "m ;; k" := (bind m (fun _ => k))
  (at level 61, right associativity) : try_scope.

(** ** Bring-up: [initialize_ethercat_device_logic] (lines 26-144) *)

(** The places of one pass of the loop where pysoem is called. *)
Inductive Step : Type :=
| AtOpen              (* 71: pysoem.Master(iface_name) *)
| AtConfigInit        (* 73 *)
| AtConfigDc          (* 74 *)
| AtCloseNoSlave      (* 87 *)
| AtConfigMap         (* 92 *)
| AtCheckSafeOp       (* 96 *)
| AtReadSafeOp        (* 97 *)
| AtSlaveCheckSafeOp  (* 100: slave.state_check() in the message *)
| AtCheckOp           (* 105 *)
| AtReadOp            (* 106 *)
| AtSlaveCheckOp.     (* 109 *)

(** What one network interface answers during one pass: which calls
    raise, the slaves [config_init] discovers, and the state the chosen
    slave shows where the program reads it. *)
Record IfaceSim : Type :=
  { iface_name : string;
    raises : Step -> option exn;
    slaves : list SlaveDesc;
    state_at : Step -> SlaveState }.

(** What the environment answers during one bring-up: the closing of a
    previous master, and [pysoem.master.interfaces]. *)
Record InitEnv : Type :=
  { close_existing : option exn;
    interfaces : exn + list IfaceSim }.

(** The local variables of one pass, with the world. *)
Record Frame : Type :=
  { current_master : option Master;
    current_adecua_slave : option Slave;
    world : World }.

Definition on_world (f : World -> World) : Try Frame unit :=
  fun fr =>
    (inr tt, {| current_master := current_master fr;
                current_adecua_slave := current_adecua_slave fr;
                world := f (world fr) |}).

(** A call into pysoem: recorded, then it returns or raises. *)
Definition call (e : Effect) (outcome : option exn) : Try Frame unit :=
  fun fr =>
    let fr' := {| current_master := current_master fr;
                  current_adecua_slave := current_adecua_slave fr;
                  world := emit e (world fr) |} in
    match outcome with
    | Some ex => (inl ex, fr')
    | None => (inr tt, fr')
    end.

Definition say (d : Diag) : Try Frame unit := on_world (print d).

Definition set_current_master (m : option Master) : Try Frame unit :=
  fun fr =>
    (inr tt, {| current_master := m;
                current_adecua_slave := current_adecua_slave fr;
                world := world fr |}).

Definition set_current_adecua_slave (s : option Slave) : Try Frame unit :=
  fun fr =>
    (inr tt, {| current_master := current_master fr;
                current_adecua_slave := s;
                world := world fr |}).

(** Lines 78-79. *)
Definition is_adecua (d : SlaveDesc) : bool :=
  (vendor_id d =? BECKHOFF_VENDOR_ID) && (product_code d =? BECKHOFF_AO_PRODUCT_CODE).

(** Lines 77-82: the first slave of the list with the expected identity. *)
Fixpoint find_adecua (iface : string) (position : nat) (l : list SlaveDesc) : option Slave :=
  match l with
  | [] => None
  | d :: rest =>
      if is_adecua d
      then Some {| slave_iface := iface; slave_position := position; slave_desc := d |}
      else find_adecua iface (S position) rest
  end.

(** Lines 98-100 and 107-109: the slave must show the state [want];
    otherwise an exception is raised whose message asks the slave for its
    state. *)
Definition expect_state (sim : IfaceSim) (s : Slave) (read check : Step)
    (want : SlaveState) (text : string) : Try Frame unit :=
  if SlaveState_eqb (state_at sim read) want then ret tt
  else
    (call (SlaveStateCheck (iface_name sim) (slave_position s)) (raises sim check) ;;
     raise (Exception (text ++ decimal (state_code (state_at sim check)) ++ ".")))%try.

(** Lines 71-117, the body of the [try]: [Some] is the pair the pass
    would commit, [None] the [continue] of line 88. *)
Definition try_interface (sim : IfaceSim) : Try Frame (option (Master * Slave)) :=
  let iface := iface_name sim in
  let m := {| master_iface := iface |} in
  (call (MasterOpen iface) (raises sim AtOpen) ;;
   set_current_master (Some m) ;;
   say (MasterCreated iface) ;;
   call (ConfigInit iface) (raises sim AtConfigInit) ;;
   call (ConfigDc iface) (raises sim AtConfigDc) ;;
   match find_adecua iface 0 (slaves sim) with
   | None =>
       say (NoSlaveOnInterface iface) ;;
       call (MasterClose iface) (raises sim AtCloseNoSlave) ;;
       ret None
   | Some s =>
       set_current_adecua_slave (Some s) ;;
       say (SlaveFound iface) ;;
       call (ConfigMap iface) (raises sim AtConfigMap) ;;
       say GoingSafeOp ;;
       call (StateCheck iface SAFEOP_STATE 2000) (raises sim AtCheckSafeOp) ;;
       call (ReadState iface) (raises sim AtReadSafeOp) ;;
       expect_state sim s AtReadSafeOp AtSlaveCheckSafeOp SAFEOP_STATE
         "Slave Beckhoff EL4001 non in SAFEOP_STATE. Stato attuale: " ;;
       say InSafeOp ;;
       call (SetSlaveState iface (slave_position s) OPERATIONAL_STATE) None ;;
       call (StateCheck iface OPERATIONAL_STATE 2000) (raises sim AtCheckOp) ;;
       call (ReadState iface) (raises sim AtReadOp) ;;
       expect_state sim s AtReadOp AtSlaveCheckOp OPERATIONAL_STATE
         "Impossibile portare Beckhoff EL4001 in OPERATIONAL_STATE. Stato attuale: " ;;
       say (DeviceOperational iface) ;;
       ret (Some (m, s))
   end)%try.

(** Lines 119-139: both handlers print, close the master of the pass when
    there is one (whatever the closing raises is dropped), and let the loop
    go on. *)
Definition handle_interface_error (sim : IfaceSim) (e : exn) (fr : Frame) : World :=
  let w :=
    match e with
    | SOEMError msg => print (SoemErrorOn (iface_name sim) msg) (world fr)
    | Exception msg => print (GenericErrorOn (iface_name sim) msg) (world fr)
    end in
  match current_master fr with
  | Some m => emit (MasterClose (master_iface m)) w
  | None => w
  end.

(** Lines 66-144: the loop over the interfaces and what follows it. *)
Fixpoint for_each_interface (l : list IfaceSim) (w : World) : bool * World :=
  match l with
  | [] => (false, set_handles None None (print NoWorkingInterfaceFound w))
  | sim :: rest =>
      let w := print (TryingInterface (iface_name sim)) w in
      let start := {| current_master := None; current_adecua_slave := None; world := w |} in
      match try_interface sim start with
      | (inr (Some (m, s)), fr) => (true, set_handles (Some m) (Some s) (world fr))
      | (inr None, fr) => for_each_interface rest (world fr)
      | (inl e, fr) => for_each_interface rest (handle_interface_error sim e fr)
      end
  end.

(** Lines 38-46: a master left from before is closed and both globals are
    reset. *)
Definition close_existing_master (env : InitEnv) (w : World) : World :=
  match master w with
  | Some m =>
      let w := print ClosingExisting w in
      let w := emit (MasterClose (master_iface m)) w in
      let w :=
        match close_existing env with
        | Some e => print (CloseExistingError (exn_message e)) w
        | None => w
        end in
      emit (Sleep 100) (set_handles None None w)
  | None => w
  end.

(** Lines 49-51. *)
Definition settle (w : World) : World :=
  match master w with
  | None => emit (Sleep 3000) (print SettleDelay w)
  | Some _ => w
  end.

Definition initialize_ethercat_device_logic (env : InitEnv) (w : World) : bool * World :=
  let w := print (InitAttempt (truthy (master w)) (truthy (adecua_slave w))) w in
  let w := close_existing_master env w in
  let w := settle w in
  match interfaces env with
  | inl e => (false, print (InterfacesError (exn_message e)) w)
  | inr [] => (false, print NoInterfacesFound w)
  | inr l => for_each_interface l w
  end.

(** ** Cyclic write: [send_to_device] (lines 147-203) *)

(** What the bus answers during one write. *)
Record SendEnv : Type :=
  { master_is_operational : bool;        (* 159: master.is_state(...) *)
    slave_state : SlaveState;            (* 160: adecua_slave.state *)
    on_set_output : option exn;          (* 173 *)
    on_send_processdata : option exn;    (* 175 *)
    on_receive_processdata : option exn }. (* 176 *)

(** A call into pysoem from the [try] of [send_to_device]. *)
Definition bus_call (e : Effect) (outcome : option exn) : Try World unit :=
  fun w =>
    match outcome with
    | Some ex => (inl ex, emit e w)
    | None => (inr tt, emit e w)
    end.

Definition lift {S A : Type} (r : exn + A) : Try S A :=
  match r with
  | inl e => raise e
  | inr a => ret a
  end.

(** Line 168. *)
Definition clamp_voltage (voltage : float) : float :=
  pymax 0%float (pymin voltage MAX_VOLTAGE).

(** Lines 169-170: the raw value of the analog output. *)
Definition raw_of_voltage (voltage : float) : exn + Z :=
  match int_of_float ((voltage / MAX_VOLTAGE) * 32767)%float with
  | inl e => inl e
  | inr raw_value => inr (Z.max 0 (Z.min raw_value 32767))
  end.

(** Line 171. *)
Definition raw_bytes (raw_value : Z) : exn + list byte :=
  match to_bytes_little_signed raw_value AO1_OUTPUT_SIZE with
  | Some b => inr b
  | None => inl (Exception "int too big to convert")
  end.

(** Lines 168-176, the body of the [try]; it returns the clamped voltage
    the status message prints. *)
Definition exchange (env : SendEnv) (m : Master) (s : Slave) (voltage : float)
    : Try World float :=
  let voltage := clamp_voltage voltage in
  (raw_value <- lift (raw_of_voltage voltage) ;;
   raw_value_bytes <- lift (raw_bytes raw_value) ;;
   bus_call (SetOutput (slave_iface s) (slave_position s) AO1_OUTPUT_OFFSET
               (AO1_OUTPUT_OFFSET + Z.of_nat AO1_OUTPUT_SIZE) raw_value_bytes)
            (on_set_output env) ;;
   bus_call (SendProcessdata (master_iface m)) (on_send_processdata env) ;;
   bus_call (ReceiveProcessdata (master_iface m) 1000) (on_receive_processdata env) ;;
   ret voltage)%try.

(** Lines 186-191 and 197-202: close the master (whatever the closing
    raises is dropped) and reset both globals. *)
Definition teardown (w : World) : World :=
  let w :=
    match master w with
    | Some m => emit (MasterClose (master_iface m)) w
    | None => w
    end in
  set_handles None None w.

Definition ok_nok (b : bool) : string := if b then "OK"%string else "NOK"%string.

Definition send_to_device (env : SendEnv) (voltage : float) (w : World) : bool * World :=
  match master w, adecua_slave w with
  | Some m, Some s =>
      let w := emit (IsState (master_iface m) OPERATIONAL_STATE) w in
      let master_operational := master_is_operational env in
      let slave_operational := SlaveState_eqb (slave_state env) OPERATIONAL_STATE in
      if negb master_operational || negb slave_operational then
        (false,
         set_message ("EtherCAT: Master: " ++ ok_nok master_operational
                      ++ ", Slave: " ++ ok_nok slave_operational ++ ". Riprovo.") w)
      else
        match exchange env m s voltage w with
        | (inr voltage, w) =>
            (true,
             set_message ("EtherCAT: OK. Ultima tensione: " ++ format_2f voltage ++ " V.") w)
        | (inl (SOEMError msg), w) =>
            (false, teardown (set_message ("EtherCAT: Errore SOEM I/O! " ++ msg) w))
        | (inl (Exception msg), w) =>
            (false, teardown (set_message ("EtherCAT: Errore generico I/O! " ++ msg) w))
        end
  | _, _ =>
      (false,
       set_message "EtherCAT: Master/Slave non inizializzato. Tentativo riconnessione..." w)
  end.

(** ** Log: [log_action] (lines 214-220) *)

(** [timestamp] is what [datetime.datetime.now().isoformat()] returns. *)
Definition log_action (timestamp : string) (kmh voltage : float) (w : World) : World :=
  write_row [timestamp; format_2f kmh; format_2f voltage] w.

(** ** Command callback: [handle_fan_control] (lines 267-296) *)

(** The speed is a float.  (Dash also delivers integers, which the
    arithmetic of [calculate_voltage] converts to the same floats, and
    [None] for an empty field, on which the callback raises: that input is
    outside the model.) *)
Record FanEnv : Type :=
  { triggered_id : string;   (* ctx.triggered[0]['prop_id'] *)
    kmh_value : float;       (* State('input-kmh', 'value') *)
    fan_send : SendEnv;
    fan_timestamp : string }.

(** The non-ASCII characters of the messages, as their UTF-8 bytes. *)
Definition utf8 (codes : list nat) : string :=
  string_of_list_ascii (map ascii_of_nat codes).

Definition stop_sign : string := utf8 [240; 159; 155; 145]%nat.
Definition plug : string := utf8 [240; 159; 148; 140]%nat.
Definition check_mark : string := utf8 [226; 156; 133]%nat.
Definition a_grave : string := utf8 [195; 160]%nat.

Definition handle_fan_control (env : FanEnv) (w : World)
    : (string * string * string) * World :=
  let '(kmh_to_send, voltage_to_send, output_kmh_msg, output_volt_msg) :=
    if String.eqb (triggered_id env) "stop-button.n_clicks" then
      (0%float, 0%float,
       (stop_sign ++ " Ventola fermata")%string,
       (plug ++ " Tensione inviata: 0.00 V")%string)
    else
      let kmh_to_send := kmh_value env in
      let voltage_to_send := calculate_voltage (kmh_value env) in
      (kmh_to_send, voltage_to_send,
       (check_mark ++ " Velocit" ++ a_grave ++ " impostata: "
          ++ format_2f kmh_to_send ++ " km/h")%string,
       (plug ++ " Tensione da inviare: " ++ format_2f voltage_to_send ++ " V")%string) in
  let '(send_success, w) := send_to_device (fan_send env) voltage_to_send w in
  let output_volt_msg :=
    if send_success then output_volt_msg
    else (output_volt_msg ++ " (Invio EtherCAT fallito!)")%string in
  let w := log_action (fan_timestamp env) kmh_to_send voltage_to_send w in
  ((output_kmh_msg, output_volt_msg, ethercat_status_message w), w).

(** ** Manual reconnection: [reconnect_ethercat_manual] (lines 305-320) *)

(** [None] is the [PreventUpdate] raised when the button was never
    clicked. *)
Definition reconnect_ethercat_manual (n_clicks : option Z) (env : InitEnv) (w : World)
    : option (string * World) :=
  match n_clicks with
  | None | Some 0 => None
  | Some _ =>
      let '(ok, w) := initialize_ethercat_device_logic env w in
      let w :=
        if ok then set_message "EtherCAT: Riconnesso e in OPERATIONAL." w
        else set_message "EtherCAT: ERRORE riconnessione manuale!" w in
      Some (ethercat_status_message w, w)
  end.

(** ** Supervisor: [check_ethercat_status] (lines 329-355) *)

Record CheckEnv : Type :=
  { check_master_is_operational : bool;   (* 335: master.is_state(...) *)
    check_slave_state : SlaveState;       (* 336: adecua_slave.state *)
    check_init : InitEnv;
    check_clock : string }.               (* 345: time.strftime('%H:%M:%S') *)

Definition connected_message : string := "EtherCAT: Connesso e in OPERATIONAL.".

(** Lines 335-336: the conjunction is evaluated left to right and stops
    at its first false operand. *)
Definition current_state_ok (env : CheckEnv) (w : World) : bool * World :=
  match master w with
  | None => (false, w)
  | Some m =>
      let w := emit (IsState (master_iface m) OPERATIONAL_STATE) w in
      if check_master_is_operational env then
        match adecua_slave w with
        | None => (false, w)
        | Some _ => (SlaveState_eqb (check_slave_state env) OPERATIONAL_STATE, w)
        end
      else (false, w)
  end.

Definition check_ethercat_status (env : CheckEnv) (w : World) : string * World :=
  let '(state_ok, w) := current_state_ok env w in
  let w :=
    if negb state_ok then
      let '(ok, w) := initialize_ethercat_device_logic (check_init env) w in
      if ok then set_message connected_message w
      else set_message ("EtherCAT: Disconnesso o Errore durante riconnessione! ("
                        ++ check_clock env ++ ")") w
    else if negb (str_in "Connesso e in OPERATIONAL" (ethercat_status_message w))
         then set_message connected_message w
         else w in
  (ethercat_status_message w, w).

(** ** Runs of the program *)

(** One operation of the program, run to its end: the bring-up, the
    write and the three callbacks. *)
Inductive step : World -> World -> Prop :=
| step_init (env : InitEnv) (w : World) :
    step w (snd (initialize_ethercat_device_logic env w))
| step_send (env : SendEnv) (voltage : float) (w : World) :
    step w (snd (send_to_device env voltage w))
| step_fan (env : FanEnv) (w : World) :
    step w (snd (handle_fan_control env w))
| step_reconnect (n : option Z) (env : InitEnv) (w w' : World) (msg : string) :
    reconnect_ethercat_manual n env w = Some (msg, w') ->
    step w w'
| step_check (env : CheckEnv) (w : World) :
    step w (snd (check_ethercat_status env w)).

(** The worlds the program can be in between two operations. *)
Inductive reachable : World -> Prop :=
| reachable_initial : reachable initial_world
| reachable_step (w w' : World) : reachable w -> step w w' -> reachable w'.

(** ** The words of the specification *)

(** An interface works when every call of the bring-up succeeds on it, the
    expected device is among its slaves, and the device shows SAFE_OP,
    then OPERATIONAL, where the program reads its state. *)
Definition succeeds (sim : IfaceSim) (s : Step) : bool :=
  match raises sim s with None => true | Some _ => false end.

Definition iface_works (sim : IfaceSim) : bool :=
  forallb (succeeds sim)
    [AtOpen; AtConfigInit; AtConfigDc; AtConfigMap;
     AtCheckSafeOp; AtReadSafeOp; AtCheckOp; AtReadOp]
  && existsb is_adecua (slaves sim)
  && SlaveState_eqb (state_at sim AtReadSafeOp) SAFEOP_STATE
  && SlaveState_eqb (state_at sim AtReadOp) OPERATIONAL_STATE.

(** The interfaces a master was opened on, in order. *)
Fixpoint opened_interfaces (l : list Effect) : list string :=
  match l with
  | [] => []
  | MasterOpen iface :: rest => iface :: opened_interfaces rest
  | _ :: rest => opened_interfaces rest
  end.

(** Both handles exist and both report OPERATIONAL. *)
Definition link_ready (env : SendEnv) (w : World) : bool :=
  truthy (master w) && truthy (adecua_slave w)
  && master_is_operational env
  && SlaveState_eqb (slave_state env) OPERATIONAL_STATE.

(** The first error the bus raises during the write and the exchange. *)
Definition exchange_error (env : SendEnv) : option exn :=
  match on_set_output env with
  | Some e => Some e
  | None =>
      match on_send_processdata env with
      | Some e => Some e
      | None => on_receive_processdata env
      end
  end.

(** The link is healthy for the supervisor. *)
Definition healthy (env : CheckEnv) (w : World) : bool :=
  truthy (master w) && check_master_is_operational env
  && truthy (adecua_slave w)
  && SlaveState_eqb (check_slave_state env) OPERATIONAL_STATE.

(** What the supervisor does on an unhealthy link: one bring-up, then the
    status says connected, or disconnected with the time of the day. *)
Definition recover (env : CheckEnv) (w : World) : string * World :=
  let '(ok, w) := initialize_ethercat_device_logic (check_init env) w in
  let w :=
    if ok then set_message connected_message w
    else set_message ("EtherCAT: Disconnesso o Errore durante riconnessione! ("
                      ++ check_clock env ++ ")") w in
  (ethercat_status_message w, w).

(** The master handle is absent exactly when the slave handle is. *)
Definition handles_paired (w : World) : Prop :=
  truthy (master w) = truthy (adecua_slave w).

(** Everything of the world but the effects and the console. *)
Definition same_globals (w w' : World) : Prop :=
  master w' = master w
  /\ adecua_slave w' = adecua_slave w
  /\ ethercat_status_message w' = ethercat_status_message w
  /\ log_file w' = log_file w.

(** ** Simulated environments, for the examples *)

(** An adapter with no EtherCAT device behind it. *)
Definition sim_no_device (name : string) : IfaceSim :=
  {| iface_name := name;
     raises := fun _ => None;
     slaves := [];
     state_at := fun _ => INIT_STATE |}.

(** An adapter wired to an EL4001 that follows every request. *)
Definition sim_el4001 (name : string) : IfaceSim :=
  {| iface_name := name;
     raises := fun _ => None;
     slaves := [{| vendor_id := 0x2; product_code := 0x017f017 |}];
     state_at := fun s =>
                   match s with
                   | AtReadSafeOp | AtSlaveCheckSafeOp => SAFEOP_STATE
                   | _ => OPERATIONAL_STATE
                   end |}.

(** An adapter whose EL4001 stays in SAFE_OP. *)
Definition sim_stuck (name : string) : IfaceSim :=
  {| iface_name := name;
     raises := fun _ => None;
     slaves := [{| vendor_id := 0x2; product_code := 0x017f017 |}];
     state_at := fun _ => SAFEOP_STATE |}.

Definition env_two_adapters : InitEnv :=
  {| close_existing := None;
     interfaces := inr [sim_no_device "wifi0"; sim_el4001 "eth0"] |}.

(** A bus on which everything succeeds. *)
Definition bus_ok : SendEnv :=
  {| master_is_operational := true;
     slave_state := OPERATIONAL_STATE;
     on_set_output := None;
     on_send_processdata := None;
     on_receive_processdata := None |}.

(** A bus that loses the frame on receive. *)
Definition bus_receive_fails : SendEnv :=
  {| master_is_operational := true;
     slave_state := OPERATIONAL_STATE;
     on_set_output := None;
     on_send_processdata := None;
     on_receive_processdata := Some (SOEMError "receive timeout") |}.

(** A supervisor tick on a link that reports OPERATIONAL. *)
Definition tick_healthy : CheckEnv :=
  {| check_master_is_operational := true;
     check_slave_state := OPERATIONAL_STATE;
     check_init := env_two_adapters;
     check_clock := "12:00:00" |}.

(** The operator asks for 12 km/h. *)
Definition apply_12 (bus : SendEnv) (timestamp : string) : FanEnv :=
  {| triggered_id := "apply-button.n_clicks";
     kmh_value := 12%float;
     fan_send := bus;
     fan_timestamp := timestamp |}.

(** The world after a bring-up that found the device on the second
    adapter. *)
Definition world_connected : World :=
  snd (initialize_ethercat_device_logic env_two_adapters initial_world).

(** ** Further words for the facts of Part II *)

(** The output write of line 173 for the raw value [raw]: its two bytes,
    low byte first, at bytes 0..2 of the image of the slave. *)
Definition output_write (s : Slave) (raw : Z) : Effect :=
  SetOutput (slave_iface s) (slave_position s) 0 2
    [byte_of_Z (raw mod 256); byte_of_Z (raw / 256)].

(** An interface on which [pysoem.Master()] and [master.open] (lines 67-69)
    do not raise. *)
Definition opens (sim : IfaceSim) : Prop := raises sim AtOpen = None.

(** The calls into pysoem of a pass that commits (lines 67-113), for the
    interface [name] and the device at position [pos]. *)
Definition bring_up_calls (name : string) (pos : nat) : list Effect :=
  [MasterOpen name; ConfigInit name; ConfigDc name; ConfigMap name;
   StateCheck name SAFEOP_STATE 2000; ReadState name;
   SetSlaveState name pos OPERATIONAL_STATE;
   StateCheck name OPERATIONAL_STATE 2000; ReadState name].

(** What the bring-up does before it lists the interfaces (lines 38-51):
    an existing master is closed, then the two pauses. *)
Definition prelude_calls (w : World) : list Effect :=
  match master w with
  | Some m => [MasterClose (master_iface m); Sleep 100; Sleep 3000]
  | None => [Sleep 3000]
  end.


(** The two status messages of the supervisor after a bring-up. *)
Definition disconnected_message (clock : string) : string :=
  "EtherCAT: Disconnesso o Errore durante riconnessione! (" ++ clock ++ ")".

(** The calls into pysoem of one write on a ready link (lines 159-176 and
    the handlers): the state query, the output write, then the exchange;
    a call that raises is the last one before the master is closed. *)
Definition write_calls (env : SendEnv) (m : Master) (s : Slave) (raw : Z) : list Effect :=
  IsState (master_iface m) OPERATIONAL_STATE
  :: output_write s raw
  :: match on_set_output env with
     | Some _ => [MasterClose (master_iface m)]
     | None =>
         SendProcessdata (master_iface m)
         :: match on_send_processdata env with
            | Some _ => [MasterClose (master_iface m)]
            | None =>
                ReceiveProcessdata (master_iface m) 1000
                :: match on_receive_processdata env with
                   | Some _ => [MasterClose (master_iface m)]
                   | None => []
                   end
            end
     end.

(** ** History graph: [update_graph] (lines 362-387)

    The log file is read as [csv.reader] yields it, a list of rows of
    fields; a file that does not exist reads as no row.  Python's
    [float] on a string is a parameter: [None] stands for its
    [ValueError].  Of the figure returned, the model keeps the three
    series: [timestamps] is the x axis of both traces, [kmhs] and [volts]
    are their y values. *)

Record Series : Type :=
  { timestamps : list string;
    kmhs : list float;
    volts : list float }.

Section GraphReader.

Variable float_of_string : string -> option float.

(** The body of the loop (lines 372-378).  The three appends run in order
    inside one [try]: an [IndexError] on a missing field or a [ValueError]
    of [float] skips the rest of the row and keeps what was appended. *)
Definition read_row (acc : Series) (row : list string) : Series :=
  match nth_error row 0 with
  | None => acc
  | Some t =>
      let acc := {| timestamps := timestamps acc ++ [t];
                    kmhs := kmhs acc; volts := volts acc |} in
      match option_map float_of_string (nth_error row 1) with
      | None | Some None => acc
      | Some (Some k) =>
          let acc := {| timestamps := timestamps acc;
                        kmhs := kmhs acc ++ [k]; volts := volts acc |} in
          match option_map float_of_string (nth_error row 2) with
          | None | Some None => acc
          | Some (Some v) =>
              {| timestamps := timestamps acc;
                 kmhs := kmhs acc; volts := volts acc ++ [v] |}
          end
      end
  end.

Definition update_graph (w : World) : Series :=
  fold_left read_row (log_file w) {| timestamps := []; kmhs := []; volts := [] |}.

(** A row with a first field whose second field is missing or is not a
    number for [float]. *)
Definition bad_speed (row : list string) : bool :=
  match row with
  | [] => false
  | _ :: [] => true
  | _ :: f :: _ => negb (truthy (float_of_string f))
  end.

(** A row whose second and third fields exist and are numbers for
    [float]. *)
Definition plottable (row : list string) : bool :=
  match row with
  | _ :: f1 :: f2 :: _ => truthy (float_of_string f1) && truthy (float_of_string f2)
  | _ => false
  end.

End GraphReader.

(** A [float] for the examples: it reads the numbers below and raises
    [ValueError] on every other string. *)
Definition float_sample (s : string) : option float :=
  if String.eqb s "12.00" then Some 12%float
  else if String.eqb s "10.00" then Some 10%float
  else if String.eqb s "0.00" then Some 0%float
  else if String.eqb s "0" then Some 0%float
  else None.

(** The world after the operator asked for 12 km/h on the connected
    link. *)
Definition world_commanded : World :=
  snd (handle_fan_control (apply_12 bus_ok "2024-05-01T10:00:00") world_connected).

(** A log whose second row lost its speed. *)
Definition log_damaged : list (list string) :=
  [["2024-05-01T10:00:00"; "12.00"; "10.00"];
   ["2024-05-01T10:00:05"];
   ["2024-05-01T10:00:10"; "0.00"; "0.00"]]%string.

Definition with_log (rows : list (list string)) (w : World) : World :=
  {| master := master w;
     adecua_slave := adecua_slave w;
     ethercat_status_message := ethercat_status_message w;
     effects := effects w;
     console := console w;
     log_file := rows |}.

(** ** The version that writes a file
    ([src/ventola_webapp_file_output/ventola_webapp_file/app.py])

    This version has no bus: the voltage goes to the text file
    [valore_tensione.txt], which another program reads, and to the same
    log. *)

Module FileApp.

Definition MAX_KMH : float := 10%float.
Definition MAX_VOLTAGE : float := 12%float.

(** The two files the program writes; [None] is a file that does not
    exist yet. *)
Record Disk : Type :=
  { valore_tensione : option string;
    controllo_log : list (list string) }.

Definition empty_disk : Disk := {| valore_tensione := None; controllo_log := [] |}.

(** Lines 14-17: the file is opened with mode [w], so it holds the last
    value only. *)
Definition send_to_device (voltage : float) (d : Disk) : Disk :=
  {| valore_tensione := Some (format_2f voltage);
     controllo_log := controllo_log d |}.

(** Lines 20-25. *)
Definition log_action (timestamp : string) (kmh voltage : float) (d : Disk) : Disk :=
  {| valore_tensione := valore_tensione d;
     controllo_log := controllo_log d ++ [[timestamp; format_2f kmh; format_2f voltage]] |}.

(** Lines 28-31. *)
Definition calculate_voltage (kmh : float) : float :=
  let kmh := pymax 0%float (pymin kmh MAX_KMH) in
  let voltage := ((kmh / MAX_KMH) * MAX_VOLTAGE)%float in
  voltage.

(** Lines 62-72.  [triggered] is the [prop_id] of [ctx.triggered[0]], or
    [None] when [ctx.triggered] is empty. *)
Definition update_output (triggered : option string) (kmh_value : float)
    (timestamp : string) (d : Disk) : (string * string) * Disk :=
  if match triggered with
     | Some prop_id => String.eqb prop_id "stop-button.n_clicks"
     | None => false
     end
  then
    let d := send_to_device 0%float d in
    let d := log_action timestamp 0%float 0%float d in
    (((stop_sign ++ " Ventola fermata")%string,
      (plug ++ " Tensione inviata: 0.00 V")%string), d)
  else
    let voltage := calculate_voltage kmh_value in
    let d := send_to_device voltage d in
    let d := log_action timestamp kmh_value voltage d in
    (((check_mark ++ " Velocit" ++ a_grave ++ " impostata: "
         ++ format_2f kmh_value ++ " km/h")%string,
      (plug ++ " Tensione inviata: " ++ format_2f voltage ++ " V")%string), d).

(** The exceptions of the reading loop, which this version does not
    catch. *)
Inductive ReadError : Type := IndexError | ValueError.

(** Lines 84-87: one row. *)
Definition read_row (float_of_string : string -> option float)
    (acc : Series) (row : list string) : ReadError + Series :=
  match nth_error row 0 with
  | None => inl IndexError
  | Some t =>
      match nth_error row 1 with
      | None => inl IndexError
      | Some f1 =>
          match float_of_string f1 with
          | None => inl ValueError
          | Some k =>
              match nth_error row 2 with
              | None => inl IndexError
              | Some f2 =>
                  match float_of_string f2 with
                  | None => inl ValueError
                  | Some v =>
                      inr {| timestamps := timestamps acc ++ [t];
                             kmhs := kmhs acc ++ [k];
                             volts := volts acc ++ [v] |}
                  end
              end
          end
      end
  end.

Fixpoint read_rows (float_of_string : string -> option float)
    (acc : Series) (rows : list (list string)) : ReadError + Series :=
  match rows with
  | [] => inr acc
  | row :: rest =>
      match read_row float_of_string acc row with
      | inl e => inl e
      | inr acc => read_rows float_of_string acc rest
      end
  end.

(** Lines 78-99. *)
Definition update_graph (float_of_string : string -> option float) (d : Disk)
    : ReadError + Series :=
  read_rows float_of_string {| timestamps := []; kmhs := []; volts := [] |}
    (controllo_log d).

(** The disk after some calls of the callback. *)
Inductive written : Disk -> Prop :=
| written_empty : written empty_disk
| written_step (triggered : option string) (kmh_value : float) (timestamp : string)
    (d : Disk) :
    written d -> written (snd (update_output triggered kmh_value timestamp d)).

(** The disk after one move of the slider to 7.5 km/h. *)
Definition disk_sample : Disk :=
  snd (update_output (Some "velocita-slider.value"%string) 7.5%float
         "2024-05-01T10:00:00" empty_disk).

(** The voltage field of the last row of the log. *)
Definition last_voltage (rows : list (list string)) : option string :=
  match rev rows with
  | [] => None
  | row :: _ => nth_error row 2
  end.

End FileApp.

(** ** The simulator ([src/Simulazione_Ventola/Simulazione_Ventola.py]) *)

Module Simulazione.

Definition max_kmh : float := 10%float.
Definition max_voltage : float := 12%float.

(** Lines 9-12. *)
Definition calculate_voltage_from_kmh (kmh : float) : float * float :=
  let kmh := pymax 0%float (pymin kmh max_kmh) in
  let voltage := ((kmh / max_kmh) * max_voltage)%float in
  (voltage, kmh).

(** The entry and the three labels of the window. *)
Record Gui : Type :=
  { speed_entry : string;
    current_speed_label : string;
    current_voltage_label : string;
    result_label : string }.

Definition info_sign : string := utf8 [226; 132; 185; 239; 184; 143]%nat.
Definition warning_sign : string := utf8 [226; 154; 160]%nat.

Definition limited_notice : string :=
  (info_sign ++ " Velocit" ++ a_grave ++ " limitata a 10 km/h.")%string.

(** Lines 14-28; [float_of_string] is Python's [float], [None] its
    [ValueError]. *)
Definition update_display (float_of_string : string -> option float) (g : Gui) : Gui :=
  match float_of_string (speed_entry g) with
  | Some kmh_input =>
      let '(voltage, kmh) := calculate_voltage_from_kmh kmh_input in
      {| speed_entry := speed_entry g;
         current_speed_label :=
           (check_mark ++ " Velocit" ++ a_grave ++ " impostata: "
              ++ format_2f kmh ++ " km/h")%string;
         current_voltage_label :=
           (plug ++ " Tensione simulata: " ++ format_2f voltage ++ " V")%string;
         result_label :=
           if (max_kmh <? kmh_input)%float then limited_notice else EmptyString |}
  | None =>
      {| speed_entry := speed_entry g;
         current_speed_label := EmptyString;
         current_voltage_label := EmptyString;
         result_label :=
           (warning_sign ++ " Inserisci un numero valido per la velocit" ++ a_grave ++ ".")%string |}
  end.

(** Lines 30-35. *)
Definition stop_fan (g : Gui) : Gui :=
  {| speed_entry := "0";
     current_speed_label := (stop_sign ++ " Ventola fermata (0 km/h)")%string;
     current_voltage_label := (plug ++ " Tensione simulata: 0.00 V")%string;
     result_label := EmptyString |}.

(** A window in which the operator typed 7. *)
Definition gui_sample : Gui :=
  {| speed_entry := "7";
     current_speed_label := EmptyString;
     current_voltage_label := EmptyString;
     result_label := EmptyString |}.

End Simulazione.


(** * Part II: facts *)

(** ** Binary64: rounding is monotone

    [SpecFloat] computes a product or a quotient of two floats as an
    integer mantissa with an exponent and a location, then rounds it with
    [binary_round_aux].  This section gives that rounding a closed form
    ([binary_round_aux_locate]), shows that it keeps the order of the exact
    values ([round_frac_mono_exp]), and concludes that division and
    multiplication by a positive float are monotone ([div_mono],
    [mul_mono]). *)

Module Binary64Facts.

Import Binary64.

(** [lia] does not see through [2 ^ e] with a symbolic exponent: the
    powers are named, with their sign, before it runs. *)
Ltac pow_name a b :=
  let x := fresh "pw" in
  first [ assert (0 < Z.pow a b) by (apply Z.pow_pos_nonneg; lia)
        | assert (0 <= Z.pow a b) by (apply Z.pow_nonneg; lia) ];
  set (x := Z.pow a b) in *; clearbody x.

Ltac pow_abs :=
  repeat match goal with
  | |- context [Z.pow ?a ?b] => pow_name a b
  | H : context [Z.pow ?a ?b] |- _ => pow_name a b
  end.

Ltac plia := pow_abs; lia.

Lemma digits2_pos_bounds (p : positive) :
  2 ^ (Zpos (digits2_pos p) - 1) <= Zpos p < 2 ^ Zpos (digits2_pos p).
Proof.
  induction p as [p IH | p IH | ]; cbn [digits2_pos].
  - rewrite Pos2Z.inj_succ, (Pos2Z.inj_xI p).
    replace (Z.succ (Zpos (digits2_pos p)) - 1) with (Z.succ (Zpos (digits2_pos p) - 1)) by lia.
    rewrite !Z.pow_succ_r by lia. pow_abs. lia.
  - rewrite Pos2Z.inj_succ, (Pos2Z.inj_xO p).
    replace (Z.succ (Zpos (digits2_pos p)) - 1) with (Z.succ (Zpos (digits2_pos p) - 1)) by lia.
    rewrite !Z.pow_succ_r by lia. pow_abs. lia.
  - cbn. lia.
Qed.

Lemma Zdigits2_bounds (n : Z) :
  0 < n -> 2 ^ (Zdigits2 n - 1) <= n < 2 ^ Zdigits2 n.
Proof.
  destruct n as [ | p | p]; try lia. intros _. apply digits2_pos_bounds.
Qed.

Lemma Zdigits2_pos (n : Z) : 0 < n -> 0 < Zdigits2 n.
Proof. destruct n; cbn; lia. Qed.

Lemma Zdigits2_nonneg (n : Z) : 0 <= Zdigits2 n.
Proof. destruct n; cbn; lia. Qed.

Lemma pow2_lt_inv (a b : Z) : 0 <= b -> 2 ^ a < 2 ^ b -> a < b.
Proof.
  intros Hb H. destruct (Z_lt_le_dec a b) as [ | Hle]; [assumption | ].
  assert (2 ^ b <= 2 ^ a) by (apply Z.pow_le_mono_r; lia). lia.
Qed.

Lemma Zdigits2_unique (n d : Z) :
  0 < n -> 2 ^ (d - 1) <= n < 2 ^ d -> Zdigits2 n = d.
Proof.
  intros Hn [Hlo Hhi].
  pose proof (Zdigits2_bounds n Hn) as [Hlo' Hhi'].
  pose proof (Zdigits2_pos n Hn) as Hd.
  assert (0 < d).
  { destruct (Z_lt_le_dec 0 d) as [ | Hd0]; [assumption | exfalso].
    destruct (Z.eq_dec d 0) as [-> | Hnz].
    - change (2 ^ 0) with 1 in Hhi. lia.
    - rewrite (Z.pow_neg_r 2 d) in Hhi by lia. lia. }
  assert (d - 1 < Zdigits2 n) by (apply pow2_lt_inv; plia).
  assert (Zdigits2 n - 1 < d) by (apply pow2_lt_inv; plia).
  lia.
Qed.

Lemma Zdigits2_le (n d : Z) : 0 <= d -> 0 <= n < 2 ^ d -> Zdigits2 n <= d.
Proof.
  intros Hd [Hn Hlt]. destruct (Z.eq_dec n 0) as [-> | Hnz]; [cbn; lia | ].
  pose proof (Zdigits2_bounds n ltac:(lia)) as [Hlo _].
  assert (Zdigits2 n - 1 < d) by (apply pow2_lt_inv; plia). lia.
Qed.

Lemma Zdigits2_ge (n d : Z) : 2 ^ (d - 1) <= n -> 0 < n -> d <= Zdigits2 n.
Proof.
  intros Hlo Hn. pose proof (Zdigits2_bounds n Hn) as [_ Hhi].
  pose proof (Zdigits2_pos n Hn).
  assert (d - 1 < Zdigits2 n) by (apply pow2_lt_inv; plia). lia.
Qed.

Lemma Zdigits2_mono (a b : Z) : 0 <= a <= b -> Zdigits2 a <= Zdigits2 b.
Proof.
  intros [Ha Hab]. destruct (Z.eq_dec a 0) as [-> | Hnz].
  - apply Zdigits2_nonneg.
  - apply Zdigits2_ge; [ | lia].
    pose proof (Zdigits2_bounds a ltac:(lia)). plia.
Qed.

(** *** Position of a fraction between two integers *)

(** Decides the integer tests of the goal, then leaves the arithmetic to
    [lia]. *)
Ltac decide_test t :=
  lazymatch t with
  | (?x =? ?y) => destruct (Z.eqb_spec x y)
  | (?x <? ?y) => destruct (Z.ltb_spec x y)
  | (?x <=? ?y) => destruct (Z.leb_spec x y)
  end.

Ltac bool_lia :=
  repeat match goal with
         | |- context [Z.eqb ?x ?y] => decide_test (x =? y)
         | |- context [Z.ltb ?x ?y] => decide_test (x <? y)
         | |- context [Z.leb ?x ?y] => decide_test (x <=? y)
         end;
  cbn [negb andb orb]; try reflexivity; try lia.

Lemma divmod_double (N D : Z) :
  0 < D ->
  N / (2 * D) = (N / D) / 2 /\ N mod (2 * D) = ((N / D) mod 2) * D + N mod D.
Proof.
  intros HD.
  pose proof (Z.div_mod N D ltac:(lia)) as E.
  pose proof (Z.mod_pos_bound N D HD) as B.
  pose proof (Z.div_mod (N / D) 2 ltac:(lia)) as E2.
  pose proof (Z.mod_pos_bound (N / D) 2 ltac:(lia)) as B2.
  assert (H : N = (2 * D) * ((N / D) / 2) + (((N / D) mod 2) * D + N mod D)) by nia.
  assert (Hb : 0 <= ((N / D) mod 2) * D + N mod D < 2 * D) by nia.
  split.
  - symmetry. apply (Z.div_unique_pos N (2 * D) _ _ Hb H).
  - symmetry. apply (Z.mod_unique_pos N (2 * D) _ _ Hb H).
Qed.

Lemma shr_1_locate (N D : Z) :
  0 <= N -> 0 < D -> shr_1 (locate N D) = locate N (2 * D).
Proof.
  intros HN HD. unfold locate.
  destruct (divmod_double N D HD) as [Eq Er]. rewrite Eq, Er.
  pose proof (Z.mod_pos_bound N D HD) as B.
  pose proof (Z.div_pos N D HN HD) as Q.
  set (r := N mod D) in *. clearbody r.
  destruct (N / D) as [ | [p | p | ] | p]; try lia; cbn [shr_1].
  - change (0 / 2) with 0. change (0 mod 2) with 0. f_equal; bool_lia.
  - rewrite (Pos2Z.inj_xI p).
    replace ((2 * Z.pos p + 1) / 2) with (Z.pos p) by (apply Z.div_unique with 1; lia).
    replace ((2 * Z.pos p + 1) mod 2) with 1 by (apply Z.mod_unique with (Z.pos p); lia).
    f_equal; bool_lia.
  - rewrite (Pos2Z.inj_xO p).
    replace ((2 * Z.pos p) / 2) with (Z.pos p) by (apply Z.div_unique with 0; lia).
    replace ((2 * Z.pos p) mod 2) with 0 by (apply Z.mod_unique with (Z.pos p); lia).
    f_equal; bool_lia.
  - change (1 / 2) with 0. change (1 mod 2) with 1. f_equal; bool_lia.
Qed.

Lemma iter_pos_shr_1_locate (p : positive) (N D : Z) :
  0 <= N -> 0 < D ->
  iter_pos shr_1 p (locate N D) = locate N (D * 2 ^ Zpos p).
Proof.
  intros HN. revert D.
  induction p as [p IH | p IH | ]; intros D HD; cbn [iter_pos].
  - rewrite shr_1_locate, IH, IH by plia. f_equal.
    rewrite (Pos2Z.inj_xI p).
    replace (2 * Z.pos p + 1) with (1 + Z.pos p + Z.pos p) by lia.
    rewrite !Z.pow_add_r by lia. change (2 ^ 1) with 2. ring.
  - rewrite IH, IH by plia. f_equal.
    rewrite (Pos2Z.inj_xO p).
    replace (2 * Z.pos p) with (Z.pos p + Z.pos p) by lia.
    rewrite !Z.pow_add_r by lia. ring.
  - rewrite shr_1_locate by assumption. f_equal. change (2 ^ 1) with 2. ring.
Qed.

Lemma shr_locate (N D e n : Z) :
  0 <= N -> 0 < D -> 0 <= n ->
  shr (locate N D) e n = (locate N (D * 2 ^ n), e + n).
Proof.
  intros HN HD Hn. destruct n as [ | p | p]; try lia; cbn [shr].
  - change (2 ^ 0) with 1. rewrite Z.mul_1_r, Z.add_0_r. reflexivity.
  - rewrite iter_pos_shr_1_locate by assumption. reflexivity.
Qed.

(** The location the division keeps of its remainder. *)
Lemma new_location_locate (N D : Z) :
  0 < D ->
  shr_record_of_loc (N / D) (new_location D (N mod D)) = locate N D.
Proof.
  intros HD. unfold locate.
  pose proof (Z.mod_pos_bound N D HD) as B.
  set (r := N mod D) in *. clearbody r.
  unfold new_location, new_location_even, new_location_odd.
  destruct (Z.even D) eqn:Ev.
  - destruct (Z.eqb_spec r 0) as [-> | Hr].
    + cbn [shr_record_of_loc]. f_equal; bool_lia.
    + destruct (Z.compare_spec (2 * r) D); cbn [shr_record_of_loc]; f_equal; bool_lia.
  - assert (Ho : Z.odd D = true) by (rewrite <- Z.negb_even, Ev; reflexivity).
    apply Z.odd_spec in Ho. destruct Ho as [k Hk].
    destruct (Z.eqb_spec r 0) as [-> | Hr].
    + cbn [shr_record_of_loc]. f_equal; bool_lia.
    + destruct (Z.compare_spec (2 * r + 1) D); cbn [shr_record_of_loc]; f_equal; bool_lia.
Qed.

Lemma exact_locate (N : Z) :
  shr_record_of_loc N loc_Exact = locate N 1.
Proof.
  unfold locate. rewrite Z.div_1_r, Z.mod_1_r. reflexivity.
Qed.

(** *** Rounding a fraction to the nearest integer, ties to even *)
Lemma round_nearest_even_locate (N D : Z) :
  0 < D ->
  round_nearest_even (shr_m (locate N D)) (loc_of_shr_record (locate N D)) = RNE N D.
Proof.
  intros HD. unfold locate, RNE. cbn [shr_m loc_of_shr_record].
  pose proof (Z.mod_pos_bound N D HD) as B.
  set (r := N mod D) in *. clearbody r.
  destruct (Z.leb_spec D (2 * r)); destruct (Z.eqb_spec r 0); destruct (Z.eqb_spec (2 * r) D);
    destruct (Z.ltb_spec (2 * r) D); cbn [negb andb round_nearest_even]; try lia; reflexivity.
Qed.

Lemma RNE_bounds (N D : Z) : 0 < D -> N / D <= RNE N D <= N / D + 1.
Proof.
  intros HD. unfold RNE.
  destruct (2 * (N mod D) <? D); [lia | ].
  destruct (2 * (N mod D) =? D); [ | lia].
  destruct (Z.even (N / D)); lia.
Qed.

Lemma RNE_exact (m D : Z) : 0 < D -> RNE (m * D) D = m.
Proof.
  intros HD. unfold RNE. rewrite Z.div_mul, Z.mod_mul by lia.
  destruct (Z.ltb_spec (2 * 0) D); [reflexivity | lia].
Qed.

Lemma RNE_mono (N1 N2 D : Z) : 0 < D -> N1 <= N2 -> RNE N1 D <= RNE N2 D.
Proof.
  intros HD HN.
  pose proof (Z.div_le_mono N1 N2 D HD HN) as Hq.
  destruct (Z.eq_dec (N1 / D) (N2 / D)) as [E | NE].
  - pose proof (Z.div_mod N1 D ltac:(lia)) as E1.
    pose proof (Z.div_mod N2 D ltac:(lia)) as E2.
    assert (Hr : N1 mod D <= N2 mod D) by (rewrite E in E1; nia).
    unfold RNE. rewrite E.
    destruct (Z.ltb_spec (2 * (N1 mod D)) D); destruct (Z.ltb_spec (2 * (N2 mod D)) D);
      destruct (Z.eqb_spec (2 * (N1 mod D)) D); destruct (Z.eqb_spec (2 * (N2 mod D)) D);
      destruct (Z.even (N2 / D)); lia.
  - pose proof (RNE_bounds N1 D HD). pose proof (RNE_bounds N2 D HD). lia.
Qed.

Lemma RNE_scale (N D k : Z) : 0 < D -> 0 < k -> RNE (N * k) (D * k) = RNE N D.
Proof.
  intros HD Hk. unfold RNE.
  rewrite Z.div_mul_cancel_r by lia.
  rewrite Z.mul_mod_distr_r by lia.
  replace (2 * (N mod D * k)) with ((2 * (N mod D)) * k) by ring.
  destruct (Z.ltb_spec (2 * (N mod D)) D); destruct (Z.ltb_spec (2 * (N mod D) * k) (D * k));
    try nia; try reflexivity.
  destruct (Z.eqb_spec (2 * (N mod D)) D); destruct (Z.eqb_spec (2 * (N mod D) * k) (D * k));
    try nia; reflexivity.
Qed.

Lemma RNE_ge (N D m : Z) : 0 < D -> m * D <= N -> m <= RNE N D.
Proof.
  intros HD H. rewrite <- (RNE_exact m D HD). apply RNE_mono; assumption.
Qed.

Lemma RNE_le (N D m : Z) : 0 < D -> N <= m * D -> RNE N D <= m.
Proof.
  intros HD H. rewrite <- (RNE_exact m D HD). apply RNE_mono; assumption.
Qed.

(** *** The rounding step of [SpecFloat], in closed form *)

Lemma fexp64_eq (e : Z) : fexp64 e = Z.max (e - 53) (-1074).
Proof. reflexivity. Qed.

Lemma shr_no_shift (mrs : shr_record) (e n : Z) : n <= 0 -> shr mrs e n = (mrs, e).
Proof. destruct n; cbn [shr]; intros; try reflexivity; lia. Qed.

Lemma renormalize (s : bool) (m e : Z) :
  -1074 <= e -> 0 <= m <= 9007199254740992 ->
  (let '(mrs, e') := shr_fexp prec emax m e loc_Exact in
   match shr_m mrs with
   | Z0 => S754_zero s
   | Zpos p => if e' <=? emax - prec then S754_finite s p e' else S754_infinity s
   | Zneg _ => S754_nan
   end) = finalize s m e.
Proof.
  intros He Hm. unfold shr_fexp, finalize. cbn [shr_record_of_loc].
  change (emax - prec) with 971.
  destruct (Z.eqb_spec m 9007199254740992) as [-> | Hne].
  - change (Zdigits2 9007199254740992) with 54. rewrite fexp64_eq.
    replace (Z.max (54 + e - 53) (-1074) - e) with 1 by lia.
    cbn [shr iter_pos shr_1 shr_m orb]. reflexivity.
  - assert (Hd : Zdigits2 m <= 53).
    { apply Zdigits2_le; [lia | ]. change (2 ^ 53) with 9007199254740992. lia. }
    rewrite shr_no_shift by (rewrite fexp64_eq; lia).
    cbn [shr_m]. reflexivity.
Qed.

Lemma shifted_mantissa_bound (q n : Z) :
  0 <= q -> 0 <= n -> Zdigits2 q - 53 <= n -> q / 2 ^ n < 9007199254740992.
Proof.
  intros Hq Hn Hd.
  apply Z.div_lt_upper_bound; [apply Z.pow_pos_nonneg; lia | ].
  destruct (Z.eq_dec q 0) as [-> | Hnz].
  - assert (0 < 2 ^ n) by (apply Z.pow_pos_nonneg; lia). lia.
  - pose proof (Zdigits2_bounds q ltac:(lia)) as [_ Hhi].
    pose proof (Zdigits2_pos q ltac:(lia)).
    assert (2 ^ Zdigits2 q <= 2 ^ (n + 53)) by (apply Z.pow_le_mono_r; lia).
    rewrite Z.pow_add_r in * by lia.
    change (2 ^ 53) with 9007199254740992 in *. plia.
Qed.

Theorem binary_round_aux_locate (s : bool) (N D ex : Z) (lx : location) :
  0 <= N -> 0 < D ->
  shr_record_of_loc (N / D) lx = locate N D ->
  ex <= fexp64 (Zdigits2 (N / D) + ex) ->
  binary_round_aux prec emax s (N / D) ex lx =
    finalize s (RNE N (D * 2 ^ (fexp64 (Zdigits2 (N / D) + ex) - ex)))
             (fexp64 (Zdigits2 (N / D) + ex)).
Proof.
  intros HN HD Hloc He.
  set (e' := fexp64 (Zdigits2 (N / D) + ex)) in *.
  assert (He' : -1074 <= e') by (unfold e'; rewrite fexp64_eq; lia).
  assert (Hpos : 0 < D * 2 ^ (e' - ex)).
  { apply Z.mul_pos_pos; [assumption | apply Z.pow_pos_nonneg; lia]. }
  unfold binary_round_aux, shr_fexp at 1. fold e'.
  rewrite Hloc, shr_locate by lia.
  replace (ex + (e' - ex)) with e' by lia.
  rewrite round_nearest_even_locate by assumption.
  apply renormalize; [assumption | ].
  pose proof (RNE_bounds N (D * 2 ^ (e' - ex)) Hpos) as [Hlo Hhi].
  assert (0 <= N / (D * 2 ^ (e' - ex))) by (apply Z.div_pos; lia).
  assert (N / (D * 2 ^ (e' - ex)) < 9007199254740992).
  { rewrite <- Z.div_div by (try apply Z.pow_pos_nonneg; lia).
    apply shifted_mantissa_bound; [apply Z.div_pos; lia | lia | ].
    unfold e'. rewrite fexp64_eq. lia. }
  lia.
Qed.

(** *** Order of binary64 values *)

Lemma valid_finite (s : bool) (m : positive) (e : Z) :
  valid64 (S754_finite s m e) = true ->
  Zpos m < 9007199254740992 /\ -1074 <= e <= 971 /\
  (e = -1074 \/ 4503599627370496 <= Zpos m).
Proof.
  cbn [SpecFloat.valid_binary]. unfold bounded, canonical_mantissa.
  intros H. apply andb_true_iff in H. destruct H as [Hc He].
  apply Z.eqb_eq in Hc. apply Z.leb_le in He. change (emax - prec) with 971 in He.
  rewrite fexp64_eq in Hc.
  pose proof (digits2_pos_bounds m) as [Hlo Hhi].
  set (d := Zpos (digits2_pos m)) in *.
  assert (Hd : 0 < d) by (unfold d; lia). clearbody d.
  assert (d <= 53) by lia.
  assert (2 ^ d <= 2 ^ 53) by (apply Z.pow_le_mono_r; lia).
  change (2 ^ 53) with 9007199254740992 in *.
  split; [plia | ]. split; [lia | ].
  destruct (Z.eq_dec e (-1074)) as [ | Hn]; [left; assumption | right].
  assert (d = 53) by lia. subst d.
  change (2 ^ (53 - 1)) with 4503599627370496 in Hlo. lia.
Qed.

Ltac cmp_solve :=
  f_equal; symmetry;
  first [ apply Z.compare_lt_iff; lia
        | apply Z.compare_eq_iff; lia
        | apply Z.compare_gt_iff; lia ].

Lemma SFcompare_key (x y : spec_float) :
  valid64 x = true -> valid64 y = true ->
  not_nan x = true -> not_nan y = true ->
  SFcompare x y = Some (key x ?= key y).
Proof.
  intros Vx Vy Nx Ny.
  destruct x as [sx | sx | | sx mx ex]; try discriminate Nx;
    destruct y as [sy | sy | | sy my ey]; try discriminate Ny;
    try (apply valid_finite in Vx; destruct Vx as (Bx & Ex & Cx));
    try (apply valid_finite in Vy; destruct Vy as (By & Ey & Cy));
    cbn [SFcompare key];
    try (destruct sx); try (destruct sy); cbn [cond_Zopp]; try cmp_solve.
  - destruct (Z.compare_spec ex ey); [ | cmp_solve | cmp_solve].
    subst ey. change (Pos.compare_cont Eq mx my) with (mx ?= my)%positive.
    destruct (Pos.compare_spec mx my); cbn [CompOpp]; cmp_solve.
  - destruct (Z.compare_spec ex ey); [ | cmp_solve | cmp_solve].
    subst ey. change (Pos.compare_cont Eq mx my) with (mx ?= my)%positive.
    destruct (Pos.compare_spec mx my); cmp_solve.
Qed.

Lemma SFleb_key (x y : spec_float) :
  valid64 x = true -> valid64 y = true ->
  not_nan x = true -> not_nan y = true ->
  SFleb x y = (key x <=? key y).
Proof.
  intros. unfold SFleb, Z.leb. rewrite SFcompare_key by assumption.
  destruct (key x ?= key y); reflexivity.
Qed.

Lemma SFltb_key (x y : spec_float) :
  valid64 x = true -> valid64 y = true ->
  not_nan x = true -> not_nan y = true ->
  SFltb x y = (key x <? key y).
Proof.
  intros. unfold SFltb, Z.ltb. rewrite SFcompare_key by assumption.
  destruct (key x ?= key y); reflexivity.
Qed.

Lemma SFcompare_nan (x y : spec_float) :
  not_nan x && not_nan y = false -> SFcompare x y = None.
Proof. destruct x, y; cbn; intros; try reflexivity; discriminate. Qed.

(** *** The rounded value of a positive fraction *)

Lemma not_nan_finalize (s : bool) (m e : Z) : 0 <= m -> not_nan (finalize s m e) = true.
Proof.
  intros Hm. unfold finalize.
  destruct (m =? 9007199254740992).
  - destruct (e + 1 <=? 971); reflexivity.
  - destruct m; try lia; [reflexivity | destruct (e <=? 971); reflexivity].
Qed.

Lemma key_finalize (m e : Z) :
  0 <= m <= 9007199254740992 ->
  key (finalize false m e) =
    if m =? 0 then 0
    else if m =? 9007199254740992 then
      (if e + 1 <=? 971 then 4503599627370496 + (e + 1 + 1075) * 9007199254740992
       else 2047 * 9007199254740992)
    else if e <=? 971 then m + (e + 1075) * 9007199254740992
    else 2047 * 9007199254740992.
Proof.
  intros Hm. unfold finalize.
  destruct (Z.eqb_spec m 9007199254740992) as [-> | Hne].
  - cbn [Z.eqb]. destruct (e + 1 <=? 971); reflexivity.
  - destruct m as [ | p | p]; try lia; [reflexivity | ].
    cbn [Z.eqb]. destruct (e <=? 971); reflexivity.
Qed.

Lemma key_finalize_mono (m1 m2 e : Z) :
  -1074 <= e -> 0 <= m1 <= m2 -> m2 <= 9007199254740992 ->
  key (finalize false m1 e) <= key (finalize false m2 e).
Proof.
  intros He H1 H2. rewrite !key_finalize by lia. bool_lia.
Qed.

Lemma key_finalize_next (m1 m2 e1 e2 : Z) :
  -1074 <= e1 < e2 -> 0 <= m1 <= 9007199254740992 ->
  4503599627370496 <= m2 <= 9007199254740992 ->
  key (finalize false m1 e1) <= key (finalize false m2 e2).
Proof.
  intros He H1 H2. rewrite !key_finalize by lia. bool_lia.
Qed.

Lemma key_finalize_nonneg (m e : Z) :
  -1074 <= e -> 0 <= m <= 9007199254740992 -> 0 <= key (finalize false m e).
Proof.
  intros He Hm. rewrite key_finalize by lia. bool_lia.
Qed.

Lemma RNE_rounded_bound (N D e : Z) :
  0 <= N -> 0 < D -> e <= fexp64 (Zdigits2 (N / D) + e) ->
  0 <= RNE N (D * 2 ^ (fexp64 (Zdigits2 (N / D) + e) - e)) <= 9007199254740992.
Proof.
  intros HN HD He.
  set (E := fexp64 (Zdigits2 (N / D) + e)) in *.
  assert (Hpos : 0 < D * 2 ^ (E - e)).
  { apply Z.mul_pos_pos; [assumption | apply Z.pow_pos_nonneg; lia]. }
  pose proof (RNE_bounds N (D * 2 ^ (E - e)) Hpos) as [Hlo Hhi].
  assert (0 <= N / (D * 2 ^ (E - e))) by (apply Z.div_pos; lia).
  assert (N / (D * 2 ^ (E - e)) < 9007199254740992).
  { rewrite <- Z.div_div by (try apply Z.pow_pos_nonneg; lia).
    apply shifted_mantissa_bound; [apply Z.div_pos; lia | lia | ].
    unfold E. rewrite fexp64_eq. lia. }
  lia.
Qed.

Theorem round_frac_mono (N1 N2 D e : Z) :
  0 <= N1 <= N2 -> 0 < D ->
  e <= fexp64 (Zdigits2 (N1 / D) + e) ->
  key (round_frac N1 D e) <= key (round_frac N2 D e).
Proof.
  intros [H1 H12] HD He1. unfold round_frac.
  assert (Hq : 0 <= N1 / D <= N2 / D).
  { split; [apply Z.div_pos; lia | apply Z.div_le_mono; lia]. }
  pose proof (Zdigits2_mono _ _ Hq) as Hd.
  pose proof (Zdigits2_nonneg (N1 / D)) as Hd1.
  assert (He2 : e <= fexp64 (Zdigits2 (N2 / D) + e)) by (rewrite fexp64_eq in *; lia).
  pose proof (RNE_rounded_bound N1 D e H1 HD He1) as B1.
  pose proof (RNE_rounded_bound N2 D e ltac:(lia) HD He2) as B2.
  assert (Hpos2 : fexp64 (Zdigits2 (N1 / D) + e) < fexp64 (Zdigits2 (N2 / D) + e) ->
                  2 ^ (Zdigits2 (N2 / D) - 1) <= N2 / D).
  { intros Hlt. destruct (Z.eq_dec (N2 / D) 0) as [Z0 | ].
    - exfalso. rewrite Z0 in *. cbn [Zdigits2] in *. rewrite !fexp64_eq in Hlt. lia.
    - apply Zdigits2_bounds. lia. }
  pose proof (fexp64_eq (Zdigits2 (N1 / D) + e)) as F1.
  pose proof (fexp64_eq (Zdigits2 (N2 / D) + e)) as F2.
  set (d1 := Zdigits2 (N1 / D)) in *. set (d2 := Zdigits2 (N2 / D)) in *.
  set (E1 := fexp64 (d1 + e)) in *. set (E2 := fexp64 (d2 + e)) in *.
  clearbody E1 E2 d1 d2.
  assert (P1 : 0 < D * 2 ^ (E1 - e)).
  { apply Z.mul_pos_pos; [assumption | apply Z.pow_pos_nonneg; lia]. }
  assert (P2 : 0 < D * 2 ^ (E2 - e)).
  { apply Z.mul_pos_pos; [assumption | apply Z.pow_pos_nonneg; lia]. }
  destruct (Z.eq_dec E1 E2) as [Eq | Ne].
  - rewrite <- Eq in *. apply key_finalize_mono; [clear - F1; lia | | clear - B2; plia].
    split; [clear - B1; plia | ]. apply RNE_mono; [assumption | lia].
  - apply key_finalize_next; [clear - F1 F2 Hd Ne; lia | clear - B1; plia | ].
    split; [ | clear - B2; plia].
    apply RNE_ge; [assumption | ].
    specialize (Hpos2 ltac:(clear - F1 F2 Hd Ne; lia)).
    assert (HD2 : D * 2 ^ (d2 - 1) <= N2).
    { pose proof (Z.mul_div_le N2 D HD).
      assert (D * 2 ^ (d2 - 1) <= D * (N2 / D)) by (apply Z.mul_le_mono_nonneg_l; lia).
      lia. }
    assert (Hd2 : d2 - 1 = (E2 - e) + 52) by (clear - F1 F2 Hd Ne He1; lia).
    rewrite Hd2 in HD2.
    rewrite Z.pow_add_r in HD2 by (clear - He2; lia).
    change (2 ^ 52) with 4503599627370496 in HD2.
    clear - HD2. plia.
Qed.

(** The same fraction written with a smaller exponent rounds alike. *)
Lemma round_frac_shift (N D e k : Z) :
  0 <= N -> 0 < D -> 0 <= k ->
  e <= fexp64 (Zdigits2 (N / D) + e) ->
  fexp64 (Zdigits2 (N * 2 ^ k / D) + (e - k)) = fexp64 (Zdigits2 (N / D) + e) /\
  round_frac (N * 2 ^ k) D (e - k) = round_frac N D e.
Proof.
  intros HN HD Hk He.
  assert (Pk : 0 < 2 ^ k) by (apply Z.pow_pos_nonneg; lia).
  assert (HE : fexp64 (Zdigits2 (N * 2 ^ k / D) + (e - k))
               = fexp64 (Zdigits2 (N / D) + e)).
  { destruct (Z.eq_dec (N / D) 0) as [Z0 | NZ].
    - rewrite Z0 in *. cbn [Zdigits2] in *. rewrite fexp64_eq in He.
      assert (N < D) by (apply Z.div_small_iff in Z0; lia).
      assert (0 <= N * 2 ^ k / D < 2 ^ k).
      { split; [apply Z.div_pos; nia | apply Z.div_lt_upper_bound; nia]. }
      pose proof (Zdigits2_le _ _ Hk H0). pose proof (Zdigits2_nonneg (N * 2 ^ k / D)).
      rewrite !fexp64_eq. clear - H1 H2 He. lia.
    - assert (Q : 0 < N / D) by (pose proof (Z.div_pos N D HN HD); lia).
      pose proof (Zdigits2_bounds _ Q) as [Hlo Hhi].
      pose proof (Zdigits2_pos _ Q) as Hd.
      set (d := Zdigits2 (N / D)) in *.
      pose proof (Z.mul_div_le N D HD) as L1.
      pose proof (Z.mul_succ_div_gt N D HD) as L2.
      assert (U : Zdigits2 (N * 2 ^ k / D) = d + k).
      { assert (A : D * 2 ^ (d - 1) <= N).
        { assert (D * 2 ^ (d - 1) <= D * (N / D)) by (apply Z.mul_le_mono_nonneg_l; lia). lia. }
        assert (B : N < D * 2 ^ d).
        { assert (D * Z.succ (N / D) <= D * 2 ^ d) by (apply Z.mul_le_mono_nonneg_l; lia). lia. }
        apply Zdigits2_unique.
        - assert (1 <= N * 2 ^ k / D); [ | lia].
          apply Z.div_le_lower_bound; [lia | ].
          assert (1 <= 2 ^ (d - 1)) by (assert (0 < 2 ^ (d - 1)) by (apply Z.pow_pos_nonneg; lia); lia).
          nia.
        - split.
          + apply Z.div_le_lower_bound; [lia | ].
            replace (d + k - 1) with ((d - 1) + k) by lia.
            rewrite Z.pow_add_r by lia. nia.
          + apply Z.div_lt_upper_bound; [lia | ].
            rewrite Z.pow_add_r by lia. nia. }
      rewrite U. f_equal. lia. }
  split; [exact HE | ].
  unfold round_frac. rewrite HE.
  set (E := fexp64 (Zdigits2 (N / D) + e)) in *.
  f_equal.
  replace (E - (e - k)) with ((E - e) + k) by lia.
  rewrite Z.pow_add_r by lia.
  rewrite Z.mul_assoc. apply RNE_scale; [ | assumption].
  apply Z.mul_pos_pos; [assumption | apply Z.pow_pos_nonneg; lia].
Qed.

Lemma binary_round_aux_exact (N e : Z) :
  0 <= N -> e <= fexp64 (Zdigits2 N + e) ->
  binary_round_aux prec emax false N e loc_Exact = round_frac N 1 e.
Proof.
  intros HN He. unfold round_frac.
  pose proof (binary_round_aux_locate false N 1 e loc_Exact HN ltac:(lia)) as H.
  rewrite Z.div_1_r in *. apply H; [apply exact_locate | assumption].
Qed.

Lemma div_eucl_div_mod (a b : Z) : Z.div_eucl a b = (a / b, a mod b).
Proof. unfold Z.div, Z.modulo. destruct (Z.div_eucl a b). reflexivity. Qed.

Lemma shift_match (m s : Z) :
  0 <= s ->
  match s with Zpos _ => Z.shiftl m s | Z0 => m | Zneg _ => 0 end = m * 2 ^ s.
Proof.
  intros Hs. destruct s as [ | p | p]; try lia.
  apply Z.shiftl_mul_pow2. lia.
Qed.

Lemma div_precondition (mx : positive) (ex : Z) (my : positive) (ey : Z) :
  let e' := div_exp mx ex my ey in
  e' <= fexp64 (Zdigits2 (Zpos mx * 2 ^ (ex - ey - e') / Zpos my) + e').
Proof.
  intros e'.
  assert (Hs : 0 <= ex - ey - e') by (unfold e', div_exp; lia).
  set (s := ex - ey - e') in *.
  set (q := Zpos mx * 2 ^ s / Zpos my).
  assert (Ps : 0 < 2 ^ s) by (apply Z.pow_pos_nonneg; lia).
  assert (Hq : 0 <= q) by (apply Z.div_pos; nia).
  pose proof (digits2_pos_bounds mx) as [Lx Ux].
  pose proof (digits2_pos_bounds my) as [Ly Uy].
  set (dx := Zpos (digits2_pos mx)) in *. set (dy := Zpos (digits2_pos my)) in *.
  assert (Hdx : 0 < dx) by (unfold dx; lia). assert (Hdy : 0 < dy) by (unfold dy; lia).
  assert (Hd : dx - dy + s <= Zdigits2 q).
  { destruct (Z_le_gt_dec (dx - dy + s) 0) as [Hle | Hgt].
    - pose proof (Zdigits2_nonneg q). lia.
    - assert (Hlow : 2 ^ (dx - dy + s - 1) <= q).
      { apply Z.div_le_lower_bound; [lia | ].
        assert (E1 : 2 ^ (dx - 1) * 2 ^ s = 2 ^ (dx - dy + s - 1) * 2 ^ dy).
        { rewrite <- !Z.pow_add_r by lia. f_equal. lia. }
        assert (P : 0 < 2 ^ (dx - dy + s - 1)) by (apply Z.pow_pos_nonneg; lia).
        clearbody dx dy. nia. }
      apply Zdigits2_ge; [assumption | ].
      assert (0 < 2 ^ (dx - dy + s - 1)) by (apply Z.pow_pos_nonneg; lia). lia. }
  assert (He' : e' <= fexp64 (dx + ex - (dy + ey))) by (unfold e', div_exp; fold dx dy; lia).
  rewrite fexp64_eq in *. fold q. clearbody dx dy q e'. clear - Hd He' Hs. unfold s in *. lia.
Qed.

Theorem SF64div_round_frac (mx : positive) (ex : Z) (my : positive) (ey : Z) :
  let e' := div_exp mx ex my ey in
  SF64div (S754_finite false mx ex) (S754_finite false my ey) =
    round_frac (Zpos mx * 2 ^ (ex - ey - e')) (Zpos my) e'.
Proof.
  intros e'. pose proof (div_precondition mx ex my ey) as Hp. cbv zeta in Hp. fold e' in Hp.
  assert (Hs : 0 <= ex - ey - e') by (unfold e', div_exp; lia).
  unfold SF64div, SFdiv, SFdiv_core_binary. cbn [xorb Zdigits2].
  fold (div_exp mx ex my ey). fold e'.
  rewrite shift_match by assumption.
  rewrite div_eucl_div_mod.
  unfold round_frac.
  apply binary_round_aux_locate; try assumption.
  - assert (0 < 2 ^ (ex - ey - e')) by (apply Z.pow_pos_nonneg; lia). nia.
  - lia.
  - apply new_location_locate. lia.
Qed.

Theorem SF64mul_round_frac (mx : positive) (ex : Z) (my : positive) (ey : Z) :
  ex + ey <= fexp64 (Zdigits2 (Zpos mx * Zpos my) + (ex + ey)) ->
  SF64mul (S754_finite false mx ex) (S754_finite false my ey) =
    round_frac (Zpos mx * Zpos my) 1 (ex + ey).
Proof.
  intros Hp. unfold SF64mul, SFmul. cbn [xorb].
  change (Zpos (mx * my)) with (Zpos mx * Zpos my).
  apply binary_round_aux_exact; [lia | assumption].
Qed.

Lemma mul_precondition (mx : positive) (ex : Z) (my : positive) (ey : Z) :
  valid64 (S754_finite false mx ex) = true ->
  valid64 (S754_finite false my ey) = true ->
  ex + ey <= fexp64 (Zdigits2 (Zpos mx * Zpos my) + (ex + ey)).
Proof.
  intros Vx Vy.
  apply valid_finite in Vx. destruct Vx as (Bx & Ex & Cx).
  apply valid_finite in Vy. destruct Vy as (By & Ey & Cy).
  rewrite fexp64_eq.
  assert (H : ex + ey <= -1074 \/ 53 <= Zdigits2 (Zpos mx * Zpos my)).
  { destruct Cx as [-> | Cx]; [destruct Cy as [-> | Cy] | ].
    - left. lia.
    - right. apply Zdigits2_ge; [ | lia].
      change (2 ^ (53 - 1)) with 4503599627370496. nia.
    - right. apply Zdigits2_ge; [ | lia].
      change (2 ^ (53 - 1)) with 4503599627370496. nia. }
  lia.
Qed.

Lemma round_frac_nonneg (N D e : Z) :
  0 <= N -> 0 < D -> e <= fexp64 (Zdigits2 (N / D) + e) ->
  not_nan (round_frac N D e) = true /\ 0 <= key (round_frac N D e).
Proof.
  intros HN HD He. pose proof (RNE_rounded_bound N D e HN HD He) as B.
  unfold round_frac. split.
  - apply not_nan_finalize. lia.
  - apply key_finalize_nonneg; [rewrite fexp64_eq; lia | exact B].
Qed.

(** Two fractions over the same denominator, each written with its own
    exponent: the rounding keeps their order. *)
Theorem round_frac_mono_exp (N1 N2 D e1 e2 : Z) :
  0 <= N1 -> 0 <= N2 -> 0 < D ->
  e1 <= fexp64 (Zdigits2 (N1 / D) + e1) ->
  e2 <= fexp64 (Zdigits2 (N2 / D) + e2) ->
  N1 * 2 ^ (e1 - Z.min e1 e2) <= N2 * 2 ^ (e2 - Z.min e1 e2) ->
  key (round_frac N1 D e1) <= key (round_frac N2 D e2).
Proof.
  intros H1 H2 HD P1 P2 Hle.
  set (e0 := Z.min e1 e2) in *.
  assert (K1 : 0 <= e1 - e0) by (unfold e0; lia).
  assert (K2 : 0 <= e2 - e0) by (unfold e0; lia).
  destruct (round_frac_shift N1 D e1 (e1 - e0) H1 HD K1 P1) as [E1 R1].
  destruct (round_frac_shift N2 D e2 (e2 - e0) H2 HD K2 P2) as [E2 R2].
  replace (e1 - (e1 - e0)) with e0 in * by lia.
  replace (e2 - (e2 - e0)) with e0 in * by lia.
  rewrite <- R1, <- R2.
  apply round_frac_mono; [ | assumption | ].
  - split; [ | assumption].
    assert (0 < 2 ^ (e1 - e0)) by (apply Z.pow_pos_nonneg; lia). nia.
  - rewrite E1. lia.
Qed.

(** The order of two positive floats, on mantissas brought to a common
    exponent. *)
Lemma key_order_scaled (m1 : positive) (e1 : Z) (m2 : positive) (e2 t1 t2 : Z) :
  valid64 (S754_finite false m1 e1) = true ->
  valid64 (S754_finite false m2 e2) = true ->
  key (S754_finite false m1 e1) <= key (S754_finite false m2 e2) ->
  0 <= t1 -> t2 - t1 = e2 - e1 ->
  Zpos m1 * 2 ^ t1 <= Zpos m2 * 2 ^ t2.
Proof.
  intros V1 V2 Hk Ht1 Ht.
  apply valid_finite in V1. destruct V1 as (B1 & E1 & C1).
  apply valid_finite in V2. destruct V2 as (B2 & E2 & C2).
  cbn [key cond_Zopp] in Hk.
  assert (He : e1 <= e2) by lia.
  replace t2 with (t1 + (e2 - e1)) by lia.
  rewrite Z.pow_add_r by lia.
  assert (P1 : 0 < 2 ^ t1) by (apply Z.pow_pos_nonneg; lia).
  destruct (Z.eq_dec e1 e2) as [-> | Ne].
  - rewrite Z.sub_diag, Z.pow_0_r. nia.
  - assert (2 ^ 1 <= 2 ^ (e2 - e1)) by (apply Z.pow_le_mono_r; lia).
    change (2 ^ 1) with 2 in *.
    assert (Zpos m1 <= Zpos m2 * 2 ^ (e2 - e1)) by nia.
    nia.
Qed.

Theorem SF64div_mono (x1 x2 y : spec_float) :
  valid64 x1 = true -> valid64 x2 = true ->
  nonneg_fin x1 = true -> nonneg_fin x2 = true -> pos_fin y = true ->
  key x1 <= key x2 ->
  not_nan (SF64div x1 y) = true /\ not_nan (SF64div x2 y) = true /\
  0 <= key (SF64div x1 y) <= key (SF64div x2 y).
Proof.
  intros V1 V2 C1 C2 Cy Hk.
  destruct y as [ | | | [ | ] my ey]; try discriminate Cy.
  destruct x1 as [s1 | | | [ | ] m1 e1]; try discriminate C1;
    destruct x2 as [s2 | | | [ | ] m2 e2]; try discriminate C2.
  - cbn. lia.
  - rewrite SF64div_round_frac.
    pose proof (div_precondition m2 e2 my ey) as P. cbv zeta in P.
    set (e' := div_exp m2 e2 my ey) in *.
    assert (0 <= e2 - ey - e') by (unfold e', div_exp; lia).
    assert (0 < 2 ^ (e2 - ey - e')) by (apply Z.pow_pos_nonneg; lia).
    destruct (round_frac_nonneg (Zpos m2 * 2 ^ (e2 - ey - e')) (Zpos my) e') as [Hn Hp];
      [nia | lia | exact P | ].
    cbn [SF64div SFdiv not_nan key xorb]. repeat split; try assumption; lia.
  - exfalso. apply valid_finite in V1. cbn [key cond_Zopp] in Hk. lia.
  - rewrite !SF64div_round_frac.
    pose proof (div_precondition m1 e1 my ey) as P1. cbv zeta in P1.
    pose proof (div_precondition m2 e2 my ey) as P2. cbv zeta in P2.
    set (e1' := div_exp m1 e1 my ey) in *. set (e2' := div_exp m2 e2 my ey) in *.
    assert (S1 : 0 <= e1 - ey - e1') by (unfold e1', div_exp; lia).
    assert (S2 : 0 <= e2 - ey - e2') by (unfold e2', div_exp; lia).
    assert (0 < 2 ^ (e1 - ey - e1')) by (apply Z.pow_pos_nonneg; lia).
    assert (0 < 2 ^ (e2 - ey - e2')) by (apply Z.pow_pos_nonneg; lia).
    destruct (round_frac_nonneg (Zpos m1 * 2 ^ (e1 - ey - e1')) (Zpos my) e1') as [Hn1 Hp1];
      [nia | lia | exact P1 | ].
    destruct (round_frac_nonneg (Zpos m2 * 2 ^ (e2 - ey - e2')) (Zpos my) e2') as [Hn2 Hp2];
      [nia | lia | exact P2 | ].
    repeat split; try assumption.
    apply round_frac_mono_exp; try assumption; try nia; try lia.
    rewrite <- !Z.mul_assoc, <- !Z.pow_add_r by lia.
    apply (key_order_scaled m1 e1 m2 e2); try assumption; lia.
Qed.

Theorem SF64mul_mono (x1 x2 y : spec_float) :
  valid64 x1 = true -> valid64 x2 = true -> valid64 y = true ->
  nonneg_fin x1 = true -> nonneg_fin x2 = true -> pos_fin y = true ->
  key x1 <= key x2 ->
  not_nan (SF64mul x1 y) = true /\ not_nan (SF64mul x2 y) = true /\
  0 <= key (SF64mul x1 y) <= key (SF64mul x2 y).
Proof.
  intros V1 V2 Vy C1 C2 Cy Hk.
  destruct y as [ | | | [ | ] my ey]; try discriminate Cy.
  destruct x1 as [s1 | | | [ | ] m1 e1]; try discriminate C1;
    destruct x2 as [s2 | | | [ | ] m2 e2]; try discriminate C2.
  - cbn. lia.
  - pose proof (mul_precondition m2 e2 my ey V2 Vy) as P.
    rewrite SF64mul_round_frac by exact P.
    destruct (round_frac_nonneg (Zpos m2 * Zpos my) 1 (e2 + ey)) as [Hn Hp];
      [lia | lia | rewrite Z.div_1_r; exact P | ].
    cbn [SF64mul SFmul not_nan key xorb]. repeat split; try assumption; lia.
  - exfalso. apply valid_finite in V1. cbn [key cond_Zopp] in Hk. lia.
  - pose proof (mul_precondition m1 e1 my ey V1 Vy) as P1.
    pose proof (mul_precondition m2 e2 my ey V2 Vy) as P2.
    rewrite !SF64mul_round_frac by assumption.
    destruct (round_frac_nonneg (Zpos m1 * Zpos my) 1 (e1 + ey)) as [Hn1 Hp1];
      [lia | lia | rewrite Z.div_1_r; exact P1 | ].
    destruct (round_frac_nonneg (Zpos m2 * Zpos my) 1 (e2 + ey)) as [Hn2 Hp2];
      [lia | lia | rewrite Z.div_1_r; exact P2 | ].
    repeat split; try assumption.
    apply round_frac_mono_exp; try lia; try (rewrite Z.div_1_r; assumption).
    assert (L : Zpos m1 * 2 ^ (e1 + ey - Z.min (e1 + ey) (e2 + ey))
                <= Zpos m2 * 2 ^ (e2 + ey - Z.min (e1 + ey) (e2 + ey))).
    { apply (key_order_scaled m1 e1 m2 e2); try assumption; lia. }
    clear - L. pow_abs. nia.
Qed.

(** *** Primitive floats *)

Lemma leb_fkey (x y : float) :
  is_num x = true -> is_num y = true -> (x <=? y)%float = (fkey x <=? fkey y).
Proof.
  intros Hx Hy. rewrite leb_spec. apply SFleb_key; auto using Prim2SF_valid.
Qed.

Lemma ltb_fkey (x y : float) :
  is_num x = true -> is_num y = true -> (x <? y)%float = (fkey x <? fkey y).
Proof.
  intros Hx Hy. rewrite ltb_spec. apply SFltb_key; auto using Prim2SF_valid.
Qed.

Lemma ltb_nan (x y : float) :
  is_num x && is_num y = false -> (x <? y)%float = false.
Proof.
  intros H. rewrite ltb_spec. unfold SFltb. rewrite SFcompare_nan by exact H. reflexivity.
Qed.

Lemma leb_nan (x y : float) :
  is_num x && is_num y = false -> (x <=? y)%float = false.
Proof.
  intros H. rewrite leb_spec. unfold SFleb. rewrite SFcompare_nan by exact H. reflexivity.
Qed.

Lemma leb_true_inv (x y : float) :
  (x <=? y)%float = true -> is_num x = true /\ is_num y = true /\ fkey x <= fkey y.
Proof.
  intros H. destruct (is_num x) eqn:Hx; [destruct (is_num y) eqn:Hy | ].
  - rewrite leb_fkey in H by assumption. apply Z.leb_le in H. auto.
  - rewrite leb_nan in H by (rewrite Hx, Hy; reflexivity). discriminate.
  - rewrite leb_nan in H by (rewrite Hx; reflexivity). discriminate.
Qed.

Lemma leb_true_intro (x y : float) :
  is_num x = true -> is_num y = true -> fkey x <= fkey y -> (x <=? y)%float = true.
Proof.
  intros Hx Hy H. rewrite leb_fkey by assumption. apply Z.leb_le. exact H.
Qed.

Lemma nonneg_fin_key (x : float) :
  is_num x = true -> 0 <= fkey x < 2047 * 9007199254740992 ->
  nonneg_fin (Prim2SF x) = true.
Proof.
  unfold is_num, fkey. pose proof (Prim2SF_valid x) as V.
  destruct (Prim2SF x) as [s | [ | ] | | [ | ] m e];
    cbn [key nonneg_fin pos_fin not_nan cond_Zopp]; intros Hn Hk;
    try reflexivity; try discriminate; try lia.
  apply valid_finite in V. lia.
Qed.

Lemma pos_fin_key (x : float) :
  is_num x = true -> 0 < fkey x < 2047 * 9007199254740992 ->
  pos_fin (Prim2SF x) = true.
Proof.
  unfold is_num, fkey. pose proof (Prim2SF_valid x) as V.
  destruct (Prim2SF x) as [s | [ | ] | | [ | ] m e];
    cbn [key nonneg_fin pos_fin not_nan cond_Zopp]; intros Hn Hk;
    try reflexivity; try discriminate; try lia.
  apply valid_finite in V. lia.
Qed.

(** Division by a positive finite float keeps the order of non-negative
    finite floats, and so does multiplication. *)
Theorem div_mono (a b y : float) :
  nonneg_fin (Prim2SF a) = true -> nonneg_fin (Prim2SF b) = true ->
  pos_fin (Prim2SF y) = true -> fkey a <= fkey b ->
  is_num (a / y) = true /\ is_num (b / y) = true /\
  0 <= fkey (a / y) <= fkey (b / y).
Proof.
  intros. unfold is_num, fkey. rewrite !div_spec.
  apply SF64div_mono; auto using Prim2SF_valid.
Qed.

Theorem mul_mono (a b y : float) :
  nonneg_fin (Prim2SF a) = true -> nonneg_fin (Prim2SF b) = true ->
  pos_fin (Prim2SF y) = true -> fkey a <= fkey b ->
  is_num (a * y) = true /\ is_num (b * y) = true /\
  0 <= fkey (a * y) <= fkey (b * y).
Proof.
  intros. unfold is_num, fkey. rewrite !mul_spec.
  apply SF64mul_mono; auto using Prim2SF_valid.
Qed.

End Binary64Facts.

(** ** Python's float built-ins *)

Module PyFloatFacts.

Import Binary64 Binary64Facts.

Lemma SFeqb_key (x y : spec_float) :
  valid64 x = true -> valid64 y = true ->
  not_nan x = true -> not_nan y = true ->
  SFeqb x y = (key x =? key y).
Proof.
  intros. unfold SFeqb. rewrite SFcompare_key by assumption.
  destruct (Z.eqb_spec (key x) (key y)) as [E | NE].
  - rewrite E, Z.compare_refl. reflexivity.
  - destruct (key x ?= key y) eqn:C; try reflexivity.
    apply Z.compare_eq_iff in C. contradiction.
Qed.

Lemma eqb_fkey (x y : float) :
  is_num x = true -> is_num y = true -> (x =? y)%float = (fkey x =? fkey y).
Proof.
  intros Hx Hy. rewrite eqb_spec. apply SFeqb_key; auto using Prim2SF_valid.
Qed.

Lemma eqb_nan (x y : float) :
  is_num x && is_num y = false -> (x =? y)%float = false.
Proof.
  intros H. rewrite eqb_spec. unfold SFeqb. rewrite SFcompare_nan by exact H. reflexivity.
Qed.

Lemma is_nan_is_num (x : float) : is_nan x = negb (is_num x).
Proof.
  unfold is_nan. destruct (is_num x) eqn:Hx.
  - rewrite eqb_fkey by assumption. rewrite Z.eqb_refl. reflexivity.
  - rewrite eqb_nan by (rewrite Hx; reflexivity). reflexivity.
Qed.

(** [max(lo, min(x, hi))] lies between [lo] and [hi], whatever [x]. *)
Lemma pyclamp_range (lo hi x : float) :
  is_num lo = true -> is_num hi = true -> fkey lo <= fkey hi ->
  is_num (pymax lo (pymin x hi)) = true /\
  fkey lo <= fkey (pymax lo (pymin x hi)) <= fkey hi.
Proof.
  intros Hlo Hhi Hle. unfold pymax, pymin.
  destruct (is_num x) eqn:Hx.
  - rewrite (ltb_fkey hi x) by assumption.
    destruct (Z.ltb_spec (fkey hi) (fkey x)).
    + rewrite (ltb_fkey lo hi) by assumption.
      destruct (Z.ltb_spec (fkey lo) (fkey hi)); split; auto; lia.
    + rewrite (ltb_fkey lo x) by assumption.
      destruct (Z.ltb_spec (fkey lo) (fkey x)); split; auto; lia.
  - rewrite (ltb_nan hi x) by (rewrite Hx; apply andb_false_r).
    rewrite (ltb_nan lo x) by (rewrite Hx; apply andb_false_r).
    split; auto; lia.
Qed.

(** [max(lo, min(x, hi))] does not decrease when [x] grows. *)
Lemma pyclamp_mono (lo hi x y : float) :
  is_num lo = true -> is_num hi = true -> fkey lo <= fkey hi ->
  (x <=? y)%float = true ->
  fkey (pymax lo (pymin x hi)) <= fkey (pymax lo (pymin y hi)).
Proof.
  intros Hlo Hhi Hle Hxy.
  apply leb_true_inv in Hxy. destruct Hxy as (Hx & Hy & Hk).
  unfold pymax, pymin.
  rewrite (ltb_fkey hi x), (ltb_fkey hi y) by assumption.
  destruct (Z.ltb_spec (fkey hi) (fkey x)); destruct (Z.ltb_spec (fkey hi) (fkey y));
    rewrite ?(ltb_fkey lo hi), ?(ltb_fkey lo x), ?(ltb_fkey lo y) by assumption;
    repeat match goal with
           | |- context [Z.ltb ?a ?b] => destruct (Z.ltb_spec a b)
           end; lia.
Qed.

(** [max(lo, min(x, hi))] is the clamping of the specification, except
    that NaN and both zeros give the literal [0.0]. *)
Lemma pyclamp_zero_spec (hi x : float) :
  is_num hi = true -> 0 < fkey hi ->
  pymax 0%float (pymin x hi) =
    if is_nan x || is_zero x then 0%float else clamp_spec 0%float hi x.
Proof.
  intros Hhi Hle. unfold pymax, pymin, clamp_spec, is_zero.
  rewrite is_nan_is_num.
  assert (H0 : is_num 0%float = true) by reflexivity.
  assert (K0 : fkey 0%float = 0) by reflexivity.
  destruct (is_num x) eqn:Hx; cbn [negb orb].
  - change zero with 0%float.
    rewrite (eqb_fkey x 0), (ltb_fkey hi x), (ltb_fkey x 0) by assumption.
    rewrite K0.
    destruct (Z.eqb_spec (fkey x) 0) as [E | NE].
    + destruct (Z.ltb_spec (fkey hi) (fkey x)); [lia | ].
      rewrite (ltb_fkey 0 x), K0 by assumption.
      destruct (Z.ltb_spec 0 (fkey x)); [lia | reflexivity].
    + destruct (Z.ltb_spec (fkey x) 0).
      * destruct (Z.ltb_spec (fkey hi) (fkey x)); [lia | ].
        rewrite (ltb_fkey 0 x), K0 by assumption.
        destruct (Z.ltb_spec 0 (fkey x)); [lia | reflexivity].
      * destruct (Z.ltb_spec (fkey hi) (fkey x)).
        -- rewrite (ltb_fkey 0 hi), K0 by assumption.
           destruct (Z.ltb_spec 0 (fkey hi)); [reflexivity | lia].
        -- rewrite (ltb_fkey 0 x), K0 by assumption.
           destruct (Z.ltb_spec 0 (fkey x)); [reflexivity | lia].
  - rewrite (ltb_nan hi x) by (rewrite Hx; apply andb_false_r).
    rewrite (ltb_nan 0 x) by (rewrite Hx; apply andb_false_r).
    reflexivity.
Qed.

End PyFloatFacts.

(** ** VoltageMapper *)

Module VoltageMapperFacts.

Import Binary64 Binary64Facts PyFloatFacts.

Lemma MAX_KMH_key :
  is_num MAX_KMH = true /\ 0 < fkey MAX_KMH < 2047 * 9007199254740992.
Proof. vm_compute. repeat split; reflexivity. Qed.

Lemma clamp_kmh_range (kmh : float) :
  is_num (clamp_kmh kmh) = true /\ 0 <= fkey (clamp_kmh kmh) <= fkey MAX_KMH.
Proof.
  destruct MAX_KMH_key as [Hn Hk].
  apply (pyclamp_range 0%float MAX_KMH kmh); [reflexivity | exact Hn | ].
  change (fkey 0%float) with 0. lia.
Qed.

(** A float between 0 and a finite positive bound, divided by a positive
    finite float [d], lies between 0 and the bound divided by [d]. *)
Lemma div_between (c hi d : float) :
  is_num c = true -> 0 <= fkey c <= fkey hi ->
  is_num hi = true -> fkey hi < 2047 * 9007199254740992 ->
  pos_fin (Prim2SF d) = true ->
  is_num (c / d) = true /\ 0 <= fkey (c / d) <= fkey (hi / d).
Proof.
  intros Hc Kc Hhi Khi Hd.
  destruct (div_mono c hi d) as (N1 & _ & K); try assumption; try lia.
  - apply nonneg_fin_key; [assumption | lia].
  - apply nonneg_fin_key; [assumption | lia].
  - split; assumption.
Qed.

Lemma mul_between (c hi d : float) :
  is_num c = true -> 0 <= fkey c <= fkey hi ->
  is_num hi = true -> fkey hi < 2047 * 9007199254740992 ->
  pos_fin (Prim2SF d) = true ->
  is_num (c * d) = true /\ 0 <= fkey (c * d) <= fkey (hi * d).
Proof.
  intros Hc Kc Hhi Khi Hd.
  destruct (mul_mono c hi d) as (N1 & _ & K); try assumption; try lia.
  - apply nonneg_fin_key; [assumption | lia].
  - apply nonneg_fin_key; [assumption | lia].
  - split; assumption.
Qed.

(** The quotient of line 226 lies in [0, 1]. *)
Lemma ratio_range (c : float) :
  is_num c = true -> 0 <= fkey c <= fkey MAX_KMH ->
  is_num (c / MAX_KMH) = true /\ 0 <= fkey (c / MAX_KMH) <= fkey 1%float.
Proof.
  intros Hc Kc. destruct MAX_KMH_key as [Hn Hk].
  apply (div_between c MAX_KMH MAX_KMH); try assumption; try lia; reflexivity.
Qed.

Lemma one_key : is_num 1%float = true /\ fkey 1%float < 2047 * 9007199254740992.
Proof. vm_compute. split; reflexivity. Qed.

Lemma calculate_voltage_range (kmh : float) :
  is_num (calculate_voltage kmh) = true /\
  0 <= fkey (calculate_voltage kmh) <= fkey MAX_VOLTAGE.
Proof.
  unfold calculate_voltage.
  destruct (clamp_kmh_range kmh) as [Hc Kc].
  destruct (ratio_range _ Hc Kc) as [Hq Kq].
  destruct one_key as [H1 K1].
  apply (mul_between (clamp_kmh kmh / MAX_KMH) 1%float MAX_VOLTAGE);
    try assumption; reflexivity.
Qed.

Lemma calculate_voltage_mono (x y : float) :
  (x <=? y)%float = true ->
  fkey (calculate_voltage x) <= fkey (calculate_voltage y).
Proof.
  intros Hxy. unfold calculate_voltage.
  destruct MAX_KMH_key as [Hn Hk]. destruct one_key as [H1 K1].
  destruct (clamp_kmh_range x) as [Hcx Kcx]. destruct (clamp_kmh_range y) as [Hcy Kcy].
  assert (Kc : fkey (clamp_kmh x) <= fkey (clamp_kmh y)).
  { apply (pyclamp_mono 0%float MAX_KMH x y); try assumption; try reflexivity.
    change (fkey 0%float) with 0. lia. }
  destruct (ratio_range _ Hcx Kcx) as [Hqx Kqx].
  destruct (ratio_range _ Hcy Kcy) as [Hqy Kqy].
  destruct (div_mono (clamp_kmh x) (clamp_kmh y) MAX_KMH) as (_ & _ & Kq);
    try assumption; try (apply nonneg_fin_key; [assumption | lia]); try reflexivity.
  destruct (mul_mono (clamp_kmh x / MAX_KMH) (clamp_kmh y / MAX_KMH) MAX_VOLTAGE)
    as (_ & _ & Kv);
    try (apply nonneg_fin_key; [assumption | lia]); try reflexivity; lia.
Qed.

End VoltageMapperFacts.

(** C7.  For every speed, [calculate_voltage] returns
    [(clamped / MAX_KMH) * MAX_VOLTAGE], where [clamped] is the speed
    clamped to [0, MAX_KMH]: it is the clamping of the specification
    ([clamp_spec]) for every speed that is a number other than zero, and
    [0.0] for NaN and for both zeros; it always lies in [0, MAX_KMH].  The
    function is total (nothing is raised), and it maps 0 to 0.0, MAX_KMH to
    MAX_VOLTAGE and MAX_KMH + 5 to MAX_VOLTAGE. *)
Theorem calculate_voltage_clamps_and_scales :
  forall kmh : float,
    calculate_voltage kmh = ((clamp_kmh kmh / MAX_KMH) * MAX_VOLTAGE)%float
    /\ clamp_kmh kmh =
         (if is_nan kmh || is_zero kmh then 0%float else clamp_spec 0%float MAX_KMH kmh)
    /\ (0 <=? clamp_kmh kmh)%float = true
    /\ (clamp_kmh kmh <=? MAX_KMH)%float = true
    /\ calculate_voltage 0%float = 0%float
    /\ calculate_voltage MAX_KMH = MAX_VOLTAGE
    /\ calculate_voltage (MAX_KMH + 5)%float = MAX_VOLTAGE.
Proof.
  intros kmh.
  destruct VoltageMapperFacts.MAX_KMH_key as [Hn Hk].
  destruct (VoltageMapperFacts.clamp_kmh_range kmh) as [Hc Kc].
  split; [reflexivity | ].
  split; [apply PyFloatFacts.pyclamp_zero_spec; [exact Hn | lia] | ].
  split; [apply Binary64Facts.leb_true_intro; [reflexivity | exact Hc | exact (proj1 Kc)] | ].
  split; [apply Binary64Facts.leb_true_intro; [exact Hc | exact Hn | exact (proj2 Kc)] | ].
  repeat split; vm_compute; reflexivity.
Qed.

(** C8.  For all speeds [x] and [y] in [-100, 100], the voltage computed
    for [x] lies in [0, MAX_VOLTAGE], and it is not above the voltage
    computed for [y] whenever [x <= y]. *)
Theorem calculate_voltage_bounded_monotone :
  forall x y : float,
    (-100 <=? x)%float = true -> (x <=? 100)%float = true ->
    (-100 <=? y)%float = true -> (y <=? 100)%float = true ->
    (0 <=? calculate_voltage x)%float = true
    /\ (calculate_voltage x <=? MAX_VOLTAGE)%float = true
    /\ ((x <=? y)%float = true ->
        (calculate_voltage x <=? calculate_voltage y)%float = true).
Proof.
  intros x y _ _ _ _.
  destruct (VoltageMapperFacts.calculate_voltage_range x) as [Hx Kx].
  destruct (VoltageMapperFacts.calculate_voltage_range y) as [Hy Ky].
  destruct VoltageMapperFacts.MAX_KMH_key as [Hn Hk].
  split; [apply Binary64Facts.leb_true_intro; [reflexivity | exact Hx | exact (proj1 Kx)] | ].
  split; [apply Binary64Facts.leb_true_intro; [exact Hx | exact Hn | exact (proj2 Kx)] | ].
  intros Hxy.
  apply Binary64Facts.leb_true_intro; [exact Hx | exact Hy | ].
  apply VoltageMapperFacts.calculate_voltage_mono. exact Hxy.
Qed.

Lemma calculate_voltage_bounded_monotone_witness :
  (0 <=? calculate_voltage (-3))%float = true
  /\ (calculate_voltage (-3) <=? MAX_VOLTAGE)%float = true
  /\ ((-3 <=? 7.5)%float = true ->
      (calculate_voltage (-3) <=? calculate_voltage 7.5)%float = true).
Proof.
  apply (calculate_voltage_bounded_monotone (-3)%float 7.5%float);
    vm_compute; reflexivity.
Defined.

(** ** Bring-up *)

Module BringUpFacts.

Lemma opened_interfaces_app (l1 l2 : list Effect) :
  opened_interfaces (l1 ++ l2) = opened_interfaces l1 ++ opened_interfaces l2.
Proof.
  induction l1 as [ | e l1 IH]; [reflexivity | ].
  destruct e; cbn [app opened_interfaces]; rewrite IH; reflexivity.
Qed.

Lemma find_adecua_existsb (iface : string) (l : list SlaveDesc) (n : nat) :
  match find_adecua iface n l with
  | Some s =>
      existsb is_adecua l = true
      /\ slave_iface s = iface /\ is_adecua (slave_desc s) = true
  | None => existsb is_adecua l = false
  end.
Proof.
  revert n. induction l as [ | d l IH]; intros n; cbn [find_adecua existsb]; [reflexivity | ].
  destruct (is_adecua d) eqn:E; cbn [orb].
  - cbn. auto.
  - apply IH.
Qed.

Lemma same_globals_refl (w : World) : same_globals w w.
Proof. repeat split. Qed.

Lemma same_globals_trans (w1 w2 w3 : World) :
  same_globals w1 w2 -> same_globals w2 w3 -> same_globals w1 w3.
Proof.
  unfold same_globals. intros (A1 & A2 & A3 & A4) (B1 & B2 & B3 & B4).
  repeat split; congruence.
Qed.

(** Closes a case of [try_interface]: the globals are untouched and one
    master was opened. *)
Ltac close_case :=
  cbn; repeat rewrite opened_interfaces_app; cbn;
  repeat rewrite app_nil_r;
  repeat split; try reflexivity; try (intros ? ?; discriminate).

Ltac next_call sim s :=
  destruct (raises sim s) eqn:?; [solve [close_case] | ].

(** One pass of the loop: it leaves the globals alone, opens exactly one
    master, and yields a pair to commit exactly when the interface
    works. *)
Lemma try_interface_spec (sim : IfaceSim) (fr : Frame) :
  same_globals (world fr) (world (snd (try_interface sim fr)))
  /\ opened_interfaces (effects (world (snd (try_interface sim fr))))
     = opened_interfaces (effects (world fr)) ++ [iface_name sim]
  /\ if iface_works sim
     then exists s,
            find_adecua (iface_name sim) 0 (slaves sim) = Some s
            /\ fst (try_interface sim fr)
               = inr (Some ({| master_iface := iface_name sim |}, s))
     else forall p, fst (try_interface sim fr) <> inr (Some p).
Proof.
  unfold try_interface, iface_works, expect_state, succeeds.
  pose proof (find_adecua_existsb (iface_name sim) (slaves sim) 0) as F.
  cbn [forallb].
  next_call sim AtOpen. next_call sim AtConfigInit. next_call sim AtConfigDc.
  destruct (find_adecua (iface_name sim) 0 (slaves sim)) as [s | ] eqn:Ef.
  - destruct F as (Ex & _ & _). rewrite Ex.
    next_call sim AtConfigMap. next_call sim AtCheckSafeOp. next_call sim AtReadSafeOp.
    destruct (SlaveState_eqb (state_at sim AtReadSafeOp) SAFEOP_STATE) eqn:E1.
    + next_call sim AtCheckOp. next_call sim AtReadOp.
      destruct (SlaveState_eqb (state_at sim AtReadOp) OPERATIONAL_STATE) eqn:E2.
      * cbn. repeat rewrite opened_interfaces_app. cbn. repeat rewrite app_nil_r.
        repeat split; try reflexivity. exists s. split; reflexivity.
      * destruct (raises sim AtSlaveCheckOp) eqn:?; close_case.
    + destruct (raises sim AtSlaveCheckSafeOp) eqn:?;
        destruct (raises sim AtCheckOp) eqn:?; destruct (raises sim AtReadOp) eqn:?;
        close_case.
  - rewrite F. rewrite !andb_false_r. cbn [andb].
    destruct (raises sim AtCloseNoSlave) eqn:?; close_case.
Qed.

Lemma handle_interface_error_spec (sim : IfaceSim) (e : exn) (fr : Frame) :
  same_globals (world fr) (handle_interface_error sim e fr)
  /\ opened_interfaces (effects (handle_interface_error sim e fr))
     = opened_interfaces (effects (world fr)).
Proof.
  unfold handle_interface_error.
  destruct e; destruct (current_master fr); cbn;
    rewrite ?opened_interfaces_app; cbn; rewrite ?app_nil_r;
    repeat split; reflexivity.
Qed.

(** The loop passes over interfaces that do not work: it reaches the rest
    of the list with the globals untouched, having opened one master on
    each. *)
Lemma for_each_interface_skip (pre rest : list IfaceSim) (w : World) :
  Forall (fun s => iface_works s = false) pre ->
  exists w',
    for_each_interface (pre ++ rest) w = for_each_interface rest w'
    /\ same_globals w w'
    /\ opened_interfaces (effects w')
       = opened_interfaces (effects w) ++ map iface_name pre.
Proof.
  intros H. revert w. induction H as [ | sim pre Hsim Hpre IH]; intros w.
  - exists w. cbn. rewrite app_nil_r. repeat split; reflexivity.
  - cbn [app for_each_interface map].
    set (start := {| current_master := None; current_adecua_slave := None;
                     world := print (TryingInterface (iface_name sim)) w |}).
    destruct (try_interface_spec sim start) as (G & O & W).
    rewrite Hsim in W.
    assert (G0 : same_globals w (world start)) by (repeat split; reflexivity).
    assert (O0 : opened_interfaces (effects (world start)) = opened_interfaces (effects w))
      by reflexivity.
    destruct (try_interface sim start) as [[e | [[m s] | ]] fr] eqn:E; cbn [fst snd] in *.
    + destruct (handle_interface_error_spec sim e fr) as (G1 & O1).
      destruct (IH (handle_interface_error sim e fr)) as (w' & L & G2 & O2).
      exists w'. split; [exact L | ]. split.
      * eapply same_globals_trans; [ | exact G2].
        eapply same_globals_trans; [ | exact G1].
        eapply same_globals_trans; [exact G0 | exact G].
      * rewrite O2, O1, O, O0, <- app_assoc. reflexivity.
    + exfalso. apply (W (m, s)). reflexivity.
    + destruct (IH (world fr)) as (w' & L & G2 & O2).
      exists w'. split; [exact L | ]. split.
      * eapply same_globals_trans; [ | exact G2].
        eapply same_globals_trans; [exact G0 | exact G].
      * rewrite O2, O, O0, <- app_assoc. reflexivity.
Qed.

(** What precedes the loop (lines 34-51): no master is opened, no master is
    left in the global, and the slave global is reset with it. *)
Lemma prelude_spec (env : InitEnv) (w : World) :
  let w0 := settle (close_existing_master env
                      (print (InitAttempt (truthy (master w)) (truthy (adecua_slave w))) w)) in
  master w0 = None
  /\ adecua_slave w0 = (if truthy (master w) then None else adecua_slave w)
  /\ ethercat_status_message w0 = ethercat_status_message w
  /\ log_file w0 = log_file w
  /\ opened_interfaces (effects w0) = opened_interfaces (effects w)
  /\ exists c, console w0 = console w ++ InitAttempt (truthy (master w)) (truthy (adecua_slave w)) :: c.
Proof.
  unfold settle, close_existing_master. cbn [print master].
  destruct (master w) as [m | ] eqn:Em; cbn [truthy].
  - destruct (close_existing env); cbn; rewrite ?opened_interfaces_app; cbn;
      rewrite ?app_nil_r; repeat split; try reflexivity;
      rewrite <- ?app_assoc; cbn; eexists; reflexivity.
  - cbn [print master]. rewrite Em. cbn. rewrite ?opened_interfaces_app. cbn.
    rewrite ?app_nil_r.
    repeat split; try reflexivity; try assumption.
    rewrite <- ?app_assoc. cbn. eexists. reflexivity.
Qed.

End BringUpFacts.

(** C3.  [initialize_ethercat_device_logic] tries the interfaces in the
    order of the list.  When the interfaces before [sim] do not work and
    [sim] does, it returns [True], the globals hold the master opened on
    [sim] and the first slave of [sim] with the expected identity, and the
    masters opened during the call are those of the earlier interfaces and
    of [sim], in order: no interface after [sim] is tried. *)
Theorem bring_up_first_working_interface_wins :
  forall (pre post : list IfaceSim) (sim : IfaceSim) (closing : option exn) (w : World),
    Forall (fun s => iface_works s = false) pre ->
    iface_works sim = true ->
    let r := initialize_ethercat_device_logic
               {| close_existing := closing; interfaces := inr (pre ++ sim :: post) |} w in
    fst r = true
    /\ master (snd r) = Some {| master_iface := iface_name sim |}
    /\ (exists s, adecua_slave (snd r) = Some s
                  /\ find_adecua (iface_name sim) 0 (slaves sim) = Some s
                  /\ slave_iface s = iface_name sim
                  /\ is_adecua (slave_desc s) = true)
    /\ opened_interfaces (effects (snd r))
       = opened_interfaces (effects w) ++ map iface_name pre ++ [iface_name sim].
Proof.
  intros pre post sim closing w Hpre Hsim r. subst r.
  unfold initialize_ethercat_device_logic. cbn [interfaces].
  set (env := {| close_existing := closing; interfaces := inr (pre ++ sim :: post) |}).
  destruct (BringUpFacts.prelude_spec env w) as (_ & _ & _ & _ & O0 & _).
  set (w0 := settle _) in *.
  assert (L : match pre ++ sim :: post with
              | [] => (false, print NoInterfacesFound w0)
              | _ :: _ => for_each_interface (pre ++ sim :: post) w0
              end = for_each_interface (pre ++ sim :: post) w0).
  { destruct pre; reflexivity. }
  rewrite L. clear L.
  destruct (BringUpFacts.for_each_interface_skip pre (sim :: post) w0 Hpre)
    as (w1 & L & G & O).
  rewrite L. cbn [for_each_interface].
  set (start := {| current_master := None; current_adecua_slave := None;
                   world := print (TryingInterface (iface_name sim)) w1 |}).
  destruct (BringUpFacts.try_interface_spec sim start) as (G1 & O1 & W).
  rewrite Hsim in W. destruct W as (s & Fs & R).
  pose proof (BringUpFacts.find_adecua_existsb (iface_name sim) (slaves sim) 0) as F.
  rewrite Fs in F. destruct F as (_ & Fi & Fa).
  destruct (try_interface sim start) as [res fr] eqn:E. cbn [fst snd] in *. subst res.
  cbn [fst snd set_handles master adecua_slave effects].
  split; [reflexivity | ]. split; [reflexivity | ].
  split; [exists s; auto | ].
  rewrite O1. cbn [start world print effects]. rewrite O, O0, <- app_assoc. reflexivity.
Qed.

Lemma bring_up_first_working_interface_wins_witness :
  let r := initialize_ethercat_device_logic
             {| close_existing := None;
                interfaces := inr ([sim_no_device "wifi0"; sim_stuck "eth0"]
                                   ++ sim_el4001 "eth1" :: [sim_el4001 "eth2"]) |}
             initial_world in
  fst r = true
  /\ master (snd r) = Some {| master_iface := iface_name (sim_el4001 "eth1") |}
  /\ (exists s, adecua_slave (snd r) = Some s
                /\ find_adecua (iface_name (sim_el4001 "eth1")) 0
                     (slaves (sim_el4001 "eth1")) = Some s
                /\ slave_iface s = iface_name (sim_el4001 "eth1")
                /\ is_adecua (slave_desc s) = true)
  /\ opened_interfaces (effects (snd r))
     = opened_interfaces (effects initial_world)
       ++ map iface_name [sim_no_device "wifi0"; sim_stuck "eth0"]
       ++ [iface_name (sim_el4001 "eth1")].
Proof.
  apply (bring_up_first_working_interface_wins
           [sim_no_device "wifi0"; sim_stuck "eth0"] [sim_el4001 "eth2"]
           (sim_el4001 "eth1") None initial_world).
  - repeat constructor.
  - reflexivity.
Defined.

(** C6.  When no interface of the list works,
    [initialize_ethercat_device_logic] returns [False].  On an empty list
    it does so before any interface is tried (no master is opened) and the
    last line it prints is the one of [NoInterfacesFound]; on a non-empty
    list it has tried every interface in order, the last line it prints is
    the one of [NoWorkingInterfaceFound], and both handles are cleared.
    The two reports differ. *)
Theorem bring_up_failure_modes :
  forall (l : list IfaceSim) (closing : option exn) (w : World),
    Forall (fun s => iface_works s = false) l ->
    let r := initialize_ethercat_device_logic
               {| close_existing := closing; interfaces := inr l |} w in
    fst r = false
    /\ match l with
       | [] =>
           last (console (snd r)) SettleDelay = NoInterfacesFound
           /\ opened_interfaces (effects (snd r)) = opened_interfaces (effects w)
       | _ :: _ =>
           last (console (snd r)) SettleDelay = NoWorkingInterfaceFound
           /\ master (snd r) = None
           /\ adecua_slave (snd r) = None
           /\ opened_interfaces (effects (snd r))
              = opened_interfaces (effects w) ++ map iface_name l
       end
    /\ NoInterfacesFound <> NoWorkingInterfaceFound.
Proof.
  intros l closing w Hl r. subst r.
  unfold initialize_ethercat_device_logic. cbn [interfaces].
  set (env := {| close_existing := closing; interfaces := inr l |}).
  destruct (BringUpFacts.prelude_spec env w) as (_ & _ & _ & _ & O0 & _).
  set (w0 := settle _) in *.
  destruct l as [ | sim l].
  - cbn [fst snd print console effects].
    split; [reflexivity | ]. split; [ | discriminate].
    split; [apply last_last | exact O0].
  - destruct (BringUpFacts.for_each_interface_skip (sim :: l) [] w0 Hl) as (w1 & L & G & O).
    rewrite app_nil_r in L. rewrite L.
    cbn [for_each_interface fst snd set_handles print master adecua_slave console effects].
    split; [reflexivity | ]. split; [ | discriminate].
    split; [apply last_last | ]. split; [reflexivity | ]. split; [reflexivity | ].
    rewrite O, O0. reflexivity.
Qed.

Lemma bring_up_failure_modes_witness :
  let r := initialize_ethercat_device_logic
             {| close_existing := None;
                interfaces := inr [sim_no_device "wifi0"; sim_stuck "eth0"] |}
             world_connected in
  fst r = false
  /\ (last (console (snd r)) SettleDelay = NoWorkingInterfaceFound
      /\ master (snd r) = None
      /\ adecua_slave (snd r) = None
      /\ opened_interfaces (effects (snd r))
         = opened_interfaces (effects world_connected)
           ++ map iface_name [sim_no_device "wifi0"; sim_stuck "eth0"])
  /\ NoInterfacesFound <> NoWorkingInterfaceFound.
Proof.
  apply (bring_up_failure_modes [sim_no_device "wifi0"; sim_stuck "eth0"] None world_connected).
  repeat constructor.
Defined.

(** ** The two handles go together *)

Module HandleFacts.

Lemma paired_none (w : World) :
  handles_paired w -> master w = None -> adecua_slave w = None.
Proof.
  unfold handles_paired. intros H E. rewrite E in H.
  destruct (adecua_slave w); [discriminate | reflexivity].
Qed.

Lemma paired_iff (w : World) :
  handles_paired w <-> (master w = None <-> adecua_slave w = None).
Proof.
  unfold handles_paired.
  destruct (master w), (adecua_slave w); cbn; split; try reflexivity;
    try discriminate; try (intros [H1 H2]; try (discriminate (H1 eq_refl));
                           try (discriminate (H2 eq_refl))); intros; split; intros; congruence.
Qed.

Lemma paired_same_globals (w w' : World) :
  same_globals w w' -> handles_paired w -> handles_paired w'.
Proof.
  unfold same_globals, handles_paired. intros (E1 & E2 & _) H. rewrite E1, E2. exact H.
Qed.

(** The loop ends with both handles set, or with both cleared. *)
Lemma for_each_interface_handles (l : list IfaceSim) (w : World) :
  if fst (for_each_interface l w)
  then exists m s,
         master (snd (for_each_interface l w)) = Some m
         /\ adecua_slave (snd (for_each_interface l w)) = Some s
  else master (snd (for_each_interface l w)) = None
       /\ adecua_slave (snd (for_each_interface l w)) = None.
Proof.
  revert w. induction l as [ | sim l IH]; intros w; cbn [for_each_interface].
  - cbn. split; reflexivity.
  - destruct (try_interface sim _) as [[e | [[m s] | ]] fr].
    + apply IH.
    + cbn. exists m, s. split; reflexivity.
    + apply IH.
Qed.

Lemma initialize_handles (env : InitEnv) (w : World) :
  handles_paired w ->
  if fst (initialize_ethercat_device_logic env w)
  then exists m s,
         master (snd (initialize_ethercat_device_logic env w)) = Some m
         /\ adecua_slave (snd (initialize_ethercat_device_logic env w)) = Some s
  else master (snd (initialize_ethercat_device_logic env w)) = None
       /\ adecua_slave (snd (initialize_ethercat_device_logic env w)) = None.
Proof.
  intros P. unfold initialize_ethercat_device_logic.
  destruct (BringUpFacts.prelude_spec env w) as (M0 & S0 & _).
  set (w0 := settle _) in *.
  assert (S1 : adecua_slave w0 = None).
  { rewrite S0. destruct (master w) eqn:E; [reflexivity | ].
    cbn. apply paired_none; assumption. }
  destruct (interfaces env) as [e | [ | sim l]].
  - cbn. auto.
  - cbn. auto.
  - apply for_each_interface_handles.
Qed.

Lemma initialize_paired (env : InitEnv) (w : World) :
  handles_paired w -> handles_paired (snd (initialize_ethercat_device_logic env w)).
Proof.
  intros P. pose proof (initialize_handles env w P) as H. unfold handles_paired.
  destruct (fst (initialize_ethercat_device_logic env w)).
  - destruct H as (m & s & -> & ->). reflexivity.
  - destruct H as (-> & ->). reflexivity.
Qed.

Lemma exchange_same_globals (env : SendEnv) (m : Master) (s : Slave) (v : float) (w : World) :
  same_globals w (snd (exchange env m s v w)).
Proof.
  unfold exchange, bind, lift, bus_call, ret, raise.
  destruct (raw_of_voltage (clamp_voltage v)) as [e | raw];
    [apply BringUpFacts.same_globals_refl | ].
  destruct (raw_bytes raw) as [e | b]; [apply BringUpFacts.same_globals_refl | ].
  destruct (on_set_output env), (on_send_processdata env), (on_receive_processdata env);
    repeat split; reflexivity.
Qed.

Lemma send_to_device_paired (env : SendEnv) (v : float) (w : World) :
  handles_paired w -> handles_paired (snd (send_to_device env v w)).
Proof.
  intros P. unfold send_to_device.
  destruct (master w) as [m | ] eqn:Em; [destruct (adecua_slave w) as [s | ] eqn:Es | ];
    try exact P.
  destruct (negb (master_is_operational env)
            || negb (SlaveState_eqb (slave_state env) OPERATIONAL_STATE)).
  - exact P.
  - pose proof (exchange_same_globals env m s v
                  (emit (IsState (master_iface m) OPERATIONAL_STATE) w)) as G.
    destruct (exchange env m s v _) as [[[msg | msg] | v'] w'].
    + reflexivity.
    + reflexivity.
    + cbn [snd] in *. destruct G as (G1 & G2 & _).
      unfold handles_paired. cbn. rewrite G1, G2. cbn. exact P.
Qed.

Lemma handle_fan_control_paired (env : FanEnv) (w : World) :
  handles_paired w -> handles_paired (snd (handle_fan_control env w)).
Proof.
  intros P. unfold handle_fan_control.
  destruct (String.eqb (triggered_id env) "stop-button.n_clicks").
  - pose proof (send_to_device_paired (fan_send env) 0%float w P) as H.
    destruct (send_to_device (fan_send env) 0%float w) as [ok w']. exact H.
  - pose proof (send_to_device_paired (fan_send env) (calculate_voltage (kmh_value env)) w P) as H.
    destruct (send_to_device (fan_send env) (calculate_voltage (kmh_value env)) w) as [ok w'].
    exact H.
Qed.

Lemma check_ethercat_status_paired (env : CheckEnv) (w : World) :
  handles_paired w -> handles_paired (snd (check_ethercat_status env w)).
Proof.
  intros P. unfold check_ethercat_status.
  assert (Q : handles_paired (snd (current_state_ok env w))).
  { unfold current_state_ok. destruct (master w) eqn:Em; [ | exact P].
    destruct (check_master_is_operational env); [ | exact P].
    cbn [emit adecua_slave]. destruct (adecua_slave w); exact P. }
  destruct (current_state_ok env w) as [ok w1]. cbn [snd] in Q.
  destruct ok; cbn [negb].
  - destruct (negb (str_in _ _)); exact Q.
  - pose proof (initialize_paired (check_init env) w1 Q) as H.
    destruct (initialize_ethercat_device_logic (check_init env) w1) as [ok w2].
    destruct ok; exact H.
Qed.

Lemma reconnect_paired (n : option Z) (env : InitEnv) (w w' : World) (msg : string) :
  handles_paired w ->
  reconnect_ethercat_manual n env w = Some (msg, w') -> handles_paired w'.
Proof.
  intros P. unfold reconnect_ethercat_manual.
  destruct n as [[ | p | p] | ]; try discriminate;
    pose proof (initialize_paired env w P) as H;
    destruct (initialize_ethercat_device_logic env w) as [ok w2];
    destruct ok; intros E; injection E as _ <-; exact H.
Qed.

Lemma step_paired (w w' : World) : step w w' -> handles_paired w -> handles_paired w'.
Proof.
  intros S P. destruct S.
  - apply initialize_paired. exact P.
  - apply send_to_device_paired. exact P.
  - apply handle_fan_control_paired. exact P.
  - eapply reconnect_paired; eassumption.
  - apply check_ethercat_status_paired. exact P.
Qed.

Lemma reachable_paired (w : World) : reachable w -> handles_paired w.
Proof.
  induction 1 as [ | w w' R IH S].
  - reflexivity.
  - exact (step_paired w w' S IH).
Qed.

End HandleFacts.

(** C10.  In every world the program can reach by its operations (the
    bring-up, the write, and the callbacks that run them), the master
    handle is absent exactly when the slave handle is; and a bring-up
    started there ends with both handles set when it returns [True] and
    with both cleared when it returns [False]. *)
Theorem handles_always_paired :
  forall w : World,
    reachable w ->
    (master w = None <-> adecua_slave w = None)
    /\ forall env : InitEnv,
         if fst (initialize_ethercat_device_logic env w)
         then exists m s,
                master (snd (initialize_ethercat_device_logic env w)) = Some m
                /\ adecua_slave (snd (initialize_ethercat_device_logic env w)) = Some s
         else master (snd (initialize_ethercat_device_logic env w)) = None
              /\ adecua_slave (snd (initialize_ethercat_device_logic env w)) = None.
Proof.
  intros w R. pose proof (HandleFacts.reachable_paired w R) as P. split.
  - apply HandleFacts.paired_iff. exact P.
  - intros env. apply HandleFacts.initialize_handles. exact P.
Qed.

Lemma world_connected_reachable : reachable world_connected.
Proof.
  unfold world_connected.
  eapply reachable_step; [apply reachable_initial | apply step_init].
Defined.

Lemma handles_always_paired_witness :
  (master world_connected = None <-> adecua_slave world_connected = None)
  /\ forall env : InitEnv,
       if fst (initialize_ethercat_device_logic env world_connected)
       then exists m s,
              master (snd (initialize_ethercat_device_logic env world_connected)) = Some m
              /\ adecua_slave (snd (initialize_ethercat_device_logic env world_connected)) = Some s
       else master (snd (initialize_ethercat_device_logic env world_connected)) = None
            /\ adecua_slave (snd (initialize_ethercat_device_logic env world_connected)) = None.
Proof.
  apply (handles_always_paired world_connected). exact world_connected_reachable.
Defined.

(** ** Cyclic write *)

Module SendFacts.

Import Binary64 Binary64Facts PyFloatFacts VoltageMapperFacts.

Lemma filter_bus_io_app (l1 l2 : list Effect) :
  filter is_bus_io (l1 ++ l2) = filter is_bus_io l1 ++ filter is_bus_io l2.
Proof. apply filter_app. Qed.

Lemma MAX_VOLTAGE_key :
  is_num MAX_VOLTAGE = true /\ 0 < fkey MAX_VOLTAGE < 2047 * 9007199254740992.
Proof. vm_compute. repeat split; reflexivity. Qed.

Lemma clamp_voltage_range (voltage : float) :
  is_num (clamp_voltage voltage) = true
  /\ 0 <= fkey (clamp_voltage voltage) <= fkey MAX_VOLTAGE.
Proof.
  destruct MAX_VOLTAGE_key as [Hn Hk].
  apply (pyclamp_range 0%float MAX_VOLTAGE voltage); [reflexivity | exact Hn | ].
  change (fkey 0%float) with 0. lia.
Qed.

(** The product of line 169 is a float between 0 and 32767. *)
Lemma scaled_range (voltage : float) :
  is_num ((clamp_voltage voltage / MAX_VOLTAGE) * 32767)%float = true
  /\ 0 <= fkey ((clamp_voltage voltage / MAX_VOLTAGE) * 32767)%float
       <= fkey 32767%float.
Proof.
  destruct (clamp_voltage_range voltage) as [Hc Kc].
  destruct (ratio_range _ Hc Kc) as [Hq Kq].
  destruct one_key as [H1 K1].
  apply (mul_between (clamp_voltage voltage / MAX_VOLTAGE) 1%float 32767%float);
    try assumption; reflexivity.
Qed.

(** [int] never raises on the product of line 169, and the raw value lies
    in the range of the output register. *)
Lemma raw_of_voltage_defined (voltage : float) :
  exists q : Z,
    int_of_float ((clamp_voltage voltage / MAX_VOLTAGE) * 32767)%float = inr q
    /\ raw_of_voltage (clamp_voltage voltage) = inr (Z.max 0 (Z.min q 32767)).
Proof.
  destruct (scaled_range voltage) as [Hn Hk].
  assert (F : nonneg_fin (Prim2SF ((clamp_voltage voltage / MAX_VOLTAGE) * 32767)%float) = true).
  { apply nonneg_fin_key; [exact Hn | ].
    assert (fkey 32767%float < 2047 * 9007199254740992) by (vm_compute; reflexivity). lia. }
  unfold raw_of_voltage, int_of_float.
  destruct (Prim2SF ((clamp_voltage voltage / MAX_VOLTAGE) * 32767)%float)
    as [s | s | | [ | ] m e]; try discriminate F; eexists; split; reflexivity.
Qed.

Lemma byte_of_Z_roundtrip (z : Z) : 0 <= z < 256 -> Z_of_byte (byte_of_Z z) = z.
Proof.
  intros H. unfold Z_of_byte, byte_of_Z.
  destruct (Byte.of_N (Z.to_N z)) as [b | ] eqn:E.
  - apply Byte.to_of_N in E. rewrite E. apply Z2N.id. lia.
  - apply Byte.of_N_None_iff in E. lia.
Qed.

(** The two bytes of a raw value of the register, low byte first. *)
Lemma raw_bytes_little_endian (raw : Z) :
  0 <= raw <= 32767 ->
  raw_bytes raw = inr [byte_of_Z (raw mod 256); byte_of_Z (raw / 256)]
  /\ from_bytes_little [byte_of_Z (raw mod 256); byte_of_Z (raw / 256)] = raw.
Proof.
  intros H. unfold raw_bytes, to_bytes_little_signed, AO1_OUTPUT_SIZE.
  set (half := 2 ^ (8 * Z.of_nat 2 - 1)).
  assert (Eh : half = 32768) by reflexivity.
  assert (T : (- half <=? raw) && (raw <? half) = true).
  { apply andb_true_intro. split; [apply Z.leb_le | apply Z.ltb_lt]; lia. }
  rewrite T, Eh. cbn [little_endian].
  rewrite (Z.mod_small raw (2 * 32768)) by lia.
  assert (D : 0 <= raw / 256 < 128).
  { split; [apply Z.div_pos; lia | apply Z.div_lt_upper_bound; lia]. }
  rewrite (Z.mod_small (raw / 256) 256) by lia.
  split; [reflexivity | ].
  cbn [from_bytes_little].
  rewrite !byte_of_Z_roundtrip by (try apply Z.mod_pos_bound; lia).
  pose proof (Z.div_mod raw 256 ltac:(lia)). lia.
Qed.

End SendFacts.

(** C4.  When a handle is missing, or the master or the slave does not
    report OPERATIONAL, [send_to_device] returns [False] without raising;
    it leaves both handles and the log as they were, and its only call into
    pysoem is the query of the master's state (made when both handles
    exist): nothing is written to the output image, nothing is sent or
    received. *)
Theorem write_voltage_not_ready :
  forall (env : SendEnv) (voltage : float) (w : World),
    link_ready env w = false ->
    fst (send_to_device env voltage w) = false
    /\ master (snd (send_to_device env voltage w)) = master w
    /\ adecua_slave (snd (send_to_device env voltage w)) = adecua_slave w
    /\ log_file (snd (send_to_device env voltage w)) = log_file w
    /\ effects (snd (send_to_device env voltage w))
       = effects w
         ++ match master w, adecua_slave w with
            | Some m, Some _ => [IsState (master_iface m) OPERATIONAL_STATE]
            | _, _ => []
            end
    /\ filter is_bus_io (effects (snd (send_to_device env voltage w)))
       = filter is_bus_io (effects w).
Proof.
  intros env voltage w H. unfold link_ready in H. unfold send_to_device.
  destruct (master w) as [m | ] eqn:Em; [destruct (adecua_slave w) as [s | ] eqn:Es | ];
    cbn [truthy andb] in H.
  - destruct (master_is_operational env); cbn [negb orb andb] in *.
    + rewrite H. cbn. rewrite Em, Es, SendFacts.filter_bus_io_app. cbn.
      rewrite app_nil_r. repeat split; reflexivity.
    + cbn. rewrite Em, Es, SendFacts.filter_bus_io_app. cbn.
      rewrite app_nil_r. repeat split; reflexivity.
  - cbn. rewrite Em, Es, app_nil_r. repeat split; reflexivity.
  - cbn. rewrite Em, app_nil_r. repeat split; reflexivity.
Qed.

Lemma write_voltage_not_ready_witness :
  fst (send_to_device bus_ok 5%float initial_world) = false
  /\ master (snd (send_to_device bus_ok 5%float initial_world)) = master initial_world
  /\ adecua_slave (snd (send_to_device bus_ok 5%float initial_world))
     = adecua_slave initial_world
  /\ log_file (snd (send_to_device bus_ok 5%float initial_world)) = log_file initial_world
  /\ effects (snd (send_to_device bus_ok 5%float initial_world))
     = effects initial_world
       ++ match master initial_world, adecua_slave initial_world with
          | Some m, Some _ => [IsState (master_iface m) OPERATIONAL_STATE]
          | _, _ => []
          end
  /\ filter is_bus_io (effects (snd (send_to_device bus_ok 5%float initial_world)))
     = filter is_bus_io (effects initial_world).
Proof.
  apply (write_voltage_not_ready bus_ok 5%float initial_world). reflexivity.
Defined.

(** C5.  When the link is ready and the bus raises during the write of the
    output image, the send or the receive, [send_to_device] returns
    [False] with both handles cleared; a supervisor tick that follows
    finds the link unhealthy, whatever the bus reports, and runs a
    bring-up from the cleared handles. *)
Theorem bus_error_tears_down_handles :
  forall (env : SendEnv) (voltage : float) (w : World) (e : exn),
    link_ready env w = true ->
    exchange_error env = Some e ->
    fst (send_to_device env voltage w) = false
    /\ master (snd (send_to_device env voltage w)) = None
    /\ adecua_slave (snd (send_to_device env voltage w)) = None
    /\ forall tick : CheckEnv,
         healthy tick (snd (send_to_device env voltage w)) = false
         /\ check_ethercat_status tick (snd (send_to_device env voltage w))
            = recover tick (snd (send_to_device env voltage w)).
Proof.
  intros env voltage w e R X. unfold link_ready in R.
  assert (T : fst (send_to_device env voltage w) = false
              /\ master (snd (send_to_device env voltage w)) = None
              /\ adecua_slave (snd (send_to_device env voltage w)) = None).
  { unfold send_to_device.
    destruct (master w) as [m | ]; [ | discriminate R].
    destruct (adecua_slave w) as [s | ]; [ | discriminate R].
    cbn [truthy andb] in R. apply andb_true_iff in R. destruct R as [R1 R2].
    rewrite R1, R2. cbn [negb orb].
    assert (F : exists ex w', exchange env m s voltage
                   (emit (IsState (master_iface m) OPERATIONAL_STATE) w) = (inl ex, w')).
    { unfold exchange, bind, lift, bus_call, ret, raise. unfold exchange_error in X.
      destruct (raw_of_voltage (clamp_voltage voltage)) as [ex | raw]; [eauto | ].
      destruct (raw_bytes raw) as [ex | b]; [eauto | ].
      destruct (on_set_output env); [eauto | ].
      destruct (on_send_processdata env); [eauto | ].
      destruct (on_receive_processdata env); [eauto | discriminate X]. }
    destruct F as (ex & w' & ->). destruct ex; cbn; repeat split; reflexivity. }
  destruct T as (T1 & T2 & T3). repeat split; try assumption.
  - unfold healthy. rewrite T2. reflexivity.
  - unfold check_ethercat_status, current_state_ok, recover. rewrite T2.
    cbn [negb].
    destruct (initialize_ethercat_device_logic (check_init tick) _) as [ok w2].
    destruct ok; reflexivity.
Qed.

Lemma bus_error_tears_down_handles_witness :
  fst (send_to_device bus_receive_fails 5%float world_connected) = false
  /\ master (snd (send_to_device bus_receive_fails 5%float world_connected)) = None
  /\ adecua_slave (snd (send_to_device bus_receive_fails 5%float world_connected)) = None
  /\ forall tick : CheckEnv,
       healthy tick (snd (send_to_device bus_receive_fails 5%float world_connected)) = false
       /\ check_ethercat_status tick (snd (send_to_device bus_receive_fails 5%float world_connected))
          = recover tick (snd (send_to_device bus_receive_fails 5%float world_connected)).
Proof.
  apply (bus_error_tears_down_handles bus_receive_fails 5%float world_connected
           (SOEMError "receive timeout")); reflexivity.
Defined.

(** C1, as the program has it.  When the link is ready, [send_to_device]
    clamps the voltage to [0, MAX_VOLTAGE], takes the integer part [q] of
    [clamp / MAX_VOLTAGE * 32767] (a truncation, which never raises here),
    clamps it to [raw] in [0, 32767], and writes the two bytes of [raw],
    low byte first, to bytes 0..2 of the output image, right after the
    query of the master's state; with no error on the bus it then sends,
    receives and returns [True]. *)
Theorem write_voltage_truncates_and_encodes :
  forall (env : SendEnv) (voltage : float) (w : World) (m : Master) (s : Slave),
    master w = Some m -> adecua_slave w = Some s ->
    master_is_operational env = true -> slave_state env = OPERATIONAL_STATE ->
    exists (q raw : Z) (rest : list Effect),
      (0 <=? clamp_voltage voltage)%float = true
      /\ (clamp_voltage voltage <=? MAX_VOLTAGE)%float = true
      /\ int_of_float ((clamp_voltage voltage / MAX_VOLTAGE) * 32767)%float = inr q
      /\ raw = Z.max 0 (Z.min q 32767)
      /\ 0 <= raw <= 32767
      /\ from_bytes_little [byte_of_Z (raw mod 256); byte_of_Z (raw / 256)] = raw
      /\ effects (snd (send_to_device env voltage w))
         = effects w
           ++ IsState (master_iface m) OPERATIONAL_STATE
              :: SetOutput (slave_iface s) (slave_position s) 0 2
                   [byte_of_Z (raw mod 256); byte_of_Z (raw / 256)]
              :: rest
      /\ match exchange_error env with
         | None =>
             fst (send_to_device env voltage w) = true
             /\ rest = [SendProcessdata (master_iface m);
                        ReceiveProcessdata (master_iface m) 1000]
         | Some _ => fst (send_to_device env voltage w) = false
         end.
Proof.
  intros env voltage w m s Em Es Hm Hs.
  destruct (SendFacts.clamp_voltage_range voltage) as [Hc Kc].
  destruct SendFacts.MAX_VOLTAGE_key as [Hn Hk].
  destruct (SendFacts.raw_of_voltage_defined voltage) as (q & Eq & Er).
  set (raw := Z.max 0 (Z.min q 32767)) in *.
  assert (Hr : 0 <= raw <= 32767) by (unfold raw; lia).
  destruct (SendFacts.raw_bytes_little_endian raw Hr) as [Eb Ed].
  unfold send_to_device, exchange_error. rewrite Em, Es, Hm, Hs. cbn [SlaveState_eqb negb orb].
  unfold exchange, bind, lift, bus_call, ret, raise. rewrite Er, Eb.
  change (AO1_OUTPUT_OFFSET + Z.of_nat AO1_OUTPUT_SIZE) with 2.
  change AO1_OUTPUT_OFFSET with 0.
  exists q, raw.
  destruct (on_set_output env) as [[msg | msg] | ];
    [ | | destruct (on_send_processdata env) as [[msg | msg] | ];
          [ | | destruct (on_receive_processdata env) as [[msg | msg] | ] ] ];
    eexists;
    (split; [apply Binary64Facts.leb_true_intro; [reflexivity | exact Hc | exact (proj1 Kc)] | ]);
    (split; [apply Binary64Facts.leb_true_intro; [exact Hc | exact Hn | exact (proj2 Kc)] | ]);
    (split; [exact Eq | ]); (split; [reflexivity | ]); (split; [exact Hr | ]);
    (split; [exact Ed | ]);
    cbn [fst snd teardown set_message set_handles emit effects master];
    rewrite ?Em;
    cbn [fst snd set_handles set_message emit effects];
    rewrite <- ?app_assoc; cbn [app]; repeat split; reflexivity.
Qed.

Lemma write_voltage_truncates_and_encodes_witness :
  exists (q raw : Z) (rest : list Effect),
    (0 <=? clamp_voltage 5)%float = true
    /\ (clamp_voltage 5 <=? MAX_VOLTAGE)%float = true
    /\ int_of_float ((clamp_voltage 5 / MAX_VOLTAGE) * 32767)%float = inr q
    /\ raw = Z.max 0 (Z.min q 32767)
    /\ 0 <= raw <= 32767
    /\ from_bytes_little [byte_of_Z (raw mod 256); byte_of_Z (raw / 256)] = raw
    /\ effects (snd (send_to_device bus_ok 5%float world_connected))
       = effects world_connected
         ++ IsState (master_iface {| master_iface := "eth0" |}) OPERATIONAL_STATE
            :: SetOutput
                 (slave_iface {| slave_iface := "eth0"; slave_position := 0;
                                 slave_desc := {| vendor_id := 2; product_code := 1568791 |} |})
                 (slave_position {| slave_iface := "eth0"; slave_position := 0;
                                    slave_desc := {| vendor_id := 2; product_code := 1568791 |} |})
                 0 2 [byte_of_Z (raw mod 256); byte_of_Z (raw / 256)]
            :: rest
    /\ match exchange_error bus_ok with
       | None =>
           fst (send_to_device bus_ok 5%float world_connected) = true
           /\ rest = [SendProcessdata (master_iface {| master_iface := "eth0" |});
                      ReceiveProcessdata (master_iface {| master_iface := "eth0" |}) 1000]
       | Some _ => fst (send_to_device bus_ok 5%float world_connected) = false
       end.
Proof.
  apply (write_voltage_truncates_and_encodes bus_ok 5%float world_connected
           {| master_iface := "eth0" |}
           {| slave_iface := "eth0"; slave_position := 0;
              slave_desc := {| vendor_id := 2; product_code := 1568791 |} |});
    reflexivity.
Defined.

(** C1 as stated fails: the program takes the integer part, it does not
    round.  At 5.0 V the product is 16383.5: the program writes 16383
    (bytes ff 3f) where rounding gives 16384 (bytes 00 40); at 1.0 V it
    writes 3276 where rounding gives 3277. *)
Lemma write_voltage_does_not_round :
  int_of_float ((clamp_voltage 5 / MAX_VOLTAGE) * 32767)%float = inr 16383
  /\ round_of_float ((clamp_voltage 5 / MAX_VOLTAGE) * 32767)%float = inr 16384
  /\ effects (snd (send_to_device bus_ok 5%float world_connected))
     = effects world_connected
       ++ [IsState "eth0" OPERATIONAL_STATE;
           SetOutput "eth0" 0 0 2 [xff; x3f];
           SendProcessdata "eth0";
           ReceiveProcessdata "eth0" 1000]
  /\ raw_bytes 16384 = inr [x00; x40]
  /\ raw_of_voltage (clamp_voltage 1) = inr 3276
  /\ round_of_float ((clamp_voltage 1 / MAX_VOLTAGE) * 32767)%float = inr 3277.
Proof.
  repeat split; vm_compute; reflexivity.
Qed.

(** ** Command callback and supervisor *)

Module CallbackFacts.

Lemma send_to_device_log (env : SendEnv) (v : float) (w : World) :
  log_file (snd (send_to_device env v w)) = log_file w.
Proof.
  unfold send_to_device.
  destruct (master w) as [m | ] eqn:Em; [destruct (adecua_slave w) as [s | ] eqn:Es | ];
    try reflexivity.
  destruct (negb (master_is_operational env)
            || negb (SlaveState_eqb (slave_state env) OPERATIONAL_STATE)); [reflexivity | ].
  pose proof (HandleFacts.exchange_same_globals env m s v
                (emit (IsState (master_iface m) OPERATIONAL_STATE) w)) as (_ & _ & _ & G).
  destruct (exchange env m s v _) as [[[msg | msg] | v'] w']; cbn [snd] in *;
    unfold teardown; cbn [set_message master];
    try destruct (master w'); cbn; exact G.
Qed.

(** What [handle_fan_control] logs: the speed it was given, not the
    clamped one. *)
Lemma handle_fan_control_log (env : FanEnv) (w : World) :
  log_file (snd (handle_fan_control env w))
  = log_file w
    ++ [[fan_timestamp env;
         format_2f (if String.eqb (triggered_id env) "stop-button.n_clicks"
                    then 0%float else kmh_value env);
         format_2f (if String.eqb (triggered_id env) "stop-button.n_clicks"
                    then 0%float else calculate_voltage (kmh_value env))]].
Proof.
  unfold handle_fan_control.
  destruct (String.eqb (triggered_id env) "stop-button.n_clicks").
  - pose proof (send_to_device_log (fan_send env) 0%float w) as L.
    destruct (send_to_device (fan_send env) 0%float w) as [ok w'].
    cbn [snd log_action write_row log_file] in *. rewrite L. reflexivity.
  - pose proof (send_to_device_log (fan_send env) (calculate_voltage (kmh_value env)) w) as L.
    destruct (send_to_device (fan_send env) (calculate_voltage (kmh_value env)) w) as [ok w'].
    cbn [snd log_action write_row log_file] in *. rewrite L. reflexivity.
Qed.

(** On a healthy link the supervisor keeps a status that contains
    "Connesso e in OPERATIONAL" and replaces every other one. *)
Lemma check_ethercat_status_healthy (env : CheckEnv) (w : World) :
  healthy env w = true ->
  fst (check_ethercat_status env w)
  = if str_in "Connesso e in OPERATIONAL" (ethercat_status_message w)
    then ethercat_status_message w
    else connected_message.
Proof.
  unfold healthy, check_ethercat_status, current_state_ok. intros H.
  destruct (master w) as [m | ]; [ | discriminate H].
  cbn [truthy andb] in H.
  destruct (check_master_is_operational env); [ | discriminate H].
  cbn [andb emit adecua_slave] in *.
  destruct (adecua_slave w) as [s | ]; [ | discriminate H].
  cbn [truthy andb] in H. rewrite H. cbn [negb emit ethercat_status_message].
  destruct (str_in "Connesso e in OPERATIONAL" (ethercat_status_message w)); reflexivity.
Qed.

End CallbackFacts.

(** C2, as the program has it.  Every call of [handle_fan_control] appends
    exactly one row to the log, whatever [send_to_device] returned: the
    timestamp, the speed as it was requested (0.00 for the stop button)
    and the voltage computed from it.  A request of 12 km/h logs the speed
    "12.00" with the voltage "10.00", on any bus and in any world. *)
Theorem apply_speed_logs_requested_speed :
  forall (env : FanEnv) (w : World),
    log_file (snd (handle_fan_control env w))
    = log_file w
      ++ [[fan_timestamp env;
           format_2f (if String.eqb (triggered_id env) "stop-button.n_clicks"
                      then 0%float else kmh_value env);
           format_2f (if String.eqb (triggered_id env) "stop-button.n_clicks"
                      then 0%float else calculate_voltage (kmh_value env))]]
    /\ forall (bus : SendEnv) (timestamp : string),
         log_file (snd (handle_fan_control (apply_12 bus timestamp) w))
         = log_file w ++ [[timestamp; "12.00"%string; "10.00"%string]].
Proof.
  intros env w. split.
  - apply CallbackFacts.handle_fan_control_log.
  - intros bus timestamp.
    rewrite CallbackFacts.handle_fan_control_log. reflexivity.
Qed.

(** C2 as stated fails: for a request of 12 km/h the speed field of the
    row is "12.00", not the clamped "10.00", whether the write succeeded
    (connected link) or not (no link). *)
Lemma apply_speed_logs_unclamped_speed :
  log_file (snd (handle_fan_control (apply_12 bus_ok "2025-06-01T10:00:00") world_connected))
  = [["2025-06-01T10:00:00"; "12.00"; "10.00"]]%string
  /\ log_file (snd (handle_fan_control (apply_12 bus_ok "2025-06-01T10:00:00") initial_world))
     = [["2025-06-01T10:00:00"; "12.00"; "10.00"]]%string
  /\ format_2f (clamp_kmh 12) = "10.00"%string
  /\ String.eqb "12.00" "10.00" = false.
Proof.
  repeat split; vm_compute; reflexivity.
Qed.

(** C9 fails on the program.  On a healthy link the supervisor replaces
    the status left by a successful write, and the one left by a manual
    reconnection ("Riconnesso" does not contain "Connesso"), by the
    connected message; only a status that already contains "Connesso e in
    OPERATIONAL" is kept. *)
Lemma check_overwrites_specific_status :
  ethercat_status_message (snd (send_to_device bus_ok 5%float world_connected))
  = "EtherCAT: OK. Ultima tensione: 5.00 V."%string
  /\ healthy tick_healthy (snd (send_to_device bus_ok 5%float world_connected)) = true
  /\ fst (check_ethercat_status tick_healthy
            (snd (send_to_device bus_ok 5%float world_connected)))
     = "EtherCAT: Connesso e in OPERATIONAL."%string
  /\ fst (check_ethercat_status tick_healthy
            (set_message "EtherCAT: Riconnesso e in OPERATIONAL." world_connected))
     = "EtherCAT: Connesso e in OPERATIONAL."%string
  /\ fst (check_ethercat_status tick_healthy
            (set_message "EtherCAT: Connesso e in OPERATIONAL." world_connected))
     = "EtherCAT: Connesso e in OPERATIONAL."%string.
Proof.
  repeat split; vm_compute; reflexivity.
Qed.

(** ** Examples *)

Example format_2f_examples :
  format_2f 12%float = "12.00"%string
  /\ format_2f 0.125%float = "0.12"%string
  /\ format_2f 0.375%float = "0.38"%string
  /\ format_2f (-0.5)%float = "-0.50"%string
  /\ format_2f (0 / 0)%float = "nan"%string.
Proof. repeat split; vm_compute; reflexivity. Qed.

Example to_bytes_examples :
  to_bytes_little_signed 32767 2 = Some [xff; x7f]
  /\ to_bytes_little_signed (-2) 2 = Some [xfe; xff]
  /\ to_bytes_little_signed 32768 2 = None.
Proof. repeat split; vm_compute; reflexivity. Qed.

Example calculate_voltage_examples :
  calculate_voltage 5%float = 5%float
  /\ calculate_voltage (-1)%float = 0%float
  /\ calculate_voltage (0 / 0)%float = 0%float
  /\ calculate_voltage 2.5%float = 2.5%float.
Proof. repeat split; vm_compute; reflexivity. Qed.

(** The bring-up over a wireless adapter and a wired one. *)
Example bring_up_trace :
  effects world_connected
  = [Sleep 3000;
     MasterOpen "wifi0"; ConfigInit "wifi0"; ConfigDc "wifi0"; MasterClose "wifi0";
     MasterOpen "eth0"; ConfigInit "eth0"; ConfigDc "eth0"; ConfigMap "eth0";
     StateCheck "eth0" SAFEOP_STATE 2000; ReadState "eth0";
     SetSlaveState "eth0" 0 OPERATIONAL_STATE;
     StateCheck "eth0" OPERATIONAL_STATE 2000; ReadState "eth0"]
  /\ console world_connected
     = [InitAttempt false false; SettleDelay;
        TryingInterface "wifi0"; MasterCreated "wifi0"; NoSlaveOnInterface "wifi0";
        TryingInterface "eth0"; MasterCreated "eth0"; SlaveFound "eth0";
        GoingSafeOp; InSafeOp; DeviceOperational "eth0"].
Proof. split; vm_compute; reflexivity. Qed.

(** A bring-up with no adapter at all: after the settle delay it gives
    up, and nothing is opened. *)
Example bring_up_without_adapters :
  initialize_ethercat_device_logic
    {| close_existing := None; interfaces := inr [] |} initial_world
  = (false,
     {| master := None;
        adecua_slave := None;
        ethercat_status_message := "EtherCAT: Inattivo (Attesa inizializzazione).";
        effects := [Sleep 3000];
        console := [InitAttempt false false; SettleDelay; NoInterfacesFound];
        log_file := [] |}).
Proof. vm_compute. reflexivity. Qed.

(** A write on a connected link whose slave has fallen back to SAFE_OP. *)
Example write_on_safeop_slave :
  send_to_device
    {| master_is_operational := true;
       slave_state := SAFEOP_STATE;
       on_set_output := None;
       on_send_processdata := None;
       on_receive_processdata := None |}
    5%float world_connected
  = (false,
     set_message "EtherCAT: Master: OK, Slave: NOK. Riprovo."
       (emit (IsState "eth0" OPERATIONAL_STATE) world_connected)).
Proof. vm_compute. reflexivity. Qed.

(** ** Further facts on the cyclic write *)

Module WriteFacts.

Import Binary64 Binary64Facts PyFloatFacts VoltageMapperFacts.

(** The [try] of [send_to_device], case by case: the raw value is always
    defined, and the first call of the bus that raises ends the body. *)
Lemma exchange_spec (env : SendEnv) (m : Master) (s : Slave) (v : float) (w : World) :
  exists raw : Z,
    raw_of_voltage (clamp_voltage v) = inr raw
    /\ 0 <= raw <= 32767
    /\ exchange env m s v w
       = match on_set_output env with
         | Some e => (inl e, emit (output_write s raw) w)
         | None =>
             match on_send_processdata env with
             | Some e =>
                 (inl e, emit (SendProcessdata (master_iface m))
                           (emit (output_write s raw) w))
             | None =>
                 match on_receive_processdata env with
                 | Some e =>
                     (inl e, emit (ReceiveProcessdata (master_iface m) 1000)
                               (emit (SendProcessdata (master_iface m))
                                  (emit (output_write s raw) w)))
                 | None =>
                     (inr (clamp_voltage v),
                      emit (ReceiveProcessdata (master_iface m) 1000)
                        (emit (SendProcessdata (master_iface m))
                           (emit (output_write s raw) w)))
                 end
             end
         end.
Proof.
  destruct (SendFacts.raw_of_voltage_defined v) as (q & Eq & Er).
  set (raw := Z.max 0 (Z.min q 32767)) in *.
  assert (Hr : 0 <= raw <= 32767) by (unfold raw; lia).
  destruct (SendFacts.raw_bytes_little_endian raw Hr) as [Eb _].
  exists raw. split; [exact Er | ]. split; [exact Hr | ].
  unfold exchange, bind, lift, bus_call, ret, raise, output_write. rewrite Er, Eb.
  change (AO1_OUTPUT_OFFSET + Z.of_nat AO1_OUTPUT_SIZE) with 2.
  change AO1_OUTPUT_OFFSET with 0.
  destruct (on_set_output env); [reflexivity | ].
  destruct (on_send_processdata env); [reflexivity | ].
  destruct (on_receive_processdata env); reflexivity.
Qed.

Lemma link_ready_inv (env : SendEnv) (w : World) :
  link_ready env w = true ->
  exists m s,
    master w = Some m /\ adecua_slave w = Some s
    /\ master_is_operational env = true
    /\ SlaveState_eqb (slave_state env) OPERATIONAL_STATE = true.
Proof.
  unfold link_ready. intros H.
  destruct (master w) as [m | ]; [ | discriminate H].
  destruct (adecua_slave w) as [s | ]; [ | discriminate H].
  cbn [truthy andb] in H. apply andb_true_iff in H. destruct H as [H1 H2].
  exists m, s. auto.
Qed.

(** [send_to_device] on a ready link, in terms of its [try]. *)
Lemma send_to_device_ready (env : SendEnv) (v : float) (w : World) (m : Master) (s : Slave) :
  master w = Some m -> adecua_slave w = Some s ->
  master_is_operational env = true ->
  SlaveState_eqb (slave_state env) OPERATIONAL_STATE = true ->
  send_to_device env v w
  = match exchange env m s v (emit (IsState (master_iface m) OPERATIONAL_STATE) w) with
    | (inr voltage, w') =>
        (true, set_message ("EtherCAT: OK. Ultima tensione: " ++ format_2f voltage ++ " V.") w')
    | (inl (SOEMError msg), w') =>
        (false, teardown (set_message ("EtherCAT: Errore SOEM I/O! " ++ msg) w'))
    | (inl (Exception msg), w') =>
        (false, teardown (set_message ("EtherCAT: Errore generico I/O! " ++ msg) w'))
    end.
Proof.
  intros Em Es Hm Hs. unfold send_to_device. rewrite Em, Es, Hm, Hs. reflexivity.
Qed.

Lemma send_to_device_not_ready (env : SendEnv) (v : float) (w : World) :
  link_ready env w = false ->
  fst (send_to_device env v w) = false
  /\ master (snd (send_to_device env v w)) = master w
  /\ adecua_slave (snd (send_to_device env v w)) = adecua_slave w
  /\ log_file (snd (send_to_device env v w)) = log_file w
  /\ console (snd (send_to_device env v w)) = console w
  /\ effects (snd (send_to_device env v w))
     = effects w
       ++ match master w, adecua_slave w with
          | Some m, Some _ => [IsState (master_iface m) OPERATIONAL_STATE]
          | _, _ => []
          end.
Proof.
  intros H. unfold link_ready in H. unfold send_to_device.
  destruct (master w) as [m | ] eqn:Em; [destruct (adecua_slave w) as [s | ] eqn:Es | ];
    cbn [truthy andb] in H.
  - destruct (master_is_operational env); cbn [negb orb andb] in *.
    + rewrite H. cbn [negb orb fst snd set_message emit master adecua_slave log_file console effects].
      rewrite ?Em, ?Es. repeat split; reflexivity.
    + cbn [negb orb fst snd set_message emit master adecua_slave log_file console effects].
      rewrite ?Em, ?Es. repeat split; reflexivity.
  - cbn [negb orb fst snd set_message emit master adecua_slave log_file console effects].
    rewrite ?Em, ?Es, ?app_nil_r. repeat split; reflexivity.
  - cbn [negb orb fst snd set_message emit master adecua_slave log_file console effects].
    rewrite ?Em, ?app_nil_r. repeat split; reflexivity.
Qed.

Lemma teardown_handles (w : World) :
  master (teardown w) = None /\ adecua_slave (teardown w) = None.
Proof. unfold teardown. destruct (master w); split; reflexivity. Qed.

Lemma teardown_opened (w : World) :
  opened_interfaces (effects (teardown w)) = opened_interfaces (effects w)
  /\ console (teardown w) = console w
  /\ log_file (teardown w) = log_file w.
Proof.
  unfold teardown. destruct (master w); cbn [set_handles emit effects console log_file];
    rewrite ?BringUpFacts.opened_interfaces_app; cbn [opened_interfaces];
    rewrite ?app_nil_r; repeat split; reflexivity.
Qed.

End WriteFacts.

(** X1.  [send_to_device] returns [True] exactly when the link is ready and
    the bus raises nothing during the write and the exchange, whatever the
    voltage (the conversion to the raw value never raises).  On success both
    handles are kept and the status reports the clamped voltage with two
    decimals; on a bus error both handles are cleared; when the link is not
    ready both handles are left as they were. *)
Theorem send_to_device_outcome :
  forall (env : SendEnv) (voltage : float) (w : World),
    fst (send_to_device env voltage w)
    = link_ready env w && negb (truthy (exchange_error env))
    /\ if link_ready env w
       then if truthy (exchange_error env)
            then master (snd (send_to_device env voltage w)) = None
                 /\ adecua_slave (snd (send_to_device env voltage w)) = None
            else master (snd (send_to_device env voltage w)) = master w
                 /\ adecua_slave (snd (send_to_device env voltage w)) = adecua_slave w
                 /\ ethercat_status_message (snd (send_to_device env voltage w))
                    = ("EtherCAT: OK. Ultima tensione: "
                       ++ format_2f (clamp_voltage voltage) ++ " V.")%string
       else master (snd (send_to_device env voltage w)) = master w
            /\ adecua_slave (snd (send_to_device env voltage w)) = adecua_slave w.
Proof.
  intros env voltage w.
  destruct (link_ready env w) eqn:R.
  - destruct (WriteFacts.link_ready_inv env w R) as (m & s & Em & Es & Hm & Hs).
    rewrite (WriteFacts.send_to_device_ready env voltage w m s Em Es Hm Hs).
    destruct (WriteFacts.exchange_spec env m s voltage
                (emit (IsState (master_iface m) OPERATIONAL_STATE) w)) as (raw & _ & _ & ->).
    unfold exchange_error.
    destruct (on_set_output env) as [[msg | msg] | ];
      [ | | destruct (on_send_processdata env) as [[msg | msg] | ];
            [ | | destruct (on_receive_processdata env) as [[msg | msg] | ] ] ];
      cbn [truthy negb andb fst snd]; split; try reflexivity;
      try apply WriteFacts.teardown_handles.
    cbn [set_message emit master adecua_slave ethercat_status_message].
    rewrite Em, Es. repeat split; reflexivity.
  - destruct (WriteFacts.send_to_device_not_ready env voltage w R) as (F & M & S & _).
    cbn [andb]. auto.
Qed.

(** ** The raw value as a function of the voltage *)

Module QuantizeFacts.

Import Binary64 Binary64Facts PyFloatFacts VoltageMapperFacts.

(** The integer part of [m * 2 ^ e], computed at any scale [K] that makes
    the exponent non-negative. *)
Lemma trunc_mag_scaled (m : positive) (e K : Z) :
  0 <= K -> 0 <= e + K ->
  trunc_mag m e = Zpos m * 2 ^ (e + K) / 2 ^ K.
Proof.
  intros HK HeK. unfold trunc_mag.
  assert (PK : 0 < 2 ^ K) by (apply Z.pow_pos_nonneg; lia).
  destruct (Z.leb_spec 0 e) as [He | He].
  - rewrite Z.shiftl_mul_pow2 by lia.
    rewrite Z.pow_add_r, Z.mul_assoc by lia.
    rewrite Z.div_mul by lia. reflexivity.
  - rewrite Z.shiftr_div_pow2 by lia.
    replace K with ((e + K) + (- e)) at 2 by lia.
    rewrite (Z.pow_add_r 2 (e + K) (- e)) by lia.
    rewrite (Z.mul_comm (2 ^ (e + K)) (2 ^ (- e))).
    rewrite Z.div_mul_cancel_r;
      [reflexivity | apply Z.pow_nonzero; lia | apply Z.pow_nonzero; lia].
Qed.

Lemma trunc_mag_nonneg (m : positive) (e : Z) : 0 <= trunc_mag m e.
Proof.
  unfold trunc_mag. destruct (0 <=? e).
  - apply Z.shiftl_nonneg. lia.
  - apply Z.shiftr_nonneg. lia.
Qed.

(** [int] keeps the order of non-negative finite floats. *)
Lemma int_of_float_mono (a b : float) :
  nonneg_fin (Prim2SF a) = true -> nonneg_fin (Prim2SF b) = true ->
  fkey a <= fkey b ->
  exists qa qb : Z,
    int_of_float a = inr qa /\ int_of_float b = inr qb /\ 0 <= qa <= qb.
Proof.
  unfold int_of_float, fkey.
  pose proof (Prim2SF_valid a) as Va. pose proof (Prim2SF_valid b) as Vb.
  destruct (Prim2SF a) as [sa | | | [ | ] ma ea]; try discriminate;
    destruct (Prim2SF b) as [sb | | | [ | ] mb eb]; try discriminate;
    intros _ _ Hk; cbn [cond_Zopp].
  - exists 0, 0. repeat split; lia.
  - exists 0, (trunc_mag mb eb). pose proof (trunc_mag_nonneg mb eb).
    repeat split; lia.
  - exfalso. apply valid_finite in Va. cbn [key cond_Zopp] in Hk. lia.
  - exists (trunc_mag ma ea), (trunc_mag mb eb).
    split; [reflexivity | ]. split; [reflexivity | ].
    split; [apply trunc_mag_nonneg | ].
    set (K := Z.max 0 (Z.max (- ea) (- eb))).
    rewrite (trunc_mag_scaled ma ea K), (trunc_mag_scaled mb eb K) by (unfold K; lia).
    apply Z.div_le_mono; [apply Z.pow_pos_nonneg; unfold K; lia | ].
    apply (key_order_scaled ma ea mb eb); try assumption; unfold K; lia.
Qed.

(** The product of line 169, for two voltages in order. *)
Lemma scaled_mono (v1 v2 : float) :
  (v1 <=? v2)%float = true ->
  fkey ((clamp_voltage v1 / MAX_VOLTAGE) * 32767)%float
  <= fkey ((clamp_voltage v2 / MAX_VOLTAGE) * 32767)%float.
Proof.
  intros Hv.
  destruct SendFacts.MAX_VOLTAGE_key as [Hn Hk]. destruct one_key as [H1 K1].
  destruct (SendFacts.clamp_voltage_range v1) as [Hc1 Kc1].
  destruct (SendFacts.clamp_voltage_range v2) as [Hc2 Kc2].
  assert (Kc : fkey (clamp_voltage v1) <= fkey (clamp_voltage v2)).
  { apply (pyclamp_mono 0%float MAX_VOLTAGE v1 v2); try assumption; try reflexivity.
    change (fkey 0%float) with 0. lia. }
  pose proof (ratio_range _ Hc1 Kc1) as R1. change MAX_KMH with MAX_VOLTAGE in R1.
  pose proof (ratio_range _ Hc2 Kc2) as R2. change MAX_KMH with MAX_VOLTAGE in R2.
  destruct R1 as [Hq1 Kq1]. destruct R2 as [Hq2 Kq2].
  destruct (div_mono (clamp_voltage v1) (clamp_voltage v2) MAX_VOLTAGE) as (_ & _ & Kq);
    try assumption; try (apply nonneg_fin_key; [assumption | lia]); try reflexivity.
  destruct (mul_mono (clamp_voltage v1 / MAX_VOLTAGE) (clamp_voltage v2 / MAX_VOLTAGE)
              32767%float) as (_ & _ & Kv);
    try (apply nonneg_fin_key; [assumption | lia]); try reflexivity; lia.
Qed.

Lemma scaled_nonneg_fin (v : float) :
  nonneg_fin (Prim2SF ((clamp_voltage v / MAX_VOLTAGE) * 32767)%float) = true.
Proof.
  destruct (SendFacts.scaled_range v) as [Hn Hk].
  apply nonneg_fin_key; [exact Hn | ].
  assert (fkey 32767%float < 2047 * 9007199254740992) by (vm_compute; reflexivity). lia.
Qed.

Lemma raw_of_voltage_mono (v1 v2 : float) :
  (v1 <=? v2)%float = true ->
  exists r1 r2 : Z,
    raw_of_voltage (clamp_voltage v1) = inr r1
    /\ raw_of_voltage (clamp_voltage v2) = inr r2
    /\ 0 <= r1 <= r2 /\ r2 <= 32767.
Proof.
  intros Hv.
  destruct (int_of_float_mono _ _ (scaled_nonneg_fin v1) (scaled_nonneg_fin v2)
              (scaled_mono v1 v2 Hv)) as (q1 & q2 & E1 & E2 & Hq).
  unfold raw_of_voltage. rewrite E1, E2.
  exists (Z.max 0 (Z.min q1 32767)), (Z.max 0 (Z.min q2 32767)).
  repeat split; lia.
Qed.

End QuantizeFacts.



(** X3.  The raw value saturates: it is 32767 (full scale) for every
    voltage of at least MAX_VOLTAGE, the raw value of the voltage itself
    for a voltage strictly between 0 and MAX_VOLTAGE, and 0 for every other
    input (negative, zero or NaN). *)
Theorem raw_value_saturates :
  forall v : float,
    raw_of_voltage (clamp_voltage v)
    = if (MAX_VOLTAGE <=? v)%float then inr 32767
      else if (0 <? v)%float then raw_of_voltage v
      else inr 0.
Proof.
  intros v.
  destruct (MAX_VOLTAGE <=? v)%float eqn:Hhi.
  - destruct (QuantizeFacts.raw_of_voltage_mono MAX_VOLTAGE v Hhi)
      as (r1 & r2 & E1 & E2 & H12 & H2).
    assert (E : raw_of_voltage (clamp_voltage MAX_VOLTAGE) = inr 32767)
      by (vm_compute; reflexivity).
    rewrite E in E1. injection E1 as <-. rewrite E2. f_equal. lia.
  - unfold clamp_voltage, pymax, pymin.
    assert (Hlt : (MAX_VOLTAGE <? v)%float = false).
    { destruct (Binary64.is_num v) eqn:Hn.
      - rewrite Binary64Facts.leb_fkey in Hhi by (try reflexivity; assumption).
        rewrite Binary64Facts.ltb_fkey by (try reflexivity; assumption).
        apply Z.leb_gt in Hhi. apply Z.ltb_ge. lia.
      - apply Binary64Facts.ltb_nan. rewrite Hn. apply andb_false_r. }
    rewrite Hlt.
    destruct (0 <? v)%float; [reflexivity | vm_compute; reflexivity].
Qed.

(** ** Further facts on the bring-up *)

Module PassFacts.

(** Normalises the effects of a finished pass and picks the new ones. *)
Ltac pick_new :=
  cbn; rewrite <- ?app_assoc; cbn [app]; eexists; split; [reflexivity | ].

Ltac next_raise sim s :=
  destruct (raises sim s) eqn:?; [solve [pick_new; cbn; auto 20] | ].

(** One pass of the loop, by its calls into pysoem: it starts by opening a
    master; a pass that commits has made the eight calls of the bring-up
    in order and no other; a pass that found no device has closed its
    master; a pass that raised after the opening still holds its master,
    which the handler will close. *)
Lemma try_interface_effects (sim : IfaceSim) (w : World) :
  let r := try_interface sim
             {| current_master := None; current_adecua_slave := None; world := w |} in
  exists new : list Effect,
    effects (world (snd r)) = effects w ++ MasterOpen (iface_name sim) :: new
    /\ match fst r with
       | inr (Some (m, s)) =>
           new = [ConfigInit (iface_name sim); ConfigDc (iface_name sim);
                  ConfigMap (iface_name sim);
                  StateCheck (iface_name sim) SAFEOP_STATE 2000;
                  ReadState (iface_name sim);
                  SetSlaveState (iface_name sim) (slave_position s) OPERATIONAL_STATE;
                  StateCheck (iface_name sim) OPERATIONAL_STATE 2000;
                  ReadState (iface_name sim)]
       | inr None => In (MasterClose (iface_name sim)) new
       | inl _ =>
           match raises sim AtOpen with
           | None => current_master (snd r) = Some {| master_iface := iface_name sim |}
           | Some _ => current_master (snd r) = None /\ new = []
           end
       end.
Proof.
  unfold try_interface, expect_state.
  destruct (raises sim AtOpen) eqn:EO; [pick_new; cbn; auto | ].
  next_raise sim AtConfigInit. next_raise sim AtConfigDc.
  destruct (find_adecua (iface_name sim) 0 (slaves sim)) as [s | ] eqn:Ef.
  - next_raise sim AtConfigMap. next_raise sim AtCheckSafeOp. next_raise sim AtReadSafeOp.
    destruct (SlaveState_eqb (state_at sim AtReadSafeOp) SAFEOP_STATE) eqn:E1.
    + next_raise sim AtCheckOp. next_raise sim AtReadOp.
      destruct (SlaveState_eqb (state_at sim AtReadOp) OPERATIONAL_STATE) eqn:E2.
      * pick_new. reflexivity.
      * destruct (raises sim AtSlaveCheckOp) eqn:?; pick_new; cbn; auto.
    + destruct (raises sim AtSlaveCheckSafeOp) eqn:?; pick_new; cbn; auto.
  - destruct (raises sim AtCloseNoSlave) eqn:?; pick_new; cbn; auto 10.
Qed.

(** Over interfaces that do not work, the loop closes every master it
    opened. *)
Lemma for_each_interface_closes (pre rest : list IfaceSim) (w : World) :
  Forall (fun s => iface_works s = false) pre ->
  exists (w' : World) (new : list Effect),
    for_each_interface (pre ++ rest) w = for_each_interface rest w'
    /\ effects w' = effects w ++ new
    /\ Forall (fun s => opens s -> In (MasterClose (iface_name s)) new) pre.
Proof.
  intros H. revert w. induction H as [ | sim pre Hsim Hpre IH]; intros w.
  - exists w, []. cbn. rewrite app_nil_r. repeat split; constructor.
  - cbn [app for_each_interface].
    set (w0 := print (TryingInterface (iface_name sim)) w).
    destruct (BringUpFacts.try_interface_spec sim
                {| current_master := None; current_adecua_slave := None; world := w0 |})
      as (_ & _ & W).
    rewrite Hsim in W.
    destruct (try_interface_effects sim w0) as (new1 & E1 & C1). cbv zeta in E1, C1.
    destruct (try_interface sim _) as [[e | [[m s] | ]] fr] eqn:E; cbn [fst snd] in *.
    + destruct (IH (handle_interface_error sim e fr)) as (w' & new2 & L & E2 & F2).
      assert (E3 : exists c, effects (handle_interface_error sim e fr)
                             = effects w ++ MasterOpen (iface_name sim) :: new1 ++ c
                             /\ (opens sim -> In (MasterClose (iface_name sim)) c)).
      { unfold handle_interface_error, opens.
        destruct (raises sim AtOpen) eqn:EO.
        - destruct C1 as [C1 ->]. rewrite C1.
          exists []. destruct e; cbn; rewrite E1; split; try reflexivity; discriminate.
        - rewrite C1. exists [MasterClose (iface_name sim)].
          destruct e; cbn; rewrite E1, <- app_assoc; cbn; split; auto. }
      destruct E3 as (c & E3 & C3).
      exists w', (MasterOpen (iface_name sim) :: new1 ++ c ++ new2).
      split; [exact L | ]. split.
      * rewrite E2, E3, <- app_assoc. cbn [app]. rewrite <- app_assoc. reflexivity.
      * constructor.
        -- intros O. right. apply in_or_app. right. apply in_or_app. left. auto.
        -- eapply Forall_impl; [ | exact F2]. cbn. intros a Ha O.
           right. apply in_or_app. right. apply in_or_app. right. auto.
    + exfalso. apply (W (m, s)). reflexivity.
    + destruct (IH (world fr)) as (w' & new2 & L & E2 & F2).
      exists w', (MasterOpen (iface_name sim) :: new1 ++ new2).
      split; [exact L | ]. split.
      * rewrite E2, E1, <- app_assoc. reflexivity.
      * constructor.
        -- intros O. right. apply in_or_app. left. exact C1.
        -- eapply Forall_impl; [ | exact F2]. cbn. intros a Ha O.
           right. apply in_or_app. right. auto.
Qed.

(** The effects of what precedes the loop (lines 38-51). *)
Lemma prelude_effects (env : InitEnv) (w : World) :
  effects (settle (close_existing_master env
                     (print (InitAttempt (truthy (master w)) (truthy (adecua_slave w))) w)))
  = effects w ++ prelude_calls w.
Proof.
  unfold settle, close_existing_master, prelude_calls. cbn [print master].
  destruct (master w) as [m | ] eqn:Em.
  - destruct (close_existing env); cbn; rewrite <- ?app_assoc; reflexivity.
  - cbn [print master]. rewrite Em. reflexivity.
Qed.

End PassFacts.

(** X4. From a world without a master, when the first interface listed
    works, the bring-up returns [True] after exactly these calls into
    pysoem, in this order: the pause of three seconds, open, config_init,
    config_dc, config_map, the wait for SAFEOP, read_state, the request of
    OP for the device found, the wait for OP, read_state.  No later
    interface is opened and nothing is closed. *)
Theorem bring_up_call_sequence :
  forall (closing : option exn) (sim : IfaceSim) (post : list IfaceSim) (w : World),
    master w = None ->
    iface_works sim = true ->
    exists s : Slave,
      find_adecua (iface_name sim) 0 (slaves sim) = Some s
      /\ initialize_ethercat_device_logic
           {| close_existing := closing; interfaces := inr (sim :: post) |} w
         = (true,
            snd (initialize_ethercat_device_logic
                   {| close_existing := closing; interfaces := inr (sim :: post) |} w))
      /\ adecua_slave
           (snd (initialize_ethercat_device_logic
                   {| close_existing := closing; interfaces := inr (sim :: post) |} w))
         = Some s
      /\ effects
           (snd (initialize_ethercat_device_logic
                   {| close_existing := closing; interfaces := inr (sim :: post) |} w))
         = effects w ++ Sleep 3000 :: bring_up_calls (iface_name sim) (slave_position s).
Proof.
  intros closing sim post w Hm Hw.
  unfold initialize_ethercat_device_logic. cbn [interfaces for_each_interface].
  set (env := {| close_existing := closing; interfaces := inr (sim :: post) |}).
  pose proof (PassFacts.prelude_effects env w) as P.
  set (w0 := settle _) in *.
  unfold prelude_calls in P. rewrite Hm in P.
  set (w1 := print (TryingInterface (iface_name sim)) w0).
  destruct (BringUpFacts.try_interface_spec sim
              {| current_master := None; current_adecua_slave := None; world := w1 |})
    as (_ & _ & W).
  rewrite Hw in W. destruct W as (s & Ef & W).
  destruct (PassFacts.try_interface_effects sim w1) as (new & E1 & C1).
  cbv zeta in E1, C1.
  destruct (try_interface sim _) as [res fr]. cbn [fst snd] in W, E1, C1.
  subst res. exists s. split; [exact Ef | ].
  cbn [fst snd set_handles adecua_slave effects].
  split; [reflexivity | ]. split; [reflexivity | ].
  rewrite E1, C1. unfold w1. cbn [print effects]. rewrite P, <- app_assoc.
  reflexivity.
Qed.

Lemma bring_up_call_sequence_witness :
  exists s : Slave,
    find_adecua "eth0" 0 (slaves (sim_el4001 "eth0")) = Some s
    /\ effects
         (snd (initialize_ethercat_device_logic
                 {| close_existing := None;
                    interfaces := inr [sim_el4001 "eth0"; sim_no_device "wifi0"] |}
                 initial_world))
       = effects initial_world ++ Sleep 3000 :: bring_up_calls "eth0" (slave_position s).
Proof.
  destruct (bring_up_call_sequence None (sim_el4001 "eth0") [sim_no_device "wifi0"]
              initial_world eq_refl eq_refl) as (s & Ef & _ & _ & E).
  exists s. split; [exact Ef | exact E].
Defined.

(** X5. A bring-up over interfaces none of which works returns [False] with
    both handles cleared, and leaves no master open: the master that
    existed before the call has been closed, and so has the master of every
    interface on which the opening did not raise, whatever went wrong
    afterwards on it. *)
Theorem failed_bring_up_closes_every_master :
  forall (closing : option exn) (l : list IfaceSim) (w : World),
    Forall (fun s => iface_works s = false) l ->
    exists new : list Effect,
      initialize_ethercat_device_logic
        {| close_existing := closing; interfaces := inr l |} w
      = (false,
         snd (initialize_ethercat_device_logic
                {| close_existing := closing; interfaces := inr l |} w))
      /\ master (snd (initialize_ethercat_device_logic
                        {| close_existing := closing; interfaces := inr l |} w)) = None
      /\ effects (snd (initialize_ethercat_device_logic
                         {| close_existing := closing; interfaces := inr l |} w))
         = effects w ++ prelude_calls w ++ new
      /\ Forall (fun s => opens s -> In (MasterClose (iface_name s)) new) l
      /\ forall m, master w = Some m ->
                   In (MasterClose (master_iface m)) (prelude_calls w).
Proof.
  intros closing l w H.
  unfold initialize_ethercat_device_logic. cbn [interfaces].
  set (env := {| close_existing := closing; interfaces := inr l |}).
  pose proof (PassFacts.prelude_effects env w) as P.
  pose proof (BringUpFacts.prelude_spec env w) as Q.
  set (w0 := settle _) in *.
  assert (L : forall m, master w = Some m ->
                        In (MasterClose (master_iface m)) (prelude_calls w)).
  { intros m Em. unfold prelude_calls. rewrite Em. left. reflexivity. }
  destruct l as [ | sim l].
  - exists []. cbn [fst snd print master effects]. rewrite app_nil_r.
    repeat split; try assumption; try constructor. apply Q.
  - destruct (PassFacts.for_each_interface_closes (sim :: l) [] w0 H)
      as (w' & new & E & E' & F).
    rewrite app_nil_r in E. rewrite E. cbn [for_each_interface fst snd].
    exists new. cbn [set_handles print master effects].
    rewrite E', P, <- app_assoc. repeat split; assumption.
Qed.

Lemma failed_bring_up_closes_every_master_witness :
  exists new : list Effect,
    effects (snd (initialize_ethercat_device_logic
                    {| close_existing := None;
                       interfaces := inr [sim_no_device "wifi0"; sim_stuck "eth0"] |}
                    world_connected))
    = effects world_connected ++ prelude_calls world_connected ++ new
    /\ Forall (fun s => opens s -> In (MasterClose (iface_name s)) new)
         [sim_no_device "wifi0"; sim_stuck "eth0"].
Proof.
  destruct (failed_bring_up_closes_every_master None
              [sim_no_device "wifi0"; sim_stuck "eth0"] world_connected)
    as (new & _ & _ & E & F & _).
  - repeat constructor.
  - exists new. split; [exact E | exact F].
Defined.

(** X6. When listing the network interfaces raises, or gives none, the
    bring-up returns [False] without opening anything; but a master that
    existed has already been closed and both handles cleared, so a failed
    listing loses a link that worked. *)
Theorem bring_up_without_interfaces :
  forall (closing : option exn) (found : exn + unit) (w : World),
    let env := {| close_existing := closing;
                  interfaces := match found with inl e => inl e | inr _ => inr [] end |} in
    let r := initialize_ethercat_device_logic env w in
    fst r = false
    /\ master (snd r) = None
    /\ adecua_slave (snd r) = (if truthy (master w) then None else adecua_slave w)
    /\ effects (snd r) = effects w ++ prelude_calls w
    /\ console (snd r)
       = console (settle (close_existing_master env
                   (print (InitAttempt (truthy (master w)) (truthy (adecua_slave w))) w)))
         ++ [match found with
             | inl e => InterfacesError (exn_message e)
             | inr _ => NoInterfacesFound
             end].
Proof.
  intros closing found w env r.
  pose proof (PassFacts.prelude_effects env w) as P.
  pose proof (BringUpFacts.prelude_spec env w) as Q.
  assert (A : adecua_slave (settle (close_existing_master env
                 (print (InitAttempt (truthy (master w)) (truthy (adecua_slave w))) w)))
              = if truthy (master w) then None else adecua_slave w).
  { unfold settle, close_existing_master. cbn [print master].
    destruct (master w) as [m | ] eqn:Em.
    - destruct closing; reflexivity.
    - cbn [print master]. rewrite Em. reflexivity. }
  subst r. unfold initialize_ethercat_device_logic.
  destruct found as [e | u]; cbn [env interfaces fst snd print master adecua_slave
                                  effects console];
    repeat split; try assumption; try apply Q.
Qed.

(** ** Further facts on the callbacks *)

Module StatusFacts.

Lemma for_each_interface_keeps (l : list IfaceSim) (w : World) :
  log_file (snd (for_each_interface l w)) = log_file w
  /\ ethercat_status_message (snd (for_each_interface l w)) = ethercat_status_message w
  /\ fst (for_each_interface l w) = truthy (master (snd (for_each_interface l w))).
Proof.
  revert w. induction l as [ | sim l IH]; intros w; cbn [for_each_interface].
  - repeat split.
  - set (start := {| current_master := None; current_adecua_slave := None;
                     world := print (TryingInterface (iface_name sim)) w |}).
    destruct (BringUpFacts.try_interface_spec sim start) as ((_ & _ & G1 & G2) & _).
    destruct (try_interface sim start) as [[e | [[m s] | ]] fr]; cbn [fst snd] in *.
    + destruct (BringUpFacts.handle_interface_error_spec sim e fr)
        as ((_ & _ & H1 & H2) & _).
      destruct (IH (handle_interface_error sim e fr)) as (I1 & I2 & I3).
      rewrite I1, I2, H1, H2. auto.
    + cbn. auto.
    + destruct (IH (world fr)) as (I1 & I2 & I3). rewrite I1, I2. auto.
Qed.

(** The bring-up writes neither the status message nor the log, and what
    it returns tells whether a master is held afterwards. *)
Lemma initialize_keeps (env : InitEnv) (w : World) :
  log_file (snd (initialize_ethercat_device_logic env w)) = log_file w
  /\ ethercat_status_message (snd (initialize_ethercat_device_logic env w))
     = ethercat_status_message w
  /\ fst (initialize_ethercat_device_logic env w)
     = truthy (master (snd (initialize_ethercat_device_logic env w))).
Proof.
  unfold initialize_ethercat_device_logic.
  destruct (BringUpFacts.prelude_spec env w) as (M0 & _ & G0 & L0 & _).
  set (w0 := settle _) in *.
  destruct (interfaces env) as [e | [ | sim l]].
  - cbn [fst snd print log_file ethercat_status_message master]. rewrite M0. auto.
  - cbn [fst snd print log_file ethercat_status_message master]. rewrite M0. auto.
  - destruct (for_each_interface_keeps (sim :: l) w0) as (I1 & I2 & I3).
    rewrite I1, I2. auto.
Qed.

Lemma connected_message_says_connected :
  str_in "Connesso e in OPERATIONAL" connected_message = true.
Proof. vm_compute. reflexivity. Qed.

End StatusFacts.

(** X7. The bring-up never writes the status message or the log, whatever
    the adapters do, and its result is [True] exactly when it leaves a
    master handle behind. *)
Theorem bring_up_reports_master :
  forall (env : InitEnv) (w : World),
    fst (initialize_ethercat_device_logic env w)
    = truthy (master (snd (initialize_ethercat_device_logic env w)))
    /\ ethercat_status_message (snd (initialize_ethercat_device_logic env w))
       = ethercat_status_message w
    /\ log_file (snd (initialize_ethercat_device_logic env w)) = log_file w.
Proof.
  intros env w. destruct (StatusFacts.initialize_keeps env w) as (A & B & C). auto.
Qed.

(** X8. The manual reconnection does nothing at all when the click count
    is [None] or 0 (it raises [PreventUpdate]), and for every other count,
    negative ones included, runs one bring-up; the message it returns is
    the new status, which says reconnected exactly when a master is held
    afterwards; the log is not written. *)
Theorem reconnect_message_matches_handles :
  forall (n : option Z) (env : InitEnv) (w : World),
    match reconnect_ethercat_manual n env w with
    | None => n = None \/ n = Some 0
    | Some (msg, w') =>
        (exists k, n = Some k /\ k <> 0)
        /\ ethercat_status_message w' = msg
        /\ msg = (if truthy (master w')
                  then "EtherCAT: Riconnesso e in OPERATIONAL."
                  else "EtherCAT: ERRORE riconnessione manuale!")%string
        /\ master w' = master (snd (initialize_ethercat_device_logic env w))
        /\ adecua_slave w' = adecua_slave (snd (initialize_ethercat_device_logic env w))
        /\ effects w' = effects (snd (initialize_ethercat_device_logic env w))
        /\ log_file w' = log_file w
    end.
Proof.
  intros n env w. unfold reconnect_ethercat_manual.
  destruct (StatusFacts.initialize_keeps env w) as (L & _ & R).
  destruct n as [[ | p | p] | ]; try (left; reflexivity); try (right; reflexivity);
    destruct (initialize_ethercat_device_logic env w) as [ok w2]; cbn [fst snd] in *;
    (split; [eexists; split; [reflexivity | discriminate] | ]);
    subst ok; destruct (master w2) eqn:Em;
    cbn [truthy set_message ethercat_status_message master adecua_slave effects log_file];
    rewrite ?Em; repeat split; try reflexivity; assumption.
Qed.

(** X9. After a tick of the supervisor that started with paired handles,
    the status it returns agrees with the handles: either both handles are
    set and the status contains the words connected and operational, or
    both are cleared and the status is the disconnection message with the
    time of the day.  The log is not written. *)
Theorem supervisor_status_matches_handles :
  forall (env : CheckEnv) (w : World),
    handles_paired w ->
    ethercat_status_message (snd (check_ethercat_status env w))
    = fst (check_ethercat_status env w)
    /\ log_file (snd (check_ethercat_status env w)) = log_file w
    /\ ((exists m s,
           master (snd (check_ethercat_status env w)) = Some m
           /\ adecua_slave (snd (check_ethercat_status env w)) = Some s
           /\ str_in "Connesso e in OPERATIONAL" (fst (check_ethercat_status env w)) = true)
        \/ (master (snd (check_ethercat_status env w)) = None
            /\ adecua_slave (snd (check_ethercat_status env w)) = None
            /\ fst (check_ethercat_status env w)
               = disconnected_message (check_clock env))).
Proof.
  intros env w P. unfold check_ethercat_status.
  assert (Q : handles_paired (snd (current_state_ok env w))
              /\ log_file (snd (current_state_ok env w)) = log_file w
              /\ (fst (current_state_ok env w) = true ->
                  exists m s, master (snd (current_state_ok env w)) = Some m
                              /\ adecua_slave (snd (current_state_ok env w)) = Some s)).
  { unfold current_state_ok. destruct (master w) as [m | ] eqn:Em.
    - destruct (check_master_is_operational env).
      + cbn [emit adecua_slave]. destruct (adecua_slave w) as [s | ] eqn:Es;
          cbn [fst snd emit log_file master adecua_slave];
          repeat split; try exact P; try discriminate.
        intros _. exists m, s. rewrite Es. auto.
      + cbn. repeat split; try exact P; discriminate.
    - cbn. repeat split; try exact P; discriminate. }
  destruct (current_state_ok env w) as [ok w1]. cbn [fst snd] in Q.
  destruct Q as (Q1 & Q2 & Q3).
  destruct ok; cbn [negb].
  - destruct (Q3 eq_refl) as (m & s & Em & Es).
    destruct (str_in "Connesso e in OPERATIONAL" (ethercat_status_message w1)) eqn:E;
      cbn [negb fst snd set_message ethercat_status_message log_file master adecua_slave];
      (split; [reflexivity | ]); (split; [exact Q2 | ]); left; exists m, s;
      repeat split; try assumption.
  - pose proof (HandleFacts.initialize_handles (check_init env) w1 Q1) as H.
    destruct (StatusFacts.initialize_keeps (check_init env) w1) as (L & _ & _).
    destruct (initialize_ethercat_device_logic (check_init env) w1) as [ok w2].
    cbn [fst snd] in *.
    destruct ok; cbn [fst snd set_message ethercat_status_message log_file master adecua_slave];
      (split; [reflexivity | ]); (split; [congruence | ]).
    + left. destruct H as (m & s & Em & Es). exists m, s. repeat split; assumption.
    + right. destruct H as (Em & Es). repeat split; assumption.
Qed.

Lemma supervisor_status_matches_handles_witness :
  ethercat_status_message (snd (check_ethercat_status tick_healthy initial_world))
  = fst (check_ethercat_status tick_healthy initial_world)
  /\ log_file (snd (check_ethercat_status tick_healthy initial_world)) = log_file initial_world
  /\ ((exists m s,
         master (snd (check_ethercat_status tick_healthy initial_world)) = Some m
         /\ adecua_slave (snd (check_ethercat_status tick_healthy initial_world)) = Some s
         /\ str_in "Connesso e in OPERATIONAL"
              (fst (check_ethercat_status tick_healthy initial_world)) = true)
      \/ (master (snd (check_ethercat_status tick_healthy initial_world)) = None
          /\ adecua_slave (snd (check_ethercat_status tick_healthy initial_world)) = None
          /\ fst (check_ethercat_status tick_healthy initial_world)
             = disconnected_message (check_clock tick_healthy))).
Proof.
  apply (supervisor_status_matches_handles tick_healthy initial_world). reflexivity.
Defined.

(** X10. A tick of the supervisor on a healthy link is quiet: its only call
    into pysoem is the state query of the master, it runs no bring-up,
    keeps both handles and the log, and a second tick with the same
    answers returns the same status. *)
Theorem healthy_tick_is_quiet :
  forall (env : CheckEnv) (w : World),
    healthy env w = true ->
    exists m : Master,
      master w = Some m
      /\ effects (snd (check_ethercat_status env w))
         = effects w ++ [IsState (master_iface m) OPERATIONAL_STATE]
      /\ console (snd (check_ethercat_status env w)) = console w
      /\ master (snd (check_ethercat_status env w)) = master w
      /\ adecua_slave (snd (check_ethercat_status env w)) = adecua_slave w
      /\ log_file (snd (check_ethercat_status env w)) = log_file w
      /\ healthy env (snd (check_ethercat_status env w)) = true
      /\ fst (check_ethercat_status env (snd (check_ethercat_status env w)))
         = fst (check_ethercat_status env w).
Proof.
  intros env w H.
  assert (K : exists m, master w = Some m
                        /\ check_ethercat_status env w
                           = (let w1 := emit (IsState (master_iface m) OPERATIONAL_STATE) w in
                              if str_in "Connesso e in OPERATIONAL" (ethercat_status_message w)
                              then (ethercat_status_message w, w1)
                              else (connected_message, set_message connected_message w1))).
  { unfold healthy in H. unfold check_ethercat_status, current_state_ok.
    destruct (master w) as [m | ]; [ | discriminate H].
    cbn [truthy andb] in H.
    destruct (check_master_is_operational env); [ | discriminate H].
    cbn [andb emit adecua_slave] in *.
    destruct (adecua_slave w) as [s | ]; [ | discriminate H].
    cbn [truthy andb] in H. rewrite H. cbn [negb emit ethercat_status_message].
    exists m. split; [reflexivity | ].
    destruct (str_in "Connesso e in OPERATIONAL" (ethercat_status_message w)); reflexivity. }
  destruct K as (m & Em & K). exists m. split; [exact Em | ].
  assert (H2 : healthy env (snd (check_ethercat_status env w)) = true).
  { rewrite K. cbv zeta. unfold healthy in *.
    destruct (str_in "Connesso e in OPERATIONAL" (ethercat_status_message w)); exact H. }
  rewrite (CallbackFacts.check_ethercat_status_healthy env _ H2).
  rewrite K. cbv zeta.
  destruct (str_in "Connesso e in OPERATIONAL" (ethercat_status_message w)) eqn:E;
    cbn [fst snd emit set_message effects console master adecua_slave log_file
         ethercat_status_message];
    rewrite ?E, ?StatusFacts.connected_message_says_connected;
    repeat split; try reflexivity; exact H2 || (rewrite K in H2; exact H2).
Qed.

Lemma healthy_tick_is_quiet_witness :
  exists m : Master,
    master world_connected = Some m
    /\ effects (snd (check_ethercat_status tick_healthy world_connected))
       = effects world_connected ++ [IsState (master_iface m) OPERATIONAL_STATE].
Proof.
  destruct (healthy_tick_is_quiet tick_healthy world_connected eq_refl)
    as (m & Em & E & _).
  exists m. split; [exact Em | exact E].
Defined.

(** ** Further facts on the write and the log *)

Module TraceFacts.

Lemma teardown_effects (w : World) (m : Master) :
  master w = Some m ->
  effects (teardown w) = effects w ++ [MasterClose (master_iface m)].
Proof. intros E. unfold teardown. rewrite E. reflexivity. Qed.


Lemma raw_of_zero : raw_of_voltage (clamp_voltage 0) = inr 0.
Proof. vm_compute. reflexivity. Qed.



Lemma handle_fan_control_effects (env : FanEnv) (w : World) :
  effects (snd (handle_fan_control env w))
  = effects (snd (send_to_device (fan_send env)
                    (if String.eqb (triggered_id env) "stop-button.n_clicks"
                     then 0%float else calculate_voltage (kmh_value env)) w)).
Proof.
  unfold handle_fan_control.
  destruct (String.eqb (triggered_id env) "stop-button.n_clicks");
    destruct (send_to_device (fan_send env) _ w) as [ok w']; reflexivity.
Qed.

Lemma write_calls_of_ready (env : SendEnv) (voltage : float) (w : World) :
  link_ready env w = true ->
  exists (m : Master) (s : Slave) (raw : Z),
    master w = Some m /\ adecua_slave w = Some s
    /\ raw_of_voltage (clamp_voltage voltage) = inr raw
    /\ effects (snd (send_to_device env voltage w))
       = effects w ++ write_calls env m s raw.
Proof.
  intros H.
  destruct (WriteFacts.link_ready_inv env w H) as (m & s & Em & Es & Hm & Hs).
  rewrite (WriteFacts.send_to_device_ready env voltage w m s Em Es Hm Hs).
  destruct (WriteFacts.exchange_spec env m s voltage
              (emit (IsState (master_iface m) OPERATIONAL_STATE) w)) as (raw & Er & _ & Ex).
  exists m, s, raw. repeat split; try assumption.
  rewrite Ex. unfold write_calls.
  destruct (on_set_output env) as [[msg | msg] | ];
    [ | | destruct (on_send_processdata env) as [[msg | msg] | ];
          [ | | destruct (on_receive_processdata env) as [[msg | msg] | ]]];
    cbn [snd]; rewrite ?(teardown_effects _ m) by exact Em;
    cbn [set_message emit effects]; rewrite <- ?app_assoc; reflexivity.
Qed.

End TraceFacts.

(** X11. One write on a ready link, by its calls into pysoem: the state
    query of the master, the write of the two bytes of the raw value into
    the output image, [send_processdata], [receive_processdata].  A call
    that raises is the last of them: the exchange is cut there and the
    master is closed once, right after it. *)
Theorem write_stops_at_first_error :
  forall (env : SendEnv) (voltage : float) (w : World),
    link_ready env w = true ->
    exists (m : Master) (s : Slave) (raw : Z),
      master w = Some m /\ adecua_slave w = Some s
      /\ raw_of_voltage (clamp_voltage voltage) = inr raw
      /\ effects (snd (send_to_device env voltage w))
         = effects w ++ write_calls env m s raw.
Proof.
  intros env voltage w H. exact (TraceFacts.write_calls_of_ready env voltage w H).
Qed.

Lemma write_stops_at_first_error_witness :
  exists (m : Master) (s : Slave) (raw : Z),
    master world_connected = Some m /\ adecua_slave world_connected = Some s
    /\ raw_of_voltage (clamp_voltage 5) = inr raw
    /\ effects (snd (send_to_device bus_receive_fails 5 world_connected))
       = effects world_connected ++ write_calls bus_receive_fails m s raw.
Proof.
  apply (write_stops_at_first_error bus_receive_fails 5 world_connected). reflexivity.
Defined.

(** X12. The stop button ignores the speed field: whatever it holds, the
    callback answers as for speed 0, logs the row with 0.00 km/h and
    0.00 V, and, on a ready link, writes the bytes 00 00 to the output. *)
Theorem stop_button_writes_zero :
  forall (kmh : float) (bus : SendEnv) (timestamp : string) (w : World),
    let stop k := {| triggered_id := "stop-button.n_clicks"; kmh_value := k;
                     fan_send := bus; fan_timestamp := timestamp |} in
    handle_fan_control (stop kmh) w = handle_fan_control (stop 0%float) w
    /\ log_file (snd (handle_fan_control (stop kmh) w))
       = log_file w ++ [[timestamp; "0.00"; "0.00"]]%string
    /\ if link_ready bus w
       then exists (m : Master) (s : Slave),
              master w = Some m /\ adecua_slave w = Some s
              /\ effects (snd (handle_fan_control (stop kmh) w))
                 = effects w ++ write_calls bus m s 0
              /\ output_write s 0
                 = SetOutput (slave_iface s) (slave_position s) 0 2 [x00; x00]
       else forall e, In e (effects (snd (handle_fan_control (stop kmh) w))) ->
                      In e (effects w) \/ is_bus_io e = false.
Proof.
  intros kmh bus timestamp w stop.
  split; [reflexivity | ]. split.
  - rewrite CallbackFacts.handle_fan_control_log. reflexivity.
  - assert (E : effects (snd (handle_fan_control (stop kmh) w))
                = effects (snd (send_to_device bus 0 w))).
    { rewrite TraceFacts.handle_fan_control_effects. reflexivity. }
    rewrite E. destruct (link_ready bus w) eqn:R.
    + destruct (TraceFacts.write_calls_of_ready bus 0 w R) as (m & s & raw & Em & Es & Er & Ef).
      rewrite TraceFacts.raw_of_zero in Er. injection Er as <-.
      exists m, s. repeat split; assumption.
    + destruct (WriteFacts.send_to_device_not_ready bus 0 w R) as (_ & _ & _ & _ & _ & Ef).
      rewrite Ef. intros e He. apply in_app_or in He. destruct He as [He | He]; [left; exact He | ].
      right. destruct (master w), (adecua_slave w); cbn in He;
        try contradiction. destruct He as [<- | []]. reflexivity.
Qed.



(** ** Facts on the history graph *)

Module GraphFacts.

Local Open Scope list_scope.

Section Reader.

Variable float_of_string : string -> option float.

Local Abbreviation read := (fold_left (read_row float_of_string)).

(** What one row adds to each series. *)
Lemma read_row_spec (acc : Series) (row : list string) :
  exists (k v : list float),
    timestamps (read_row float_of_string acc row) = timestamps acc ++ firstn 1 row
    /\ kmhs (read_row float_of_string acc row) = kmhs acc ++ k
    /\ volts (read_row float_of_string acc row) = volts acc ++ v
    /\ (List.length v <= List.length k <= List.length (firstn 1 row))%nat
    /\ (bad_speed float_of_string row = true -> List.length k = 0%nat /\ List.length (firstn 1 row) = 1%nat)
    /\ (plottable float_of_string row = true -> List.length k = 1%nat /\ List.length v = 1%nat).
Proof.
  unfold read_row, bad_speed, plottable.
  destruct row as [ | t [ | f1 [ | f2 rest]]]; cbn [nth_error option_map firstn].
  - exists [], []. rewrite !app_nil_r. cbn. repeat split; auto; discriminate.
  - exists [], []. rewrite !app_nil_r. cbn. repeat split; auto; discriminate.
  - destruct (float_of_string f1) as [k | ]; cbn [truthy negb andb].
    + exists [k], []. rewrite !app_nil_r. cbn. repeat split; auto; discriminate.
    + exists [], []. rewrite !app_nil_r. cbn. repeat split; auto; discriminate.
  - destruct (float_of_string f1) as [k | ]; cbn [truthy negb andb].
    + destruct (float_of_string f2) as [v | ]; cbn [truthy].
      * exists [k], [v]. cbn. repeat split; auto; discriminate.
      * exists [k], []. rewrite !app_nil_r. cbn. repeat split; auto; discriminate.
    + exists [], []. rewrite !app_nil_r. cbn. repeat split; auto; discriminate.
Qed.

Lemma read_spec (rows : list (list string)) (acc : Series) :
  exists (k v : list float),
    timestamps (read rows acc) = timestamps acc ++ flat_map (firstn 1) rows
    /\ kmhs (read rows acc) = kmhs acc ++ k
    /\ volts (read rows acc) = volts acc ++ v
    /\ (List.length v <= List.length k <= List.length (flat_map (firstn 1) rows))%nat
    /\ (existsb (bad_speed float_of_string) rows = true ->
        (List.length k < List.length (flat_map (firstn 1) rows))%nat)
    /\ (forallb (plottable float_of_string) rows = true ->
        List.length k = List.length rows /\ List.length v = List.length rows).
Proof.
  revert acc. induction rows as [ | row rows IH]; intros acc; cbn [fold_left flat_map].
  - exists [], []. rewrite !app_nil_r. cbn. repeat split; auto; discriminate.
  - destruct (read_row_spec acc row) as (k1 & v1 & T1 & K1 & V1 & L1 & B1 & P1).
    destruct (IH (read_row float_of_string acc row)) as (k2 & v2 & T2 & K2 & V2 & L2 & B2 & P2).
    exists (k1 ++ k2), (v1 ++ v2).
    rewrite T2, K2, V2, T1, K1, V1, <- !app_assoc, !length_app.
    repeat split; try lia.
    + cbn [existsb]. intros H. apply orb_true_iff in H. destruct H as [H | H].
      * destruct (B1 H). lia.
      * specialize (B2 H). lia.
    + cbn [forallb] in H. apply andb_true_iff in H. destruct H as [H1 H2].
      destruct (P1 H1), (P2 H2). cbn [List.length]. lia.
    + cbn [forallb] in H. apply andb_true_iff in H. destruct H as [H1 H2].
      destruct (P1 H1), (P2 H2). cbn [List.length]. lia.
Qed.

Lemma plottable_firstn (rows : list (list string)) :
  forallb (plottable float_of_string) rows = true ->
  flat_map (firstn 1) rows = map (hd EmptyString) rows.
Proof.
  induction rows as [ | row rows IH]; cbn [forallb flat_map map]; intros H.
  - reflexivity.
  - apply andb_true_iff in H. destruct H as [H1 H2]. rewrite (IH H2).
    destruct row as [ | t [ | f1 [ | f2 rest]]]; try discriminate H1. reflexivity.
Qed.

End Reader.

End GraphFacts.

(** X14. Whatever the log file holds and whatever [float] accepts, the
    graph never has more voltages than speeds, nor more speeds than
    timestamps, and the timestamps are the first fields of the rows that
    are not empty, in order: a row enters the time axis as soon as it has a
    first field, whatever follows it. *)
Theorem graph_series_lengths :
  forall (float_of_string : string -> option float) (w : World),
    timestamps (update_graph float_of_string w) = flat_map (firstn 1) (log_file w)
    /\ (List.length (volts (update_graph float_of_string w))
        <= List.length (kmhs (update_graph float_of_string w))
        <= List.length (timestamps (update_graph float_of_string w)))%nat
    /\ (List.length (timestamps (update_graph float_of_string w)) <= List.length (log_file w))%nat.
Proof.
  intros parse w. unfold update_graph.
  destruct (GraphFacts.read_spec parse (log_file w)
              {| timestamps := []; kmhs := []; volts := [] |})
    as (k & v & T & K & V & L & _).
  cbn [timestamps kmhs volts app] in *. rewrite T, K, V.
  split; [reflexivity | ]. split; [exact L | ].
  clear. induction (log_file w) as [ | row rows IH]; cbn [flat_map List.length].
  - lia.
  - rewrite length_app.
    destruct row as [ | t rest];
      [change (firstn 1 (@nil string)) with (@nil string)
      | change (firstn 1 (t :: rest)) with [t]];
      cbn [List.length]; lia.
Qed.

(** X15. One row with a first field but without a number in its second
    field puts the traces out of step with the time axis: the graph then
    has fewer speeds, and fewer voltages, than timestamps. *)
Theorem damaged_row_misaligns_graph :
  forall (float_of_string : string -> option float) (w : World),
    existsb (bad_speed float_of_string) (log_file w) = true ->
    (List.length (volts (update_graph float_of_string w))
     <= List.length (kmhs (update_graph float_of_string w))
     < List.length (timestamps (update_graph float_of_string w)))%nat.
Proof.
  intros parse w H. unfold update_graph.
  destruct (GraphFacts.read_spec parse (log_file w)
              {| timestamps := []; kmhs := []; volts := [] |})
    as (k & v & T & K & V & L & B & _).
  cbn [timestamps kmhs volts app] in *. rewrite T, K, V.
  specialize (B H). lia.
Qed.

Lemma damaged_row_misaligns_graph_witness :
  (List.length (volts (update_graph float_sample (with_log log_damaged initial_world)))
   <= List.length (kmhs (update_graph float_sample (with_log log_damaged initial_world)))
   < List.length (timestamps (update_graph float_sample (with_log log_damaged initial_world))))%nat.
Proof.
  apply (damaged_row_misaligns_graph float_sample (with_log log_damaged initial_world)).
  reflexivity.
Defined.

(** X16. When every row of the log has a timestamp and two fields that
    [float] accepts, the graph shows one point per row in both traces, at
    the timestamp of the row. *)
Theorem sound_log_is_plotted_in_step :
  forall (float_of_string : string -> option float) (w : World),
    forallb (plottable float_of_string) (log_file w) = true ->
    timestamps (update_graph float_of_string w) = map (hd EmptyString) (log_file w)
    /\ List.length (kmhs (update_graph float_of_string w)) = List.length (log_file w)
    /\ List.length (volts (update_graph float_of_string w)) = List.length (log_file w).
Proof.
  intros parse w H. unfold update_graph.
  destruct (GraphFacts.read_spec parse (log_file w)
              {| timestamps := []; kmhs := []; volts := [] |})
    as (k & v & T & K & V & _ & _ & P).
  cbn [timestamps kmhs volts app] in *. rewrite T, K, V.
  rewrite (GraphFacts.plottable_firstn parse _ H). destruct (P H). auto.
Qed.

Lemma sound_log_is_plotted_in_step_witness :
  timestamps (update_graph float_sample world_commanded)
  = map (hd EmptyString) (log_file world_commanded)
  /\ List.length (kmhs (update_graph float_sample world_commanded))
     = List.length (log_file world_commanded)
  /\ List.length (volts (update_graph float_sample world_commanded))
     = List.length (log_file world_commanded).
Proof.
  apply (sound_log_is_plotted_in_step float_sample world_commanded).
  vm_compute. reflexivity.
Defined.

(** ** Facts on the two other versions of the program *)

Module ScaleFacts.

Import Binary64 Binary64Facts PyFloatFacts VoltageMapperFacts.



End ScaleFacts.



Module FileFacts.

Lemma last_voltage_app (rows : list (list string)) (row : list string) :
  FileApp.last_voltage (rows ++ [row]) = nth_error row 2.
Proof. unfold FileApp.last_voltage. rewrite rev_app_distr. reflexivity. Qed.

(** What one call of the callback leaves: the file holds the voltage of
    the row it appended, and the text for the operator shows it. *)
Lemma update_output_spec (triggered : option string) (kmh_value : float)
    (timestamp : string) (d : FileApp.Disk) :
  exists (speed voltage : string),
    FileApp.controllo_log (snd (FileApp.update_output triggered kmh_value timestamp d))
    = FileApp.controllo_log d ++ [[timestamp; speed; voltage]]
    /\ FileApp.valore_tensione (snd (FileApp.update_output triggered kmh_value timestamp d))
       = Some voltage
    /\ snd (fst (FileApp.update_output triggered kmh_value timestamp d))
       = (plug ++ " Tensione inviata: " ++ voltage ++ " V")%string.
Proof.
  unfold FileApp.update_output.
  destruct (match triggered with
            | Some prop_id => String.eqb prop_id "stop-button.n_clicks"
            | None => false
            end).
  - exists (format_2f 0), (format_2f 0). repeat split.
  - exists (format_2f kmh_value), (format_2f (FileApp.calculate_voltage kmh_value)).
    repeat split.
Qed.

Lemma read_rows_spec (parse : string -> option float) (rows : list (list string))
    (acc : Series) :
  match FileApp.read_rows parse acc rows with
  | inr g => forallb (plottable parse) rows = true
             /\ g = fold_left (read_row parse) rows acc
  | inl _ => forallb (plottable parse) rows = false
  end.
Proof.
  revert acc.
  induction rows as [ | row rows IH]; intros acc; cbn [FileApp.read_rows forallb fold_left].
  - split; reflexivity.
  - unfold FileApp.read_row, read_row, plottable at 1 3.
    destruct row as [ | t [ | f1 [ | f2 rest]]]; cbn [nth_error option_map]; try reflexivity.
    + destruct (parse f1); reflexivity.
    + destruct (parse f1) as [k | ]; [ | reflexivity].
      destruct (parse f2) as [v | ]; [ | reflexivity].
      cbn [truthy andb timestamps kmhs volts]. apply IH.
Qed.

End FileFacts.

(** X18. In the version that writes a file, after any number of commands
    [valore_tensione.txt] holds exactly the voltage field of the last row
    of the log (and does not exist while the log is empty), and the text
    each command returns to the operator shows the voltage it has just
    stored, the stop button included. *)
Theorem voltage_file_matches_log :
  forall d : FileApp.Disk,
    FileApp.written d ->
    FileApp.valore_tensione d = FileApp.last_voltage (FileApp.controllo_log d)
    /\ forall (triggered : option string) (kmh_value : float) (timestamp : string),
         exists voltage : string,
           FileApp.valore_tensione
             (snd (FileApp.update_output triggered kmh_value timestamp d)) = Some voltage
           /\ snd (fst (FileApp.update_output triggered kmh_value timestamp d))
              = (plug ++ " Tensione inviata: " ++ voltage ++ " V")%string.
Proof.
  intros d W. split.
  - induction W as [ | triggered kmh_value timestamp d W IH].
    + reflexivity.
    + destruct (FileFacts.update_output_spec triggered kmh_value timestamp d)
        as (speed & voltage & L & F & _).
      rewrite L, F, FileFacts.last_voltage_app. reflexivity.
  - intros triggered kmh_value timestamp.
    destruct (FileFacts.update_output_spec triggered kmh_value timestamp d)
      as (speed & voltage & _ & F & T).
    exists voltage. split; assumption.
Qed.

Lemma voltage_file_matches_log_witness :
  FileApp.valore_tensione FileApp.disk_sample
  = FileApp.last_voltage (FileApp.controllo_log FileApp.disk_sample).
Proof.
  apply (voltage_file_matches_log FileApp.disk_sample).
  apply FileApp.written_step. apply FileApp.written_empty.
Defined.

(** X19. The two versions of the history graph differ on a damaged log
    only: when every row has a timestamp and two fields that [float]
    accepts, the version that writes a file returns the very series of the
    EtherCAT version; on any other log it raises, where the EtherCAT
    version goes on with what it has read. *)
Theorem file_graph_raises_on_damaged_log :
  forall (float_of_string : string -> option float) (d : FileApp.Disk),
    match FileApp.update_graph float_of_string d with
    | inr g =>
        forallb (plottable float_of_string) (FileApp.controllo_log d) = true
        /\ g = update_graph float_of_string (with_log (FileApp.controllo_log d) initial_world)
    | inl _ => forallb (plottable float_of_string) (FileApp.controllo_log d) = false
    end.
Proof.
  intros parse d. unfold FileApp.update_graph, update_graph.
  apply FileFacts.read_rows_spec.
Qed.

(** X20. In the simulator the notice of the limit is shown exactly when
    the number typed is above 10, and then the labels read 10.00 km/h and
    12.00 V; otherwise the notice is cleared, also for a negative number
    or NaN, which become 0 without a word.  A text that is not a number
    clears both labels. *)
Theorem simulator_notice_iff_limited :
  forall (float_of_string : string -> option float) (g : Simulazione.Gui),
    match float_of_string (Simulazione.speed_entry g) with
    | Some kmh_input =>
        if (10 <? kmh_input)%float
        then Simulazione.update_display float_of_string g
             = {| Simulazione.speed_entry := Simulazione.speed_entry g;
                  Simulazione.current_speed_label :=
                    (check_mark ++ " Velocit" ++ a_grave ++ " impostata: 10.00 km/h")%string;
                  Simulazione.current_voltage_label :=
                    (plug ++ " Tensione simulata: 12.00 V")%string;
                  Simulazione.result_label := Simulazione.limited_notice |}
        else Simulazione.result_label (Simulazione.update_display float_of_string g)
             = EmptyString
             /\ Simulazione.current_speed_label (Simulazione.update_display float_of_string g)
                = (check_mark ++ " Velocit" ++ a_grave ++ " impostata: "
                     ++ format_2f (if (0 <? kmh_input)%float then kmh_input else 0%float)
                     ++ " km/h")%string
    | None =>
        Simulazione.current_speed_label (Simulazione.update_display float_of_string g)
        = EmptyString
        /\ Simulazione.current_voltage_label (Simulazione.update_display float_of_string g)
           = EmptyString
    end.
Proof.
  intros parse g. unfold Simulazione.update_display.
  destruct (parse (Simulazione.speed_entry g)) as [x | ]; [ | split; reflexivity].
  unfold Simulazione.calculate_voltage_from_kmh, pymax, pymin.
  change Simulazione.max_kmh with 10%float.
  destruct (10 <? x)%float eqn:E.
  - reflexivity.
  - cbn [Simulazione.result_label Simulazione.current_speed_label].
    destruct (0 <? x)%float; split; reflexivity.
Qed.

(** ** From the speed to the register *)

Module EndToEndFacts.

Import Binary64 Binary64Facts VoltageMapperFacts.



End EndToEndFacts.



(** X22. In the simulator, pressing Stop and then Set leaves the voltage
    label as the stop button wrote it, with no notice: the text the stop
    button hard-codes is the one the mapping computes for the 0 it types
    into the entry. *)
Theorem simulator_stop_then_set :
  forall (float_of_string : string -> option float) (g : Simulazione.Gui),
    float_of_string "0"%string = Some 0%float ->
    Simulazione.current_voltage_label
      (Simulazione.update_display float_of_string (Simulazione.stop_fan g))
    = Simulazione.current_voltage_label (Simulazione.stop_fan g)
    /\ Simulazione.result_label
         (Simulazione.update_display float_of_string (Simulazione.stop_fan g))
       = Simulazione.result_label (Simulazione.stop_fan g)
    /\ Simulazione.current_speed_label
         (Simulazione.update_display float_of_string (Simulazione.stop_fan g))
       = (check_mark ++ " Velocit" ++ a_grave ++ " impostata: 0.00 km/h")%string.
Proof.
  intros parse g H. unfold Simulazione.update_display.
  cbn [Simulazione.stop_fan Simulazione.speed_entry]. rewrite H.
  repeat split.
Qed.

Lemma simulator_stop_then_set_witness :
  Simulazione.current_voltage_label
    (Simulazione.update_display float_sample (Simulazione.stop_fan Simulazione.gui_sample))
  = Simulazione.current_voltage_label (Simulazione.stop_fan Simulazione.gui_sample).
Proof.
  destruct (simulator_stop_then_set float_sample Simulazione.gui_sample eq_refl) as (E & _). exact E.
Defined.
